(** * Ride analytics engine of santander-cycle-stats

    A shallow embedding of the computations behind the analytics views
    ([RoutesTable], [StationsTable], [StatsCards], [JourneyTimeHistogram])
    and the properties the specification states about them, followed by
    the sorting and selection logic of the two tables, the route map
    ([RoutesMap]), the time-of-day histogram ([TimePatternChart]), the
    calendar histogram ([RidesOverTimeHistogram]) and the nearest-station
    search of [VisitedStationsMap], with further properties of the engine.

    Conventions of the embedding.
    - A JavaScript string is a [string] whose characters are the code units
      U+0000..U+00FF (Latin-1); [toLowerCase], [trim] and the regular
      expression classes are the ECMAScript ones restricted to that range.
    - Epoch milliseconds, counters and rounded durations are integers ([Z]).
    - Coordinates and distances are floating point numbers in the source;
      the embedding is generic in the number type through [FloatOps].  The
      real numbers are the instance used for the algebra of the haversine
      formula; [Binary64Ops] is the arithmetic of the running code, IEEE 754
      binary64, with the sine, cosine and arc tangent of the host.
    - Amounts of money are binary64 numbers (primitive floats): [parseFloat]
      rounds the decimal it reads to the nearest one, as engines do, and
      the total is a floating-point sum.
    - A [Map] iterates in insertion order, which the source relies on
      ([Array.from(map.values())], [forEach] with first-wins ties), so a
      map is an association list kept in insertion order.
    - The run-time exceptions the engine code can raise on well-typed
      input are the [RangeError]s of [Date.prototype.toISOString], of
      [new Array(n)] and of a call that spreads an array of more elements
      than the host accepts as arguments ([Math.min(...arr)]); they are
      explicit in the [js] monad.
    - What depends on the host is a parameter: [localeCompare], the local
      calendar ([getFullYear], [getMonth], and the methods of [Date]
      gathered in [LocalTime]), the local clock ([getHours],
      [getMinutes]) and the number of arguments of a call
      ([maxArguments]).
    - The one loop without a bound known beforehand, the [while] of the
      calendar histogram, is a function with fuel, shown to come to its
      end.
    - [Array.prototype.sort] is the stable sort of the language standard. *)

From Stdlib Require Import Floats.
From Stdlib Require Import ZArith List Bool Ascii String Lia Sorted.
From Stdlib Require Import QArith.
From Stdlib Require Import Reals Lra.
From Stdlib Require Import Numbers.DecimalString.
From Stdlib Require Import Permutation.
Import ListNotations.

#[local] Open Scope bool_scope.
#[local] Open Scope list_scope.
#[local] Open Scope string_scope.
#[local] Open Scope Z_scope.

(* ================================================================== *)
(** ** JavaScript strings *)

Module JsString.

Definition code (c : ascii) : nat := nat_of_ascii c.

Definition between (lo hi n : nat) : bool := (lo <=? n)%nat && (n <=? hi)%nat.

(** Upper-case letters below U+0100: A-Z, and U+00C0..U+00DE except the
    multiplication sign U+00D7. *)
Definition isUpper (c : ascii) : bool :=
  between 65 90 (code c)
  || (between 192 222 (code c) && negb (code c =? 215)%nat).

Definition lowerChar (c : ascii) : ascii :=
  if isUpper c then ascii_of_nat (code c + 32) else c.

(** [s.toLowerCase()] *)
Fixpoint toLowerCase (s : string) : string :=
  match s with
  | EmptyString => EmptyString
  | String c s' => String (lowerChar c) (toLowerCase s')
  end.

(** ECMAScript WhiteSpace and LineTerminator below U+0100: TAB, LF, VT, FF,
    CR, SP and NBSP.  Used by [trim] and by the class [\s]. *)
Definition isWhite (c : ascii) : bool :=
  between 9 13 (code c) || (code c =? 32)%nat || (code c =? 160)%nat.

(** The class [\d]. *)
Definition isDigit (c : ascii) : bool := between 48 57 (code c).

Fixpoint trimStart (s : string) : string :=
  match s with
  | EmptyString => EmptyString
  | String c s' => if isWhite c then trimStart s' else s
  end.

Fixpoint trimEnd (s : string) : string :=
  match s with
  | EmptyString => EmptyString
  | String c s' =>
      match trimEnd s' with
      | EmptyString => if isWhite c then EmptyString else String c EmptyString
      | t => String c t
      end
  end.

(** [s.trim()] *)
Definition trim (s : string) : string := trimEnd (trimStart s).

Fixpoint startsWith (s p : string) {struct s} : bool :=
  match p with
  | EmptyString => true
  | String a p' =>
      match s with
      | EmptyString => false
      | String b s' => Ascii.eqb a b && startsWith s' p'
      end
  end.

(** [s.includes(sub)] *)
Fixpoint includes (s sub : string) {struct s} : bool :=
  startsWith s sub
  || match s with
     | EmptyString => false
     | String _ s' => includes s' sub
     end.

(** The [n] characters at the head of [s] when they are all digits. *)
Fixpoint takeDigits (n : nat) (s : string) : option string :=
  match n with
  | O => Some EmptyString
  | S n' =>
      match s with
      | EmptyString => None
      | String c s' =>
          if isDigit c then option_map (String c) (takeDigits n' s') else None
      end
  end.

(** [s.match(/\d{6}/)]: the leftmost six consecutive digits, element [0]
    of the match array. *)
Fixpoint matchSixDigits (s : string) : option string :=
  match takeDigits 6 s with
  | Some t => Some t
  | None =>
      match s with
      | EmptyString => None
      | String _ s' => matchSixDigits s'
      end
  end.

(** The separator class [[,\s]]. *)
Definition isSep (c : ascii) : bool := (code c =? 44)%nat || isWhite c.

(** [s.split(/[,\s]+/)]: [s] cut at every maximal run of separators.  A
    separator at either end of [s] leaves an empty piece there, and the
    empty string splits into one empty piece.  [inSep] tells that the
    previous character belonged to a separator run. *)
Fixpoint splitAux (inSep : bool) (s : string) : list string :=
  match s with
  | EmptyString => [EmptyString]
  | String c s' =>
      if isSep c then
        if inSep then splitAux true s' else EmptyString :: splitAux true s'
      else
        match splitAux false s' with
        | tok :: toks => String c tok :: toks
        | [] => [String c EmptyString]
        end
  end.

Definition split (s : string) : list string := splitAux false s.

Definition isEmpty (s : string) : bool :=
  match s with EmptyString => true | _ => false end.

End JsString.

Import JsString.

(* ================================================================== *)
(** ** JavaScript numbers used for geometry *)

(** The floating point operations the engine applies to coordinates and
    distances. *)
Class FloatOps (F : Type) := {
  ofZ : Z -> F;
  fadd : F -> F -> F;
  fsub : F -> F -> F;
  fmul : F -> F -> F;
  fdiv : F -> F -> F;
  Math_PI : F;
  Math_sin : F -> F;
  Math_cos : F -> F;
  Math_sqrt : F -> F;
  Math_atan2 : F -> F -> F;
  fgtb : F -> F -> bool;
  fgeb : F -> F -> bool
}.

(** [Math.atan2] on the reals. *)
Definition Ratan2 (y x : R) : R :=
  if Rlt_dec 0 x then atan (y / x)%R
  else if Rlt_dec x 0 then
    (if Rle_dec 0 y then atan (y / x) + PI else atan (y / x) - PI)%R
  else if Rlt_dec 0 y then (PI / 2)%R
  else if Rlt_dec y 0 then (- PI / 2)%R
  else 0%R.

#[export] Instance RealOps : FloatOps R := {
  ofZ := IZR;
  fadd := Rplus;
  fsub := Rminus;
  fmul := Rmult;
  fdiv := Rdiv;
  Math_PI := PI;
  Math_sin := sin;
  Math_cos := cos;
  Math_sqrt := sqrt;
  Math_atan2 := Ratan2;
  fgtb := fun a b => if Rgt_dec a b then true else false;
  fgeb := fun a b => if Rge_dec a b then true else false
}.

(** Rational arithmetic, for running the aggregators on sample data.  The
    transcendental functions are crude stand-ins (small-angle
    approximations): no statement below depends on a distance computed in
    this instance, the haversine formula is studied in [RealOps]. *)
#[export] Instance SampleOps : FloatOps Q := {
  ofZ := inject_Z;
  fadd := Qplus;
  fsub := Qminus;
  fmul := Qmult;
  fdiv := Qdiv;
  Math_PI := (355 # 113)%Q;
  Math_sin := fun x => x;
  Math_cos := fun _ => 1%Q;
  Math_sqrt := fun x => x;
  Math_atan2 := fun y _ => y;
  fgtb := fun a b => negb (Qle_bool a b);
  fgeb := fun a b => Qle_bool b a
}.

(** The numbers of the running code: IEEE 754 binary64.  The arithmetic
    and [Math.sqrt] are those of the primitive floats; [Math.sin],
    [Math.cos] and [Math.atan2] are approximations that differ between
    hosts ([hostSin], [hostCos], [hostAtan2]) except where the language
    fixes the result: [NaN] for a [NaN] or infinite angle, a zero for the
    sine of that zero, 1 for the cosine of a zero, [NaN] for [atan2] of
    a [NaN], and [+0] for [atan2] of [+0] and a positive number. *)
Definition Binary64Ops (hostSin hostCos : float -> float)
  (hostAtan2 : float -> float -> float) : FloatOps float := {|
  ofZ := fun z => SF2Prim (binary_normalize prec emax z 0 false);
  fadd := PrimFloat.add;
  fsub := PrimFloat.sub;
  fmul := PrimFloat.mul;
  fdiv := PrimFloat.div;
  Math_PI := 0x1.921fb54442d18p+1%float;
  Math_sin := fun x =>
    if PrimFloat.is_nan x || PrimFloat.is_infinity x then PrimFloat.nan
    else if PrimFloat.eqb x 0%float then x
    else hostSin x;
  Math_cos := fun x =>
    if PrimFloat.is_nan x || PrimFloat.is_infinity x then PrimFloat.nan
    else if PrimFloat.eqb x 0%float then 1%float
    else hostCos x;
  Math_sqrt := PrimFloat.sqrt;
  Math_atan2 := fun y x =>
    if PrimFloat.is_nan y || PrimFloat.is_nan x then PrimFloat.nan
    else if match PrimFloat.classify y with PZero => true | _ => false end
            && PrimFloat.ltb 0%float x
    then 0%float
    else hostAtan2 y x;
  fgtb := fun a b => PrimFloat.ltb b a;
  fgeb := fun a b => PrimFloat.leb b a
|}.

(** A stand-in host for the closed examples in binary64, with the
    small-angle approximations of [SampleOps]. *)
Definition SampleBinary64 : FloatOps float :=
  Binary64Ops (fun x => x) (fun _ => 1%float) (fun y _ => y).

(* ================================================================== *)
(** ** Data model (schemas/station.ts, schemas/ride.ts) *)

(** The fields of [StationSchema] the engine reads; the capacity and
    lifecycle fields are never read by the computations below. *)
Record Station (F : Type) := mkStation {
  id : string;
  name : string;
  terminalName : string;
  lat : F;
  long : F
}.
Arguments mkStation {F}.
Arguments id {F}.
Arguments name {F}.
Arguments terminalName {F}.
Arguments lat {F}.
Arguments long {F}.

Record PriceBreakdownItem := mkItem {
  title : option string;
  amount : option string
}.

Record PaymentMethod := mkPayment {
  cardType : option string;
  lastFour : option string;
  clientPaymentMethod : option string
}.

Record Ride := mkRide {
  rideId : option string;
  startTimeMs : option Z;
  endTimeMs : option Z;
  startAddress : option string;
  endAddress : option string;
  price : option string;
  priceBreakdown : option (list PriceBreakdownItem);
  paymentMethod : option PaymentMethod
}.

(* ================================================================== *)
(** ** Geodesic distance ([calculateDistance]) *)

Section Geo.
Context {F : Type} {ops : FloatOps F}.

Definition calculateDistance (lat1 lon1 lat2 lon2 : F) : F :=
  let R := ofZ 6371 in
  let dLat := fdiv (fmul (fsub lat2 lat1) Math_PI) (ofZ 180) in
  let dLon := fdiv (fmul (fsub lon2 lon1) Math_PI) (ofZ 180) in
  let a :=
    fadd
      (fmul (Math_sin (fdiv dLat (ofZ 2))) (Math_sin (fdiv dLat (ofZ 2))))
      (fmul
         (fmul
            (fmul (Math_cos (fdiv (fmul lat1 Math_PI) (ofZ 180)))
                  (Math_cos (fdiv (fmul lat2 Math_PI) (ofZ 180))))
            (Math_sin (fdiv dLon (ofZ 2))))
         (Math_sin (fdiv dLon (ofZ 2)))) in
  let c := fmul (ofZ 2) (Math_atan2 (Math_sqrt a) (Math_sqrt (fsub (ofZ 1) a))) in
  fmul R c.

End Geo.

(* ================================================================== *)
(** ** Station resolver ([findStationByName]) *)

Module Resolver.
Section Resolver.
Context {F : Type}.

(** First loop: [for (const station of stations)] with the containment
    test in either direction. *)
Fixpoint exactMatchLoop (normalizedAddress : string) (stations : list (Station F))
  : option (Station F) :=
  match stations with
  | [] => None
  | station :: rest =>
      let stationName := toLowerCase (name station) in
      if includes normalizedAddress stationName
         || includes stationName normalizedAddress
      then Some station
      else exactMatchLoop normalizedAddress rest
  end.

(** [addressWords.filter(aw => stationWords.some(...))] *)
Definition matchingWords (addressWords stationWords : list string)
  : list string :=
  filter
    (fun aw => existsb (fun sw => includes sw aw || includes aw sw) stationWords)
    addressWords.

(** Last loop: the first station with at least two matching words. *)
Fixpoint wordMatchLoop (addressWords : list string) (stations : list (Station F))
  : option (Station F) :=
  match stations with
  | [] => None
  | station :: rest =>
      let stationWords := split (toLowerCase (name station)) in
      if (2 <=? List.length (matchingWords addressWords stationWords))%nat
      then Some station
      else wordMatchLoop addressWords rest
  end.

(** [findStationByName] of RoutesTable.tsx; the copy in the stations table
    is the same text. *)
Definition findStationByName (address : option string) (stations : list (Station F))
  : option (Station F) :=
  match address with
  | None => None
  | Some address =>
      if isEmpty address then None
      else
        let normalizedAddress := trim (toLowerCase address) in
        match exactMatchLoop normalizedAddress stations with
        | Some station => Some station
        | None =>
            let byTerminal :=
              match matchSixDigits normalizedAddress with
              | Some terminal =>
                  find (fun s => String.eqb (terminalName s) terminal) stations
              | None => None
              end in
            match byTerminal with
            | Some station => Some station
            | None =>
                let addressWords :=
                  filter (fun w => (2 <? String.length w)%nat)
                         (split normalizedAddress) in
                wordMatchLoop addressWords stations
            end
        end
  end.

(** The copy in the statistics cards returns early on an empty directory. *)
Definition findStationByName_cards (address : option string)
  (stations : list (Station F)) : option (Station F) :=
  match address with
  | None => None
  | Some a =>
      if isEmpty a || (List.length stations =? 0)%nat then None
      else findStationByName address stations
  end.

End Resolver.
End Resolver.

(* ================================================================== *)
(** ** Run-time exceptions *)

Inductive exn := RangeError.

Inductive js (A : Type) :=
| Ret (a : A)
| Throw (e : exn).
Arguments Ret {A}.
Arguments Throw {A}.

Definition bind {A B : Type} (m : js A) (k : A -> js B) : js B :=
  match m with
  | Ret a => k a
  | Throw e => Throw e
  end.

Notation "x <- m ;; k" := (bind m (fun x => k))
  (at level 61, m at next level, right associativity).

(** [arr.forEach(f)] over a state, stopping at the first exception. *)
Fixpoint forEachM {A S : Type} (f : S -> A -> js S) (l : list A) (s : S) : js S :=
  match l with
  | [] => Ret s
  | a :: l' => s' <- f s a ;; forEachM f l' s'
  end.

(** [Math.min(...arr)] and [Math.max(...arr)], as [f] is [Z.min] or
    [Z.max], for a non-empty array [d0 :: ds] of integers.  The spread
    passes every element as an argument of the one call, and a host accepts
    only so many of them, [maxArguments] (the number depends on the engine
    and on its stack size): with more, the call throws a [RangeError]. *)
Definition spreadCall (maxArguments : Z) (f : Z -> Z -> Z) (d0 : Z) (ds : list Z)
  : js Z :=
  if Z.of_nat (List.length (d0 :: ds)) <=? maxArguments
  then Ret (fold_left f ds d0)
  else Throw RangeError.

(* ================================================================== *)
(** ** [Map] and [Set] in insertion order *)

Module JsMap.
Section JsMap.
Context {K V : Type}.
Variable eqb : K -> K -> bool.

(** [map.get(k)] *)
Fixpoint get (k : K) (m : list (K * V)) : option V :=
  match m with
  | [] => None
  | (k', v) :: m' => if eqb k' k then Some v else get k m'
  end.

(** [map.set(k, v)]: an existing key keeps its place. *)
Fixpoint set (k : K) (v : V) (m : list (K * V)) : list (K * V) :=
  match m with
  | [] => [(k, v)]
  | (k', v') :: m' =>
      if eqb k' k then (k', v) :: m' else (k', v') :: set k v m'
  end.

Definition keys (m : list (K * V)) : list K := map fst m.
Definition values (m : list (K * V)) : list V := map snd m.

End JsMap.

(** [set.add(k)] on a [Set] kept as the list of its members. *)
Definition add {K : Type} (eqb : K -> K -> bool) (k : K) (s : list K) : list K :=
  if existsb (eqb k) s then s else (s ++ [k])%list.

End JsMap.

(* ================================================================== *)
(** ** Integer arithmetic of the engine *)

(** [Math.round(n / d)] for a positive [d]: the nearest integer, a half
    rounding up. *)
Definition jsRound (n d : Z) : Z := (2 * n + d) / (2 * d).

(** [Math.floor(n / d)] and [Math.ceil(n / d)] for a positive [d]. *)
Definition jsFloor (n d : Z) : Z := n / d.
Definition jsCeil (n d : Z) : Z := - ((- n) / d).

(** [x || 0] on a nullable number. *)
Definition orZero (x : option Z) : Z :=
  match x with Some z => z | None => 0 end.

(** Template-literal rendering of an integer. *)
Definition showZ (z : Z) : string := NilZero.string_of_int (Z.to_int z).

(** [r.startTimeMs !== null && r.endTimeMs !== null] *)
Definition hasDuration (r : Ride) : bool :=
  match startTimeMs r, endTimeMs r with
  | Some _, Some _ => true
  | _, _ => false
  end.

(** The guarded block of the aggregators:
    [durationMinutes = Math.round((endTimeMs - startTimeMs) / 60000)] when
    both timestamps are present, [null] otherwise. *)
Definition rideDurationMinutes (ride : Ride) : option Z :=
  match startTimeMs ride, endTimeMs ride with
  | Some s, Some e => Some (jsRound (e - s) 60000)
  | _, _ => None
  end.

(* ================================================================== *)
(** ** Route aggregator (RoutesTable.tsx, [routeStats]) *)

Module RoutesTable.

Record RouteStats (F : Type) := mkRouteStats {
  startStation : Station F;
  endStation : Station F;
  count : Z;
  avgDurationMinutes : option Z;
  minDurationMinutes : option Z;
  maxDurationMinutes : option Z;
  distanceKm : F
}.
Arguments mkRouteStats {F}.
Arguments startStation {F}.
Arguments endStation {F}.
Arguments count {F}.
Arguments avgDurationMinutes {F}.
Arguments minDurationMinutes {F}.
Arguments maxDurationMinutes {F}.
Arguments distanceKm {F}.

Section Routes.
Context {F : Type} {ops : FloatOps F}.

Definition routeKeyOf (s e : Station F) : string := id s ++ "-" ++ id e.

(** The [if (existing)] branch: the entry after [existing.count++] and the
    duration update. *)
Definition updateExisting (existing : RouteStats F) (durationMinutes : option Z)
  : RouteStats F :=
  let count' := count existing + 1 in
  match durationMinutes with
  | None =>
      mkRouteStats (startStation existing) (endStation existing) count'
        (avgDurationMinutes existing) (minDurationMinutes existing)
        (maxDurationMinutes existing) (distanceKm existing)
  | Some d =>
      let avg' :=
        match avgDurationMinutes existing with
        | None => d
        | Some avg =>
            let totalDuration := avg * (count' - 1) + d in
            jsRound totalDuration count'
        end in
      let min' :=
        match minDurationMinutes existing with
        | None => d
        | Some m => if d <? m then d else m
        end in
      let max' :=
        match maxDurationMinutes existing with
        | None => d
        | Some m => if d >? m then d else m
        end in
      mkRouteStats (startStation existing) (endStation existing) count'
        (Some avg') (Some min') (Some max') (distanceKm existing)
  end.

(** The body of [rides.forEach]. *)
Definition routeStep (stations : list (Station F))
  (routesMap : list (string * RouteStats F)) (ride : Ride)
  : list (string * RouteStats F) :=
  let startStation := Resolver.findStationByName (startAddress ride) stations in
  let endStation := Resolver.findStationByName (endAddress ride) stations in
  match startStation, endStation with
  | Some startStation, Some endStation =>
      let routeKey := routeKeyOf startStation endStation in
      let existing := JsMap.get String.eqb routeKey routesMap in
      let distanceKm :=
        calculateDistance (lat startStation) (long startStation)
                          (lat endStation) (long endStation) in
      let durationMinutes := rideDurationMinutes ride in
      match existing with
      | Some existing =>
          JsMap.set String.eqb routeKey
            (updateExisting existing durationMinutes) routesMap
      | None =>
          JsMap.set String.eqb routeKey
            (mkRouteStats startStation endStation 1
               durationMinutes durationMinutes durationMinutes distanceKm)
            routesMap
      end
  | _, _ => routesMap
  end.

Definition routesMap (rides : list Ride) (stations : list (Station F))
  : list (string * RouteStats F) :=
  fold_left (routeStep stations) rides [].

Definition routeStats (rides : list Ride) (stations : list (Station F))
  : list (RouteStats F) :=
  JsMap.values (routesMap rides stations).

End Routes.
End RoutesTable.

(* ================================================================== *)
(** ** Station aggregator (stations table, [stationStats]) *)

Module StationsTable.

Record StationStats (F : Type) := mkStationStats {
  station : Station F;
  pickups : Z;
  dropoffs : Z;
  total : Z;
  net : Z
}.
Arguments mkStationStats {F}.
Arguments station {F}.
Arguments pickups {F}.
Arguments dropoffs {F}.
Arguments total {F}.
Arguments net {F}.

Section Stations.
Context {F : Type}.

(** [stations.forEach(station => statsMap.set(station.id, {...zeros}))] *)
Definition initStats (stations : list (Station F))
  : list (string * StationStats F) :=
  fold_left
    (fun statsMap station =>
       JsMap.set String.eqb (id station) (mkStationStats station 0 0 0 0) statsMap)
    stations [].

Definition countPickup (statsMap : list (string * StationStats F))
  (startStation : option (Station F)) : list (string * StationStats F) :=
  match startStation with
  | Some startStation =>
      match JsMap.get String.eqb (id startStation) statsMap with
      | Some stats =>
          JsMap.set String.eqb (id startStation)
            (mkStationStats (station stats) (pickups stats + 1) (dropoffs stats)
               (total stats + 1) (net stats + 1))
            statsMap
      | None => statsMap
      end
  | None => statsMap
  end.

Definition countDropoff (statsMap : list (string * StationStats F))
  (endStation : option (Station F)) : list (string * StationStats F) :=
  match endStation with
  | Some endStation =>
      match JsMap.get String.eqb (id endStation) statsMap with
      | Some stats =>
          JsMap.set String.eqb (id endStation)
            (mkStationStats (station stats) (pickups stats) (dropoffs stats + 1)
               (total stats + 1) (net stats - 1))
            statsMap
      | None => statsMap
      end
  | None => statsMap
  end.

(** The body of [rides.forEach]. *)
Definition rideStep (stations : list (Station F))
  (statsMap : list (string * StationStats F)) (ride : Ride)
  : list (string * StationStats F) :=
  let statsMap :=
    countPickup statsMap
      (Resolver.findStationByName (startAddress ride) stations) in
  countDropoff statsMap
    (Resolver.findStationByName (endAddress ride) stations).

Definition stationStats (rides : list Ride) (stations : list (Station F))
  : list (StationStats F) :=
  JsMap.values (fold_left (rideStep stations) rides (initStats stations)).

End Stations.
End StationsTable.

(* ================================================================== *)
(** ** Duration histogram ([JourneyTimeHistogram], [chartData]) *)

Module JourneyTimeHistogram.

Inductive BucketWidth := W15s | W30s | W1m | W2m | W5m.

Definition bucketWidthSeconds (bw : BucketWidth) : Z :=
  match bw with
  | W15s => 15
  | W30s => 30
  | W1m => 60
  | W2m => 120
  | W5m => 300
  end.

(** The labels and the counts of the single data set; its caption and
    colours are constants. *)
Record ChartData := mkChart {
  labels : list string;
  data : list Z
}.

Definition ridesWithDuration (rides : list Ride) : list Ride :=
  filter hasDuration rides.

(** [Math.floor(((r.endTimeMs || 0) - (r.startTimeMs || 0)) / 1000)] *)
Definition durationsSeconds (rides : list Ride) : list Z :=
  map (fun r => jsFloor (orZero (endTimeMs r) - orZero (startTimeMs r)) 1000)
      (ridesWithDuration rides).

(** The largest array length, 2^32 - 1. *)
Definition maxArrayLength : Z := 4294967295.

(** [new Array(n).fill(0)] for an integer [n]. *)
Definition newZeroArray (n : Z) : js (list Z) :=
  if (0 <=? n) && (n <=? maxArrayLength)
  then Ret (repeat 0 (Z.to_nat n))
  else Throw RangeError.

Definition binStart (minDurationSeconds bucketSizeSeconds i : Z) : Z :=
  minDurationSeconds + i * bucketSizeSeconds.

(** The label pushed for bin [i]. *)
Definition binLabel (bw : BucketWidth) (minDurationSeconds i : Z) : string :=
  let bucketSizeSeconds := bucketWidthSeconds bw in
  let binStartSeconds := binStart minDurationSeconds bucketSizeSeconds i in
  let binEndSeconds := binStartSeconds + bucketSizeSeconds in
  match bw with
  | W15s | W30s => showZ binStartSeconds ++ "s-" ++ showZ binEndSeconds ++ "s"
  | _ =>
      let binStartMinutes := jsFloor binStartSeconds 60 in
      let binEndMinutes := jsFloor binEndSeconds 60 in
      match bw with
      | W1m => showZ binStartMinutes ++ " min"
      | _ =>
          if binStartMinutes =? binEndMinutes
          then showZ binStartMinutes ++ " min"
          else showZ binStartMinutes ++ "-" ++ showZ binEndMinutes ++ " min"
      end
  end.

Fixpoint incrNth (i : nat) (bins : list Z) : list Z :=
  match bins, i with
  | [], _ => []
  | x :: rest, O => (x + 1) :: rest
  | x :: rest, S j => x :: incrNth j rest
  end.

(** [bins[i]++].  The source only ever increments an index inside the
    array (see [binIndex_in_range]); outside it the array is left as it is
    here. *)
Definition incrAt (i : Z) (bins : list Z) : list Z :=
  if i <? 0 then bins else incrNth (Z.to_nat i) bins.

Definition numBinsOf (minDurationSeconds maxDurationSeconds bucketSizeSeconds : Z)
  : Z :=
  jsCeil (maxDurationSeconds - minDurationSeconds) bucketSizeSeconds + 1.

Definition countStep (minDurationSeconds bucketSizeSeconds numBins : Z)
  (bins : list Z) (durationSeconds : Z) : list Z :=
  let binIndex := jsFloor (durationSeconds - minDurationSeconds) bucketSizeSeconds in
  incrAt (Z.min binIndex (numBins - 1)) bins.

(** [chartData]: [null] without any ride of known duration.  The host
    accepts [maxArguments] arguments in one call. *)
Definition chartData (maxArguments : Z) (rides : list Ride)
  (bucketWidth : BucketWidth) : js (option ChartData) :=
  match durationsSeconds rides with
  | [] => Ret None
  | d0 :: ds =>
      minDurationSeconds <- spreadCall maxArguments Z.min d0 ds ;;
      maxDurationSeconds <- spreadCall maxArguments Z.max d0 ds ;;
      let bucketSizeSeconds := bucketWidthSeconds bucketWidth in
      let numBins :=
        numBinsOf minDurationSeconds maxDurationSeconds bucketSizeSeconds in
      bins <- newZeroArray numBins ;;
      let binLabels :=
        map (fun i => binLabel bucketWidth minDurationSeconds (Z.of_nat i))
            (seq 0 (Z.to_nat numBins)) in
      let bins :=
        fold_left (countStep minDurationSeconds bucketSizeSeconds numBins)
                  (d0 :: ds) bins in
      Ret (Some (mkChart binLabels bins))
  end.

End JourneyTimeHistogram.

(* ================================================================== *)
(** ** Summary statistics ([StatsCards], [stats]) *)

Module StatsCards.

(** *** Price parsing *)

(** The class [[\d.]]. *)
Definition isPriceChar (c : ascii) : bool := isDigit c || (code c =? 46)%nat.

(** The longest prefix made of [[\d.]]. *)
Fixpoint takePrice (s : string) : string :=
  match s with
  | EmptyString => EmptyString
  | String c s' => if isPriceChar c then String c (takePrice s') else EmptyString
  end.

Definition nonEmpty (s : string) : option string :=
  if isEmpty s then None else Some s.

(** The pound sign, the code unit U+00A3. *)
Definition poundSign : ascii := ascii_of_nat 163.

(** [/£?([\d.]+)/] tried at the head of [s]: group 1 of the match. *)
Definition matchPriceHere (s : string) : option string :=
  match s with
  | EmptyString => None
  | String c s' =>
      if Ascii.eqb c poundSign then nonEmpty (takePrice s')
      else nonEmpty (takePrice s)
  end.

(** [price.match(/£?([\d.]+)/)]: group 1 of the leftmost match. *)
Fixpoint priceMatch (s : string) : option string :=
  match matchPriceHere s with
  | Some g => Some g
  | None =>
      match s with
      | EmptyString => None
      | String _ s' => priceMatch s'
      end
  end.

(** The digits at the head of [s], and what follows them. *)
Fixpoint spanDigits (s : string) : string * string :=
  match s with
  | EmptyString => (EmptyString, EmptyString)
  | String c s' =>
      if isDigit c then let (d, r) := spanDigits s' in (String c d, r)
      else (EmptyString, s)
  end.

Fixpoint digitsValue (acc : Z) (s : string) : Z :=
  match s with
  | EmptyString => acc
  | String c s' => digitsValue (10 * acc + (Z.of_nat (code c) - 48)) s'
  end.

(** A JavaScript number: an IEEE 754 binary64 value. *)
Definition jsnum := float.

(** The binary64 number nearest to [n / d], ties to even, for [0 <= n]
    and [0 < d]: the Number value of a decimal literal. *)
Definition ofRatio (n d : Z) : jsnum :=
  match n, d with
  | Zpos n, Zpos d =>
      SF2Prim (SFdiv prec emax (S754_finite false n 0) (S754_finite false d 0))
  | _, _ => 0%float
  end.

(** [parseFloat] on a string of digits and dots (all that group 1 can
    hold): the longest prefix [digits], [digits.], [digits.digits] or
    [.digits], rounded to binary64; [NaN] when there is none. *)
Definition parseFloat (g : string) : jsnum :=
  let (ip, rest) := spanDigits g in
  let fp :=
    match rest with
    | String c r => if (code c =? 46)%nat then fst (spanDigits r) else EmptyString
    | EmptyString => EmptyString
    end in
  if isEmpty ip && isEmpty fp then PrimFloat.nan
  else
    let scale := 10 ^ Z.of_nat (String.length fp) in
    ofRatio (digitsValue 0 ip * scale + digitsValue 0 fp) scale.

(** [x > 0] *)
Definition gtZero (x : jsnum) : bool := PrimFloat.ltb 0%float x.

(** [sum + x] *)
Definition numAdd (sum x : jsnum) : jsnum := PrimFloat.add sum x.

(** The predicate of [rides.filter] that builds [ridesWithPrice]. *)
Definition hasPaidPrice (r : Ride) : bool :=
  match price r with
  | None => false
  | Some p =>
      if isEmpty p then false
      else
        match priceMatch p with
        | None => false
        | Some g => gtZero (parseFloat g)
        end
  end.

Definition ridesWithPrice (rides : list Ride) : list Ride :=
  filter hasPaidPrice rides.

(** The reducer of [totalSpentAmount]. *)
Definition addPrice (sum : jsnum) (r : Ride) : jsnum :=
  match price r with
  | None => sum
  | Some p =>
      if isEmpty p then sum
      else
        match priceMatch p with
        | None => sum
        | Some g => numAdd sum (parseFloat g)
        end
  end.

Definition totalSpentAmountOf (rides : list Ride) : jsnum :=
  fold_left addPrice (ridesWithPrice rides) 0%float.

Definition totalSpentRidesOf (rides : list Ride) : Z :=
  Z.of_nat (List.length (ridesWithPrice rides)).

(** *** Ride dates *)

Definition msPerDay : Z := 1000 * 60 * 60 * 24.

(** The largest time value of a [Date], 8.64e15 ms either side of the epoch. *)
Definition maxTimeValue : Z := 8640000000000000.

Definition validTime (ms : Z) : bool :=
  (- maxTimeValue <=? ms) && (ms <=? maxTimeValue).

(** [new Date(ms).toISOString().split("T")[0]].  The key [YYYY-MM-DD] is
    represented by the UTC day number it denotes; [toISOString] raises a
    [RangeError] on an invalid date. *)
Definition dateKeyOf (ms : Z) : js Z :=
  if validTime ms then Ret (jsFloor ms msPerDay) else Throw RangeError.

(** [new Date(dateKey).getTime()]: midnight UTC of that day. *)
Definition dateOfKey (dateKey : Z) : Z := dateKey * msPerDay.

(** The body of the [forEach] that fills [ridesByDate]. *)
Definition ridesByDateStep (ridesByDate : list (Z * Z)) (ride : Ride)
  : js (list (Z * Z)) :=
  match startTimeMs ride with
  | Some ms =>
      dateKey <- dateKeyOf ms ;;
      Ret (JsMap.set Z.eqb dateKey
             (orZero (JsMap.get Z.eqb dateKey ridesByDate) + 1) ridesByDate)
  | None => Ret ridesByDate
  end.

Definition ridesByDateOf (rides : list Ride) : js (list (Z * Z)) :=
  forEachM ridesByDateStep rides [].

Fixpoint insertSorted (x : Z) (l : list Z) : list Z :=
  match l with
  | [] => [x]
  | y :: l' => if x <=? y then x :: l else y :: insertSorted x l'
  end.

(** [dates.sort((a, b) => a.getTime() - b.getTime())] *)
Definition sortDates (l : list Z) : list Z :=
  fold_right insertSorted [] l.

Definition rideDatesOf (ridesByDate : list (Z * Z)) : list Z :=
  sortDates (map dateOfKey (JsMap.keys ridesByDate)).

Record StreakState := mkStreak {
  currentStreak : Z;
  longestStreakSoFar : Z;
  longestBreakSoFar : option Z
}.

(** One turn of the [for] loop over consecutive ride dates. *)
Definition streakStep (prevDate currDate : Z) (st : StreakState) : StreakState :=
  let daysDiff := jsFloor (currDate - prevDate) msPerDay in
  let '(currentStreak, longestStreak) :=
    if daysDiff =? 1
    then (currentStreak st + 1,
          Z.max (longestStreakSoFar st) (currentStreak st + 1))
    else (1, longestStreakSoFar st) in
  let breakDays := daysDiff - 1 in
  let longestBreakDays :=
    if (0 <? breakDays)
       && match longestBreakSoFar st with
          | None => true
          | Some b => b <? breakDays
          end
    then Some breakDays
    else longestBreakSoFar st in
  mkStreak currentStreak longestStreak longestBreakDays.

Fixpoint streakLoop (prevDate : Z) (rest : list Z) (st : StreakState)
  : StreakState :=
  match rest with
  | [] => st
  | currDate :: rest' => streakLoop currDate rest' (streakStep prevDate currDate st)
  end.

(** [longestStreak] and [longestBreakDays] from the sorted ride dates. *)
Definition streakOf (rideDates : list Z) : Z * option Z :=
  match rideDates with
  | first :: ((_ :: _) as rest) =>
      let st := streakLoop first rest (mkStreak 1 1 None) in
      (longestStreakSoFar st, longestBreakSoFar st)
  | _ => (0, None)
  end.

(** *** The whole [stats] record *)

Record BusiestMonth := mkBusiest {
  count : Z;
  month : Z;
  year : Z
}.

Record FastestJourney (F : Type) := mkFastest {
  durationMinutes : Z;
  distanceKm : F;
  speedKph : F
}.
Arguments mkFastest {F}.
Arguments durationMinutes {F}.
Arguments distanceKm {F}.
Arguments speedKph {F}.

(** An element of [rideDistances]. *)
Record RideDistance (F : Type) := mkRideDistance {
  rd_distanceKm : F;
  rd_durationMinutes : option Z;
  rd_date : option Z
}.
Arguments mkRideDistance {F}.
Arguments rd_distanceKm {F}.
Arguments rd_durationMinutes {F}.
Arguments rd_date {F}.

(** A [Date] is represented by its time value. *)
Record Stats (F : Type) := mkStats {
  totalRides : Z;
  avgDurationMinutes : option Z;
  minDurationMinutes : option Z;
  maxDurationMinutes : option Z;
  earliestRide : option Z;
  daysAgo : option Z;
  totalSpentAmount : jsnum;
  totalSpentRides : Z;
  stationsVisited : Z;
  totalStations : Z;
  eBikeTrips : Z;
  favouriteStation : option (Station F);
  maxVisits : Z;
  longestRideDistanceKm : option F;
  longestRideDate : option Z;
  mostRidesInDay : Z;
  mostRidesInDayDate : option Z;
  totalDistanceKm : F;
  fastestJourney : option (FastestJourney F);
  longestStreak : Z;
  busiestMonth : option BusiestMonth;
  totalTimeCyclingMinutes : Z;
  longestBreakDays : option Z
}.
Arguments mkStats {F}.
Arguments totalRides {F}.
Arguments avgDurationMinutes {F}.
Arguments minDurationMinutes {F}.
Arguments maxDurationMinutes {F}.
Arguments earliestRide {F}.
Arguments daysAgo {F}.
Arguments totalSpentAmount {F}.
Arguments totalSpentRides {F}.
Arguments stationsVisited {F}.
Arguments totalStations {F}.
Arguments eBikeTrips {F}.
Arguments favouriteStation {F}.
Arguments maxVisits {F}.
Arguments longestRideDistanceKm {F}.
Arguments longestRideDate {F}.
Arguments mostRidesInDay {F}.
Arguments mostRidesInDayDate {F}.
Arguments totalDistanceKm {F}.
Arguments fastestJourney {F}.
Arguments longestStreak {F}.
Arguments busiestMonth {F}.
Arguments totalTimeCyclingMinutes {F}.
Arguments longestBreakDays {F}.

Section Stats.
Context {F : Type} {ops : FloatOps F}.

(** [new Date().getTime()] at the time of the computation. *)
Variable now : Z.

(** [getFullYear()] and [getMonth()] of [new Date(ms)] in the time zone of
    the host. *)
Variable localYearMonth : Z -> Z * Z.

Definition ridesWithDuration (rides : list Ride) : list Ride :=
  filter hasDuration rides.

Definition durationsMs (rides : list Ride) : list Z :=
  map (fun r => orZero (endTimeMs r) - orZero (startTimeMs r))
      (ridesWithDuration rides).

(** [ride.startTimeMs ? new Date(ride.startTimeMs) : null] *)
Definition rideDateOf (ride : Ride) : option Z :=
  match startTimeMs ride with
  | Some ms => if ms =? 0 then None else Some ms
  | None => None
  end.

Definition visitedStep (stations : list (Station F)) (visited : list string)
  (ride : Ride) : list string :=
  let startStation := Resolver.findStationByName_cards (startAddress ride) stations in
  let endStation := Resolver.findStationByName_cards (endAddress ride) stations in
  let visited :=
    match startStation with
    | Some s => JsMap.add String.eqb (id s) visited
    | None => visited
    end in
  match endStation with
  | Some e => JsMap.add String.eqb (id e) visited
  | None => visited
  end.

Definition isEBikeTitle (item : PriceBreakdownItem) : bool :=
  match title item with
  | None => false
  | Some t =>
      negb (isEmpty t)
      && (includes (toLowerCase t) "e-bike"
          || includes (toLowerCase t) "ebike"
          || includes (toLowerCase t) "electric")
  end.

Definition isEBikeRide (ride : Ride) : bool :=
  match priceBreakdown ride with
  | None => false
  | Some items => existsb isEBikeTitle items
  end.

Definition bump (stationId : string) (counts : list (string * Z))
  : list (string * Z) :=
  JsMap.set String.eqb stationId
    (orZero (JsMap.get String.eqb stationId counts) + 1) counts.

Definition visitCountStep (stations : list (Station F))
  (counts : list (string * Z)) (ride : Ride) : list (string * Z) :=
  let startStation := Resolver.findStationByName_cards (startAddress ride) stations in
  let endStation := Resolver.findStationByName_cards (endAddress ride) stations in
  let counts :=
    match startStation with
    | Some s => bump (id s) counts
    | None => counts
    end in
  match endStation with
  | Some e => bump (id e) counts
  | None => counts
  end.

Definition favouriteStep (stations : list (Station F))
  (st : option (Station F) * Z) (entry : string * Z) : option (Station F) * Z :=
  let '(stationId, visits) := entry in
  if visits >? snd st then
    match find (fun s => String.eqb (id s) stationId) stations with
    | Some station => (Some station, visits)
    | None => st
    end
  else st.

(** State of the distance loop: [longestRideDistanceKm], [longestRideDate],
    [totalDistanceKm] and [rideDistances]. *)
Definition distanceStep (stations : list (Station F))
  (st : option F * option Z * F * list (RideDistance F)) (ride : Ride)
  : option F * option Z * F * list (RideDistance F) :=
  let '(longest, longestDate, totalKm, rideDistances) := st in
  let startStation := Resolver.findStationByName_cards (startAddress ride) stations in
  let endStation := Resolver.findStationByName_cards (endAddress ride) stations in
  match startStation, endStation with
  | Some s, Some e =>
      let km := calculateDistance (lat s) (long s) (lat e) (long e) in
      let totalKm := fadd totalKm km in
      let minutes := rideDurationMinutes ride in
      let rideDate := rideDateOf ride in
      let rideDistances :=
        (rideDistances ++ [mkRideDistance km minutes rideDate])%list in
      if match longest with
         | None => true
         | Some l => fgtb km l
         end
      then (Some km, rideDate, totalKm, rideDistances)
      else (longest, longestDate, totalKm, rideDistances)
  | _, _ => st
  end.

Definition fastestStep (fastest : option (FastestJourney F))
  (ride : RideDistance F) : option (FastestJourney F) :=
  match rd_durationMinutes ride with
  | Some minutes =>
      if (minutes >? 0) && fgeb (rd_distanceKm ride) (ofZ 1) then
        let kph := fmul (fdiv (rd_distanceKm ride) (ofZ minutes)) (ofZ 60) in
        if match fastest with
           | None => true
           | Some f => fgtb kph (speedKph f)
           end
        then Some (mkFastest minutes (rd_distanceKm ride) kph)
        else fastest
      else fastest
  | None => fastest
  end.

Definition mostRidesStep (st : Z * option Z) (entry : Z * Z) : Z * option Z :=
  let '(dateKey, n) := entry in
  if n >? fst st then (n, Some (dateOfKey dateKey)) else st.

Definition monthKeyEqb (a b : Z * Z) : bool :=
  (fst a =? fst b) && (snd a =? snd b).

(** The key [`${year}-${month}`] is represented by the pair. *)
Definition ridesByMonthStep (ridesByMonth : list (Z * Z * Z)) (ride : Ride)
  : list (Z * Z * Z) :=
  match startTimeMs ride with
  | Some ms =>
      let monthKey := localYearMonth ms in
      JsMap.set monthKeyEqb monthKey
        (orZero (JsMap.get monthKeyEqb monthKey ridesByMonth) + 1) ridesByMonth
  | None => ridesByMonth
  end.

(** [monthKey.split("-").map(Number)] read as [[year, month]]: the minus
    sign of a negative year is taken for a separator. *)
Definition parseMonthKey (monthKey : Z * Z) : Z * Z :=
  let (y, m) := monthKey in
  if y <? 0 then (0, - y) else (y, m).

Definition busiestStep (busiest : option BusiestMonth) (entry : Z * Z * Z)
  : option BusiestMonth :=
  let '(monthKey, n) := entry in
  if match busiest with
     | None => true
     | Some b => n >? count b
     end
  then
    let (y, m) := parseMonthKey monthKey in
    Some (mkBusiest n m y)
  else busiest.

(** The body of the [useMemo].  Every [Date] comes from a start time, and
    a start time outside the valid range makes [toISOString] raise in the
    loop that fills [ridesByDate], which discards all that was computed
    before it: the date-valued fields are given for valid dates only.
    The three spread calls, [Math.min(...durationsMs)],
    [Math.max(...durationsMs)] and [Math.min(...dates.map(...))], are read
    here as the minimum and the maximum they compute on a host that accepts
    their arguments; [statsOnHost] below is the body on a host that accepts
    only so many. *)
Definition stats (rides : list Ride) (stations : list (Station F))
  : js (Stats F) :=
  let totalRides := Z.of_nat (List.length rides) in
  let durationsMs := durationsMs rides in
  let avgDurationMinutes :=
    match durationsMs with
    | [] => None
    | _ :: _ =>
        Some (jsRound (fold_left Z.add durationsMs 0)
                      (Z.of_nat (List.length durationsMs) * 60000))
    end in
  let minDurationMinutes :=
    match durationsMs with
    | [] => None
    | d0 :: ds => Some (jsRound (fold_left Z.min ds d0) 60000)
    end in
  let maxDurationMinutes :=
    match durationsMs with
    | [] => None
    | d0 :: ds => Some (jsRound (fold_left Z.max ds d0) 60000)
    end in
  let dates :=
    flat_map (fun r => match startTimeMs r with Some ms => [ms] | None => [] end)
             rides in
  let earliestRide :=
    match dates with
    | [] => None
    | t0 :: ts => Some (fold_left Z.min ts t0)
    end in
  let daysAgo := option_map (fun e => jsFloor (now - e) msPerDay) earliestRide in
  let totalSpentAmount := totalSpentAmountOf rides in
  let totalSpentRides := totalSpentRidesOf rides in
  let visitedStationIds := fold_left (visitedStep stations) rides [] in
  let stationsVisited := Z.of_nat (List.length visitedStationIds) in
  let totalStations := Z.of_nat (List.length stations) in
  let eBikeTrips := Z.of_nat (List.length (filter isEBikeRide rides)) in
  let stationVisitCounts := fold_left (visitCountStep stations) rides [] in
  let '(favouriteStation, maxVisits) :=
    fold_left (favouriteStep stations) stationVisitCounts (None, 0) in
  let '(longestRideDistanceKm, longestRideDate, totalDistanceKm, rideDistances) :=
    fold_left (distanceStep stations) rides (None, None, ofZ 0, []) in
  let fastestJourney := fold_left fastestStep rideDistances None in
  ridesByDate <- ridesByDateOf rides ;;
  let '(mostRidesInDay, mostRidesInDayDate) :=
    fold_left mostRidesStep ridesByDate (0, None) in
  let '(longestStreak, longestBreakDays) := streakOf (rideDatesOf ridesByDate) in
  let ridesByMonth := fold_left ridesByMonthStep rides [] in
  let busiestMonth := fold_left busiestStep ridesByMonth None in
  let totalTimeCyclingMinutes :=
    fold_left
      (fun sum ride =>
         match rideDurationMinutes ride with
         | Some m => sum + m
         | None => sum
         end)
      (ridesWithDuration rides) 0 in
  Ret (mkStats totalRides avgDurationMinutes minDurationMinutes
         maxDurationMinutes earliestRide daysAgo totalSpentAmount
         totalSpentRides stationsVisited totalStations eBikeTrips
         favouriteStation maxVisits longestRideDistanceKm longestRideDate
         mostRidesInDay mostRidesInDayDate totalDistanceKm fastestJourney
         longestStreak busiestMonth totalTimeCyclingMinutes longestBreakDays).

(** [dates.map((d) => d.getTime())]: the start times of the rides that
    have one. *)
Definition dateTimes (rides : list Ride) : list Z :=
  flat_map (fun r => match startTimeMs r with Some ms => [ms] | None => [] end)
           rides.

(** The body of the [useMemo] on a host that accepts [maxArguments]
    arguments in one call.  The three spread calls come before the loop
    that fills [ridesByDate]; each throws a [RangeError] on an array of
    more than [maxArguments] elements, and what they compute otherwise is
    what [stats] takes them for. *)
Definition statsOnHost (maxArguments : Z) (rides : list Ride)
  (stations : list (Station F)) : js (Stats F) :=
  minDurationMs <-
    match durationsMs rides with
    | [] => Ret 0
    | d0 :: ds =>
        minDurationMs <- spreadCall maxArguments Z.min d0 ds ;;
        spreadCall maxArguments Z.max d0 ds
    end ;;
  earliestMs <-
    match dateTimes rides with
    | [] => Ret 0
    | t0 :: ts => spreadCall maxArguments Z.min t0 ts
    end ;;
  stats rides stations.

End Stats.
End StatsCards.

(* ================================================================== *)
(** ** Specification-side definitions *)

(** The resolver as an ordered chain of strategies, first answer wins. *)
Module ResolverSpec.
Section ResolverSpec.
Context {F : Type}.

Definition strategy : Type := string -> list (Station F) -> option (Station F).

Fixpoint firstMatch (chain : list strategy) (normalized : string)
  (stations : list (Station F)) : option (Station F) :=
  match chain with
  | [] => None
  | tryNext :: others =>
      match tryNext normalized stations with
      | Some s => Some s
      | None => firstMatch others normalized stations
      end
  end.

Definition containsEitherWay (a b : string) : bool :=
  includes a b || includes b a.

(** Whitespace/comma-delimited tokens, and those of length > 2. *)
Definition tokens (s : string) : list string := split s.
Definition longTokens (s : string) : list string :=
  filter (fun w => (2 <? String.length w)%nat) (split s).

(** The number of address tokens found in the station's tokens. *)
Definition overlap (addressTokens stationTokens : list string) : nat :=
  List.length
    (filter (fun aw => existsb (containsEitherWay aw) stationTokens)
            addressTokens).

Definition byTerminalCode : strategy :=
  fun normalized stations =>
    match matchSixDigits normalized with
    | Some code6 => find (fun s => String.eqb (terminalName s) code6) stations
    | None => None
    end.

(** The strategies as the specification words them: station names
    lowercase-trimmed, and split "the same way" as the address, into
    tokens of length > 2. *)
Definition bySubstring_claimed : strategy :=
  fun normalized stations =>
    find (fun s => containsEitherWay normalized (trim (toLowerCase (name s))))
         stations.

Definition byWordOverlap_claimed : strategy :=
  fun normalized stations =>
    find (fun s =>
            (2 <=? overlap (longTokens normalized)
                           (longTokens (toLowerCase (name s))))%nat)
         stations.

Definition resolve_claimed (address : option string)
  (stations : list (Station F)) : option (Station F) :=
  match address with
  | None => None
  | Some a =>
      if isEmpty a then None
      else firstMatch [bySubstring_claimed; byTerminalCode; byWordOverlap_claimed]
                      (trim (toLowerCase a)) stations
  end.

(** The strategies as amended: station names lowercased only, and every
    piece of the split station name kept, whatever its length. *)
Definition bySubstring : strategy :=
  fun normalized stations =>
    find (fun s => containsEitherWay normalized (toLowerCase (name s))) stations.

Definition byWordOverlap : strategy :=
  fun normalized stations =>
    find (fun s =>
            (2 <=? overlap (longTokens normalized)
                           (tokens (toLowerCase (name s))))%nat)
         stations.

Definition resolve (address : option string) (stations : list (Station F))
  : option (Station F) :=
  match address with
  | None => None
  | Some a =>
      if isEmpty a then None
      else firstMatch [bySubstring; byTerminalCode; byWordOverlap]
                      (trim (toLowerCase a)) stations
  end.

End ResolverSpec.
End ResolverSpec.

(** Counting and summing over lists. *)
Definition sumBy {A : Type} (f : A -> Z) (l : list A) : Z :=
  fold_right (fun a acc => f a + acc) 0 l.

Definition countIf {A : Type} (p : A -> bool) (l : list A) : Z :=
  Z.of_nat (List.length (filter p l)).

Section Resolution.
Context {F : Type}.

(** The address resolves to a station of the directory. *)
Definition resolves (stations : list (Station F)) (address : option string)
  : bool :=
  match Resolver.findStationByName address stations with
  | Some _ => true
  | None => false
  end.

Definition bothResolve (stations : list (Station F)) (ride : Ride) : bool :=
  resolves stations (startAddress ride) && resolves stations (endAddress ride).

End Resolution.

(** Every character is white space. *)
Fixpoint allWhite (s : string) : bool :=
  match s with
  | EmptyString => true
  | String c s' => isWhite c && allWhite s'
  end.




(** [k] is the integer nearest to [n / d], a half rounding up. *)
Definition nearestInteger (n d k : Z) : Prop :=
  2 * k * d - d <= 2 * n < 2 * k * d + d.

(** Every entry satisfies [total = pickups + dropoffs] and
    [net = pickups - dropoffs]. *)
Definition balanced {F : Type} (e : StationsTable.StationStats F) : Prop :=
  StationsTable.total e = StationsTable.pickups e + StationsTable.dropoffs e
  /\ StationsTable.net e = StationsTable.pickups e - StationsTable.dropoffs e.

(** Every station of the directory has an entry. *)
Definition covers {F : Type} (stations : list (Station F))
  (m : list (string * StationsTable.StationStats F)) : Prop :=
  forall st, In st stations -> JsMap.get String.eqb (id st) m <> None.

Definition zeroed {F : Type} (e : StationsTable.StationStats F) : Prop :=
  StationsTable.pickups e = 0 /\ StationsTable.dropoffs e = 0
  /\ StationsTable.total e = 0 /\ StationsTable.net e = 0.

(** Bin [i] of a histogram that starts at [lo] with bins of width [w]
    covers the durations [lo + i*w <= d < lo + (i+1)*w]. *)
Definition inBin (lo w i d : Z) : bool :=
  (JourneyTimeHistogram.binStart lo w i <=? d)
  && (d <? JourneyTimeHistogram.binStart lo w (i + 1)).

(** The UTC day a ride starts on, when its start is known. *)
Definition rideDay (r : Ride) : option Z :=
  option_map (fun ms => jsFloor ms StatsCards.msPerDay) (startTimeMs r).

(** The [n] consecutive days from [d] on all have a ride. *)
Definition runIn (days : list Z) (d n : Z) : Prop :=
  forall i, 0 <= i < n -> In (d + i) days.

(** [k] is the length of the longest run of consecutive ride days. *)
Definition isLongestRun (days : list Z) (k : Z) : Prop :=
  (exists d, runIn days d k) /\ forall d n, runIn days d n -> n <= k.


(** The distinct days on which rides start, in order of first appearance. *)
Definition addDay (days : list Z) (r : Ride) : list Z :=
  match rideDay r with
  | Some d => if existsb (fun k => k =? d) days then days else (days ++ [d])%list
  | None => days
  end.

Definition distinctDays (rides : list Ride) : list Z :=
  fold_left addDay rides [].

(** Sample data for the closed examples. *)
Module Sample.

Definition station (i n t : string) : Station Q := mkStation i n t 0%Q 0%Q.

Definition ride (s e : option Z) (a b : option string) : Ride :=
  mkRide None s e a b None None None.

Definition priced (p : option string) : Ride :=
  mkRide None None None None None p None None.

Definition pound : string := String StatsCards.poundSign EmptyString.

(** The number of arguments a sample host accepts in one call. *)
Definition maxArguments : Z := 65535.

Definition stationA : Station Q := station "1" "Station A" "001001".
Definition stationB : Station Q := station "2" "Station B" "001002".
Definition directory : list (Station Q) := [stationA; stationB].

(** Rides from Station A to Station B lasting 10 and 20 minutes, and one
    without timestamps. *)
Definition tenMinutes : Ride :=
  ride (Some 0) (Some 600000) (Some "Station A") (Some "Station B").
Definition twentyMinutes : Ride :=
  ride (Some 3600000) (Some 4800000) (Some "Station A") (Some "Station B").
Definition untimed : Ride :=
  ride None None (Some "Station A") (Some "Station B").

(** A ride of the given length in seconds, starting at the epoch. *)
Definition lasting (seconds : Z) : Ride :=
  ride (Some 0) (Some (seconds * 1000)) None None.


(** A ride starting at the given time. *)
Definition startingAt (ms : Z) : Ride := ride (Some ms) None None None.

End Sample.

(* ================================================================== *)
(** ** Arrays and sets of the views *)

Module JsArray.
Section Sort.
Context {A : Type}.

(** The comparator of [arr.sort(comparefn)]; only its sign matters. *)
Variable comparefn : A -> A -> Z.

(** [x] goes before the first element it does not have to follow. *)
Fixpoint insertStable (x : A) (l : list A) : list A :=
  match l with
  | [] => [x]
  | y :: l' => if 0 <? comparefn x y then y :: insertStable x l' else x :: l
  end.

(** [arr.sort(comparefn)].  The sort is stable: for a comparator that
    orders the elements consistently the result is the one arrangement in
    comparator order that keeps equal elements in their original order,
    which inserting the elements from the right computes. *)
Definition sort (l : list A) : list A := fold_right insertStable [] l.

End Sort.
End JsArray.

Module JsSet.

(** [new Set(iterable)]: the members in order of first insertion. *)
Definition ofList (l : list string) : list string :=
  fold_left (fun s k => JsMap.add String.eqb k s) l [].

(** [set.has(k)] *)
Definition has (k : string) (s : list string) : bool := existsb (String.eqb k) s.

(** [set.delete(k)] *)
Definition delete (k : string) (s : list string) : list string :=
  filter (fun k' => negb (String.eqb k k')) s.

End JsSet.

(** The state machine of the column headers, [handleSort]; the routes
    table and the stations table hold the same text.  [descending],
    [ascending] and [unsorted] are the directions "desc", "asc", "none". *)
Inductive SortDirection := SortNone | SortAsc | SortDesc.

Definition handleSort {Field : Type} (fieldEqb : Field -> Field -> bool)
  (state : Field * SortDirection) (field : Field) : Field * SortDirection :=
  let (sortField, sortDirection) := state in
  if fieldEqb sortField field then
    match sortDirection with
    | SortDesc => (sortField, SortAsc)
    | SortAsc => (sortField, SortNone)
    | SortNone => (sortField, SortDesc)
    end
  else (field, SortDesc).

(* ================================================================== *)
(** ** Routes table: sorting and selection (RoutesTable.tsx) *)

Module RoutesView.

Inductive SortField :=
| SortStartStation
| SortEndStation
| SortCount
| SortDistance
| SortAvgDuration
| SortMinDuration
| SortMaxDuration.

Definition fieldEqb (a b : SortField) : bool :=
  match a, b with
  | SortStartStation, SortStartStation
  | SortEndStation, SortEndStation
  | SortCount, SortCount
  | SortDistance, SortDistance
  | SortAvgDuration, SortAvgDuration
  | SortMinDuration, SortMinDuration
  | SortMaxDuration, SortMaxDuration => true
  | _, _ => false
  end.

(** The initial state of the table: by count, descending. *)
Definition initialSort : SortField * SortDirection := (SortCount, SortDesc).

Section View.
Context {F : Type} {ops : FloatOps F}.

(** [a.localeCompare(b)] in the locale of the host. *)
Variable localeCompare : string -> string -> Z.

(** The sign of a difference of distances. *)
Definition floatSign (x : F) : Z :=
  if fgtb x (ofZ 0) then 1 else if fgtb (ofZ 0) x then -1 else 0.

(** The comparator handed to [sorted.sort]; it is only reached with the
    direction "asc" or "desc". *)
Definition compareRoutes (sortField : SortField) (sortDirection : SortDirection)
  (a b : RoutesTable.RouteStats F) : Z :=
  let asc := match sortDirection with SortAsc => true | _ => false end in
  let strings (aValue bValue : string) :=
    if asc then localeCompare aValue bValue else localeCompare bValue aValue in
  let numbers (aValue bValue : Z) :=
    if asc then aValue - bValue else bValue - aValue in
  match sortField with
  | SortStartStation =>
      strings (toLowerCase (name (RoutesTable.startStation a)))
              (toLowerCase (name (RoutesTable.startStation b)))
  | SortEndStation =>
      strings (toLowerCase (name (RoutesTable.endStation a)))
              (toLowerCase (name (RoutesTable.endStation b)))
  | SortCount => numbers (RoutesTable.count a) (RoutesTable.count b)
  | SortAvgDuration =>
      numbers (orZero (RoutesTable.avgDurationMinutes a))
              (orZero (RoutesTable.avgDurationMinutes b))
  | SortMinDuration =>
      numbers (orZero (RoutesTable.minDurationMinutes a))
              (orZero (RoutesTable.minDurationMinutes b))
  | SortMaxDuration =>
      numbers (orZero (RoutesTable.maxDurationMinutes a))
              (orZero (RoutesTable.maxDurationMinutes b))
  | SortDistance =>
      if asc
      then floatSign (fsub (RoutesTable.distanceKm a) (RoutesTable.distanceKm b))
      else floatSign (fsub (RoutesTable.distanceKm b) (RoutesTable.distanceKm a))
  end.

Definition sortedRoutes (routeStats : list (RoutesTable.RouteStats F))
  (sortField : SortField) (sortDirection : SortDirection)
  : list (RoutesTable.RouteStats F) :=
  match sortDirection with
  | SortNone => routeStats
  | _ => JsArray.sort (compareRoutes sortField sortDirection) routeStats
  end.

Definition getRouteKey (route : RoutesTable.RouteStats F) : string :=
  id (RoutesTable.startStation route) ++ "-" ++ id (RoutesTable.endStation route).

(** The set built by the auto-select effect and by the header checkbox. *)
Definition allRouteKeys (routes : list (RoutesTable.RouteStats F)) : list string :=
  JsSet.ofList (map getRouteKey routes).

Definition handleCheckboxChange (selectedRoutes : list string)
  (route : RoutesTable.RouteStats F) (checked : bool) : list string :=
  let routeKey := getRouteKey route in
  if checked then JsMap.add String.eqb routeKey selectedRoutes
  else JsSet.delete routeKey selectedRoutes.

(** [selectedRoutesData] of Step4Preview.tsx: the routes handed to the map. *)
Definition selectedRoutesData (allRoutes : list (RoutesTable.RouteStats F))
  (selectedRoutes : list string) : list (RoutesTable.RouteStats F) :=
  filter (fun route => JsSet.has (getRouteKey route) selectedRoutes) allRoutes.

End View.
End RoutesView.

(* ================================================================== *)
(** ** Stations table: sorting and the visited filter *)

Module StationsView.

Inductive SortField := SortName | SortPickups | SortDropoffs | SortTotal | SortNet.

Definition fieldEqb (a b : SortField) : bool :=
  match a, b with
  | SortName, SortName
  | SortPickups, SortPickups
  | SortDropoffs, SortDropoffs
  | SortTotal, SortTotal
  | SortNet, SortNet => true
  | _, _ => false
  end.

(** The initial state of the table: by total, descending. *)
Definition initialSort : SortField * SortDirection := (SortTotal, SortDesc).

Section View.
Context {F : Type}.
Variable localeCompare : string -> string -> Z.

Definition compareStats (sortField : SortField) (sortDirection : SortDirection)
  (a b : StationsTable.StationStats F) : Z :=
  let asc := match sortDirection with SortAsc => true | _ => false end in
  let numbers (aValue bValue : Z) :=
    if asc then aValue - bValue else bValue - aValue in
  match sortField with
  | SortName =>
      let aValue := toLowerCase (name (StationsTable.station a)) in
      let bValue := toLowerCase (name (StationsTable.station b)) in
      if asc then localeCompare aValue bValue else localeCompare bValue aValue
  | SortPickups => numbers (StationsTable.pickups a) (StationsTable.pickups b)
  | SortDropoffs => numbers (StationsTable.dropoffs a) (StationsTable.dropoffs b)
  | SortTotal => numbers (StationsTable.total a) (StationsTable.total b)
  | SortNet => numbers (StationsTable.net a) (StationsTable.net b)
  end.

Definition sortedStats (stationStats : list (StationsTable.StationStats F))
  (sortField : SortField) (sortDirection : SortDirection)
  : list (StationsTable.StationStats F) :=
  match sortDirection with
  | SortNone => stationStats
  | _ => JsArray.sort (compareStats sortField sortDirection) stationStats
  end.

(** [sortedStats.filter(stat => stat.total > 0)]: the rows of the table. *)
Definition visitedStations (sortedStats : list (StationsTable.StationStats F))
  : list (StationsTable.StationStats F) :=
  filter (fun stat => StationsTable.total stat >? 0) sortedStats.

End View.
End StationsView.

(* ================================================================== *)
(** ** Route map ([RoutesMap]) *)

Module RoutesMap.
Section RoutesMap.
Context {F : Type}.

(** [maxCount]: 1 without routes, else [Math.max(...counts)], the maximum
    the spread call computes on a host that accepts the counts as its
    arguments (see [spreadCall]). *)
Definition maxCount (routes : list (RoutesTable.RouteStats F)) : Z :=
  match routes with
  | [] => 1
  | r :: rs => fold_left Z.max (map RoutesTable.count rs) (RoutesTable.count r)
  end.

(** [stationsToShow]: the stations at either end of some route, one per
    station id. *)
Definition stationsToShow (routes : list (RoutesTable.RouteStats F))
  : list (Station F) :=
  match routes with
  | [] => []
  | _ :: _ =>
      JsMap.values
        (fold_left
           (fun stationMap route =>
              JsMap.set String.eqb (id (RoutesTable.endStation route))
                (RoutesTable.endStation route)
                (JsMap.set String.eqb (id (RoutesTable.startStation route))
                   (RoutesTable.startStation route) stationMap))
           routes [])
  end.

(** [Math.max(a, b)] and [Math.min(a, b)] on numbers that are not NaN. *)
Definition Math_max {ops : FloatOps F} (a b : F) : F := if fgtb b a then b else a.
Definition Math_min {ops : FloatOps F} (a b : F) : F := if fgtb a b then b else a.

(** The width of the line of a route,
    [Math.max(2, Math.min(8, 2 + (route.count / maxCount) * 6))]. *)
Definition weight {ops : FloatOps F} (count maxCount : Z) : F :=
  Math_max (ofZ 2)
    (Math_min (ofZ 8)
       (fadd (ofZ 2) (fmul (fdiv (ofZ count) (ofZ maxCount)) (ofZ 6)))).

End RoutesMap.
End RoutesMap.

(* ================================================================== *)
(** ** Time-of-day histogram ([TimePatternChart], [chartData]) *)

Module TimePatternChart.

Inductive BucketWidth := W15m | W30m | W1h | W2h.

Definition bucketWidthMinutes (bw : BucketWidth) : Z :=
  match bw with
  | W15m => 15
  | W30m => 30
  | W1h => 60
  | W2h => 120
  end.

Definition totalMinutesInDay : Z := 24 * 60.

(** [s.padStart(2, "0")] *)
Definition padStart2 (s : string) : string :=
  match String.length s with
  | O => "00"
  | S O => "0" ++ s
  | _ => s
  end.

Definition formatTime (hour min : Z) : string :=
  let period := if 12 <=? hour then "PM" else "AM" in
  let displayHour :=
    if hour =? 0 then 12 else if hour >? 12 then hour - 12 else hour in
  if min =? 0 then showZ displayHour ++ " " ++ period
  else showZ displayHour ++ ":" ++ padStart2 (showZ min) ++ " " ++ period.

(** The label pushed for bin [i]. *)
Definition binLabel (bucketSizeMinutes i : Z) : string :=
  let binStartMinutes := i * bucketSizeMinutes in
  let binEndMinutes := Z.min ((i + 1) * bucketSizeMinutes) totalMinutesInDay in
  let binStartHour := jsFloor binStartMinutes 60 in
  let binStartMin := Z.rem binStartMinutes 60 in
  let binEndHour := jsFloor binEndMinutes 60 in
  let binEndMin := Z.rem binEndMinutes 60 in
  if binEndMinutes =? totalMinutesInDay
  then formatTime binStartHour binStartMin ++ " - 12 AM"
  else formatTime binStartHour binStartMin ++ " - "
       ++ formatTime binEndHour binEndMin.

Section Chart.

(** [getHours()] and [getMinutes()] of [new Date(ms)] in the time zone of
    the host, for a valid date. *)
Variable getHours : Z -> Z.
Variable getMinutes : Z -> Z.

(** The body of the counting [forEach].  An invalid date has [NaN] hours,
    and [bins[NaN]++] leaves the elements of the array as they are. *)
Definition countStep (bucketSizeMinutes numBins : Z) (bins : list Z) (ride : Ride)
  : list Z :=
  match startTimeMs ride with
  | Some ms =>
      if StatsCards.validTime ms then
        let totalMinutes := getHours ms * 60 + getMinutes ms in
        let binIndex := jsFloor totalMinutes bucketSizeMinutes in
        JourneyTimeHistogram.incrAt (Z.min binIndex (numBins - 1)) bins
      else bins
  | None => bins
  end.

(** [chartData]: [null] without any ride with a start time. *)
Definition chartData (rides : list Ride) (bucketWidth : BucketWidth)
  : option JourneyTimeHistogram.ChartData :=
  let ridesWithStartTime :=
    filter (fun r => match startTimeMs r with Some _ => true | None => false end)
           rides in
  match ridesWithStartTime with
  | [] => None
  | _ :: _ =>
      let bucketSizeMinutes := bucketWidthMinutes bucketWidth in
      let numBins := jsCeil totalMinutesInDay bucketSizeMinutes in
      let bins := repeat 0 (Z.to_nat numBins) in
      let binLabels :=
        map (fun i => binLabel bucketSizeMinutes (Z.of_nat i))
            (seq 0 (Z.to_nat numBins)) in
      let bins :=
        fold_left (countStep bucketSizeMinutes numBins) ridesWithStartTime bins in
      Some (JourneyTimeHistogram.mkChart binLabels bins)
  end.

End Chart.

(** The clock of a host on UTC. *)
Definition utcHours (ms : Z) : Z := (ms / 3600000) mod 24.
Definition utcMinutes (ms : Z) : Z := (ms / 60000) mod 60.

End TimePatternChart.

(* ================================================================== *)
(** ** Calendar histogram ([RidesOverTimeHistogram], [chartData]) *)

Module RidesOverTimeHistogram.

Inductive BucketWidth := W1d | W3d | W1w | W1m | W3m | W6m | W1y.

(** A [Date] is represented by its time value; [None] is an invalid date,
    whose time value is [NaN]. *)
Definition Date := option Z.

(** [new Date(ms)] for an integer [ms]. *)
Definition newDate (ms : Z) : Date :=
  if StatsCards.validTime ms then Some ms else None.

(** The fields asked of [toLocaleDateString("en-GB", ...)]: day, month
    and year; day and month; month and year. *)
Inductive LabelFormat := DayMonthYear | DayMonth | MonthYear.

(** The methods of [Date] that go by the calendar and the time zone of
    the host, on a valid time value.  A setter answers the new time value
    of the date, [None] when it falls outside the range of [Date];
    [setMonthDate] is [setMonth] with its two arguments and [setHours0] is
    [setHours(0, 0, 0, 0)]. *)
Record LocalTime := mkLocalTime {
  getFullYear : Z -> Z;
  getMonth : Z -> Z;
  getDate : Z -> Z;
  getDay : Z -> Z;
  setDate : Z -> Z -> Date;
  setMonth : Z -> Z -> Date;
  setMonthDate : Z -> Z -> Z -> Date;
  setFullYear : Z -> Z -> Date;
  setHours0 : Z -> Date;
  toLocaleDateString : LabelFormat -> Z -> string
}.

(** A number in a template literal; a field of an invalid date is [NaN]. *)
Definition showNumber (x : option Z) : string :=
  match x with
  | Some z => showZ z
  | None => "NaN"
  end.

(** A method that moves a date leaves an invalid date invalid. *)
Definition andThen (d : Date) (f : Z -> Date) : Date :=
  match d with
  | Some t => f t
  | None => None
  end.

(** [dayOfWeek === 0 ? 6 : dayOfWeek - 1] *)
Definition mondayOffset (dayOfWeek : Z) : Z :=
  if dayOfWeek =? 0 then 6 else dayOfWeek - 1.

Definition quarterNames : list string := ["Jan-Mar"; "Apr-Jun"; "Jul-Sep"; "Oct-Dec"].
Definition halfNames : list string := ["Jan-Jun"; "Jul-Dec"].

(** [names[i]] in a template literal: [undefined] outside the array. *)
Definition nameAt (names : list string) (i : Z) : string :=
  if i <? 0 then "undefined" else nth (Z.to_nat i) names "undefined".

Section Chart.

Variable host : LocalTime.

(** [`${d.getFullYear()}-${d.getMonth()}-${d.getDate()}`] *)
Definition dayKey (d : Date) : string :=
  showNumber (option_map (getFullYear host) d) ++ "-"
  ++ showNumber (option_map (getMonth host) d) ++ "-"
  ++ showNumber (option_map (getDate host) d).

(** The Monday, at midnight, of the week of [date]. *)
Definition mondayOf (date : Date) : Date :=
  andThen
    (andThen date
       (fun t => setDate host t (getDate host t - mondayOffset (getDay host t))))
    (setHours0 host).

(** [Math.floor(daysSinceEpoch / 3) * 3] *)
Definition binStartDays (t : Z) : Z :=
  let daysSinceEpoch := jsFloor t (24 * 60 * 60 * 1000) in
  jsFloor daysSinceEpoch 3 * 3.

Definition getBinKey (bucketWidth : BucketWidth) (date : Date) : string :=
  match bucketWidth with
  | W1d => dayKey date
  | W3d => "d" ++ showNumber (option_map binStartDays date)
  | W1w => dayKey (mondayOf date)
  | W1m =>
      showNumber (option_map (getFullYear host) date) ++ "-"
      ++ showNumber (option_map (getMonth host) date)
  | W3m =>
      let quarter := option_map (fun t => jsFloor (getMonth host t) 3) date in
      showNumber (option_map (getFullYear host) date) ++ "-Q" ++ showNumber quarter
  | W6m =>
      let half := option_map (fun t => jsFloor (getMonth host t) 6) date in
      showNumber (option_map (getFullYear host) date) ++ "-H" ++ showNumber half
  | W1y => showNumber (option_map (getFullYear host) date)
  end.

(** The body of the [forEach] that fills [binCounts]. *)
Definition countStep (bucketWidth : BucketWidth) (binCounts : list (string * Z))
  (ride : Ride) : list (string * Z) :=
  match startTimeMs ride with
  | Some ms =>
      let date := newDate ms in
      let key := getBinKey bucketWidth date in
      JsMap.set String.eqb key
        (orZero (JsMap.get String.eqb key binCounts) + 1) binCounts
  | None => binCounts
  end.

Definition getNextBinStartDate (bucketWidth : BucketWidth) (currentDate : Date)
  : Date :=
  andThen currentDate
    (fun next =>
       match bucketWidth with
       | W1d => setDate host next (getDate host next + 1)
       | W3d => setDate host next (getDate host next + 3)
       | W1w => setDate host next (getDate host next + 7)
       | W1m => setMonth host next (getMonth host next + 1)
       | W3m => setMonth host next (getMonth host next + 3)
       | W6m => setMonth host next (getMonth host next + 6)
       | W1y => setFullYear host next (getFullYear host next + 1)
       end).

(** [currentBinStart] once rounded down to the start of the first bin. *)
Definition firstBinStart (bucketWidth : BucketWidth) (minDate : Date) : Date :=
  match bucketWidth with
  | W1d => andThen minDate (setHours0 host)
  | W3d =>
      andThen minDate
        (fun t => newDate (binStartDays t * 24 * 60 * 60 * 1000))
  | W1w => mondayOf minDate
  | W1m =>
      andThen (andThen minDate (fun t => setDate host t 1)) (setHours0 host)
  | W3m =>
      andThen
        (andThen minDate
           (fun t =>
              let quarter := jsFloor (getMonth host t) 3 in
              setMonthDate host t (quarter * 3) 1))
        (setHours0 host)
  | W6m =>
      andThen
        (andThen minDate
           (fun t =>
              let half := jsFloor (getMonth host t) 6 in
              setMonthDate host t (half * 6) 1))
        (setHours0 host)
  | W1y =>
      andThen (andThen minDate (fun t => setMonthDate host t 0 1)) (setHours0 host)
  end.

(** The loop [while (currentBinStart <= maxDate)], which pushes the start
    of a bin at each turn; a comparison with an invalid date is false.
    [None] when the loop has not come to its end in [fuel] turns. *)
Fixpoint binStartDates (fuel : nat) (bucketWidth : BucketWidth)
  (currentBinStart maxDate : Date) : option (list Z) :=
  match fuel with
  | O => None
  | S fuel' =>
      match currentBinStart, maxDate with
      | Some current, Some latest =>
          if current <=? latest then
            option_map (cons current)
              (binStartDates fuel' bucketWidth
                 (getNextBinStartDate bucketWidth (Some current)) maxDate)
          else Some []
      | _, _ => Some []
      end
  end.

(** [toLocaleDateString] of a date that may be invalid. *)
Definition localeDate (format : LabelFormat) (d : Date) : string :=
  match d with
  | Some t => toLocaleDateString host format t
  | None => "Invalid Date"
  end.

(** The label pushed for the bin that starts at [binStartDate]. *)
Definition binLabel (bucketWidth : BucketWidth) (binStartDate : Z) : string :=
  match bucketWidth with
  | W1d => toLocaleDateString host DayMonthYear binStartDate
  | W3d =>
      let binEndDate := setDate host binStartDate (getDate host binStartDate + 3) in
      toLocaleDateString host DayMonth binStartDate ++ " - "
      ++ localeDate DayMonthYear binEndDate
  | W1w =>
      let binEndDate := setDate host binStartDate (getDate host binStartDate + 7) in
      toLocaleDateString host DayMonth binStartDate ++ " - "
      ++ localeDate DayMonthYear binEndDate
  | W1m => toLocaleDateString host MonthYear binStartDate
  | W3m =>
      let quarter := jsFloor (getMonth host binStartDate) 3 in
      nameAt quarterNames quarter ++ " " ++ showZ (getFullYear host binStartDate)
  | W6m =>
      let half := jsFloor (getMonth host binStartDate) 6 in
      nameAt halfNames half ++ " " ++ showZ (getFullYear host binStartDate)
  | W1y => showZ (getFullYear host binStartDate)
  end.

(** [chartData]: [null] ([Some None]) without any ride with a start time;
    [None] when the loop over the bins has not come to its end in [fuel]
    turns. *)
Definition chartData (fuel : nat) (rides : list Ride) (bucketWidth : BucketWidth)
  : option (option JourneyTimeHistogram.ChartData) :=
  let ridesWithStartTime :=
    filter (fun r => match startTimeMs r with Some _ => true | None => false end)
           rides in
  match ridesWithStartTime with
  | [] => Some None
  | _ :: _ =>
      let timestamps :=
        JsArray.sort (fun a b => a - b)
                     (map (fun r => orZero (startTimeMs r)) ridesWithStartTime) in
      let minDate := newDate (hd 0 timestamps) in
      let maxDate := newDate (last timestamps 0) in
      let binCounts := fold_left (countStep bucketWidth) ridesWithStartTime [] in
      match binStartDates fuel bucketWidth (firstBinStart bucketWidth minDate)
                          maxDate with
      | None => None
      | Some binStartDates =>
          let binLabels := map (binLabel bucketWidth) binStartDates in
          let bins :=
            map (fun binStartDate =>
                   let key := getBinKey bucketWidth (Some binStartDate) in
                   orZero (JsMap.get String.eqb key binCounts))
                binStartDates in
          Some (Some (JourneyTimeHistogram.mkChart binLabels bins))
      end
  end.

End Chart.

(** *** A host on UTC *)

(** The civil date (year, month from 0, day of the month) of the UTC day
    [days] days after 1 January 1970, in the proleptic Gregorian
    calendar. *)
Definition civilFromDays (days : Z) : Z * Z * Z :=
  let z := days + 719468 in
  let era := z / 146097 in
  let doe := z - era * 146097 in
  let yoe := (doe - doe / 1460 + doe / 36524 - doe / 146096) / 365 in
  let doy := doe - (365 * yoe + yoe / 4 - yoe / 100) in
  let mp := (5 * doy + 2) / 153 in
  let d := doy - (153 * mp + 2) / 5 + 1 in
  let m := if mp <? 10 then mp + 2 else mp - 10 in
  let y := yoe + era * 400 + (if m <=? 1 then 1 else 0) in
  (y, m, d).

Definition isLeapYear (y : Z) : bool :=
  ((y mod 4 =? 0) && negb (y mod 100 =? 0)) || (y mod 400 =? 0).

Definition daysInMonth (y m : Z) : Z :=
  if m =? 1 then (if isLeapYear y then 29 else 28)
  else if (m =? 3) || (m =? 5) || (m =? 8) || (m =? 10) then 30
  else 31.

(** The days in the [n] months from month [m] of year [y] on. *)
Fixpoint daysForward (n : nat) (y m : Z) : Z :=
  match n with
  | O => 0
  | S n' =>
      daysInMonth y m
      + (if m =? 11 then daysForward n' (y + 1) 0 else daysForward n' y (m + 1))
  end.

(** The days in the [n] months before month [m] of year [y]. *)
Fixpoint daysBackward (n : nat) (y m : Z) : Z :=
  match n with
  | O => 0
  | S n' =>
      if m =? 0 then daysInMonth (y - 1) 11 + daysBackward n' (y - 1) 11
      else daysInMonth y (m - 1) + daysBackward n' y (m - 1)
  end.

Definition utcDay (t : Z) : Z := jsFloor t StatsCards.msPerDay.
Definition utcTimeInDay (t : Z) : Z := t mod StatsCards.msPerDay.
Definition utcYear (t : Z) : Z := fst (fst (civilFromDays (utcDay t))).
Definition utcMonth (t : Z) : Z := snd (fst (civilFromDays (utcDay t))).
Definition utcDate (t : Z) : Z := snd (civilFromDays (utcDay t)).

(** The day number of day [d] of the month that is month [m] of the year
    of [t], months being counted on into the years after and back into
    the years before. *)
Definition utcMakeDay (t m d : Z) : Z :=
  let first := utcDay t - utcDate t + 1 in
  let months := m - utcMonth t in
  (if 0 <=? months
   then first + daysForward (Z.to_nat months) (utcYear t) (utcMonth t)
   else first - daysBackward (Z.to_nat (- months)) (utcYear t) (utcMonth t))
  + d - 1.

Definition utcMakeDate (day timeInDay : Z) : Date :=
  newDate (day * StatsCards.msPerDay + timeInDay).

Definition monthNames : list string :=
  ["Jan"; "Feb"; "Mar"; "Apr"; "May"; "Jun";
   "Jul"; "Aug"; "Sep"; "Oct"; "Nov"; "Dec"].

Definition utcLocaleDateString (format : LabelFormat) (t : Z) : string :=
  let day := showZ (utcDate t) in
  let month := nameAt monthNames (utcMonth t) in
  let year := showZ (utcYear t) in
  match format with
  | DayMonthYear => day ++ " " ++ month ++ " " ++ year
  | DayMonth => day ++ " " ++ month
  | MonthYear => month ++ " " ++ year
  end.

(** The calendar of a host whose time zone is UTC. *)
Definition utcHost : LocalTime := {|
  getFullYear := utcYear;
  getMonth := utcMonth;
  getDate := utcDate;
  getDay := fun t => (utcDay t + 4) mod 7;
  setDate := fun t d => utcMakeDate (utcMakeDay t (utcMonth t) d) (utcTimeInDay t);
  setMonth := fun t m => utcMakeDate (utcMakeDay t m (utcDate t)) (utcTimeInDay t);
  setMonthDate := fun t m d => utcMakeDate (utcMakeDay t m d) (utcTimeInDay t);
  setFullYear := fun t y =>
    utcMakeDate (utcMakeDay t (utcMonth t + 12 * (y - utcYear t)) (utcDate t))
                (utcTimeInDay t);
  setHours0 := fun t => utcMakeDate (utcDay t) 0;
  toLocaleDateString := utcLocaleDateString
|}.

End RidesOverTimeHistogram.

(* ================================================================== *)
(** ** Nearest station ([VisitedStationsMap], [findNearestStation]) *)

Module VisitedStationsMap.
Section Nearest.
Context {F : Type} {ops : FloatOps F}.

(** State of the loop: [nearest] and [minDistance]; [lat1], [lon1] are
    the arguments [lat], [lon]. *)
Definition nearestStep (lat1 lon1 : F) (st : option (Station F) * F)
  (station : Station F) : option (Station F) * F :=
  let (nearest, minDistance) := st in
  let distance := calculateDistance lat1 lon1 (lat station) (long station) in
  if fgtb minDistance distance then (Some station, distance)
  else (nearest, minDistance).

Definition findNearestStation (lat1 lon1 : F) (stations : list (Station F))
  (maxDistanceKm : F) : option (Station F) :=
  fst (fold_left (nearestStep lat1 lon1) stations (None, maxDistanceKm)).

End Nearest.
End VisitedStationsMap.

(* ================================================================== *)
(** ** Predicates on the tables *)

Section TablePredicates.
Context {F : Type} {ops : FloatOps F}.

(** The key of the route of a ride, when both its addresses resolve. *)
Definition rideRouteKey (stations : list (Station F)) (ride : Ride)
  : list string :=
  match Resolver.findStationByName (startAddress ride) stations,
        Resolver.findStationByName (endAddress ride) stations with
  | Some s, Some e => [RoutesTable.routeKeyOf s e]
  | _, _ => []
  end.

(** The stations of a route entry are stations of the directory, its
    distance is the distance between them and it stands for one ride at
    least. *)
Definition wellFormedRoute (stations : list (Station F))
  (e : RoutesTable.RouteStats F) : Prop :=
  In (RoutesTable.startStation e) stations
  /\ In (RoutesTable.endStation e) stations
  /\ RoutesTable.distanceKm e
     = calculateDistance (lat (RoutesTable.startStation e))
                         (long (RoutesTable.startStation e))
                         (lat (RoutesTable.endStation e))
                         (long (RoutesTable.endStation e))
  /\ 1 <= RoutesTable.count e.

(** The three durations of a route entry are all missing, or all there
    with the average between the minimum and the maximum. *)
Definition durationsBracket (e : RoutesTable.RouteStats F) : Prop :=
  match RoutesTable.minDurationMinutes e, RoutesTable.avgDurationMinutes e,
        RoutesTable.maxDurationMinutes e with
  | Some lo, Some avg, Some hi => lo <= avg <= hi
  | None, None, None => True
  | _, _, _ => False
  end.

(** The rides that start (or end) at a station with the given id. *)
Definition resolvesTo (stations : list (Station F)) (stationId : string)
  (address : option string) : bool :=
  match Resolver.findStationByName address stations with
  | Some s => String.eqb (id s) stationId
  | None => false
  end.

End TablePredicates.

(* ================================================================== *)
(** ** Predicates on the views *)

(** The number a numeric column of the routes table sorts by; the name
    columns sort by [localeCompare] and the distance column by a
    floating-point difference. *)
Definition routeNumericKey {F : Type} (field : RoutesView.SortField)
  : option (RoutesTable.RouteStats F -> Z) :=
  match field with
  | RoutesView.SortCount => Some RoutesTable.count
  | RoutesView.SortAvgDuration =>
      Some (fun r => orZero (RoutesTable.avgDurationMinutes r))
  | RoutesView.SortMinDuration =>
      Some (fun r => orZero (RoutesTable.minDurationMinutes r))
  | RoutesView.SortMaxDuration =>
      Some (fun r => orZero (RoutesTable.maxDurationMinutes r))
  | _ => None
  end.

(** The number a numeric column of the stations table sorts by. *)
Definition stationNumericKey {F : Type} (field : StationsView.SortField)
  : option (StationsTable.StationStats F -> Z) :=
  match field with
  | StationsView.SortPickups => Some StationsTable.pickups
  | StationsView.SortDropoffs => Some StationsTable.dropoffs
  | StationsView.SortTotal => Some StationsTable.total
  | StationsView.SortNet => Some StationsTable.net
  | StationsView.SortName => None
  end.

(** A [localeCompare] for the closed examples: code unit order. *)
Definition sampleLocaleCompare (a b : string) : Z :=
  match String.compare a b with
  | Lt => -1
  | Eq => 0
  | Gt => 1
  end.

(* ================================================================== *)
(** ** Predicates on the charts and the map *)

(** [r.startTimeMs !== null] *)
Definition hasStartTime (r : Ride) : bool :=
  match startTimeMs r with
  | Some _ => true
  | None => false
  end.

(** The ride has a start time that is a valid [Date]. *)
Definition validStart (r : Ride) : bool :=
  match startTimeMs r with
  | Some ms => StatsCards.validTime ms
  | None => false
  end.

(** The ride starts, on the clock of the host, at a minute of the day
    within [i*w, (i+1)*w). *)
Definition startsInBin (getHours getMinutes : Z -> Z) (w i : Z) (r : Ride) : bool :=
  match startTimeMs r with
  | Some ms =>
      StatsCards.validTime ms
      && (i * w <=? getHours ms * 60 + getMinutes ms)
      && (getHours ms * 60 + getMinutes ms <? (i + 1) * w)
  | None => false
  end.

(** The ids of the two stations of a route. *)
Definition routeEndpointIds {F : Type} (route : RoutesTable.RouteStats F)
  : list string :=
  [id (RoutesTable.startStation route); id (RoutesTable.endStation route)].

(** Sample rides for the time-of-day histogram: 08:10, 08:50 and 17:30 UTC
    on the first day of the epoch, and a ride without a start time. *)
Definition sampleCommute : list Ride :=
  [Sample.startingAt 29400000; Sample.startingAt 31800000;
   Sample.startingAt 63000000; Sample.untimed].

(* ================================================================== *)
(** ** Predicates on the statistics cards *)

(** The three durations of the cards are all missing, or all there with
    the average between the minimum and the maximum. *)
Definition cardDurationsBracket {F : Type} (s : StatsCards.Stats F) : Prop :=
  match StatsCards.minDurationMinutes s, StatsCards.avgDurationMinutes s,
        StatsCards.maxDurationMinutes s with
  | Some lo, Some avg, Some hi => lo <= avg <= hi
  | None, None, None => True
  | _, _, _ => False
  end.

(** The ids of the stations the two addresses of a ride resolve to. *)
Definition rideStationIds {F : Type} (stations : list (Station F)) (ride : Ride)
  : list string :=
  (match Resolver.findStationByName (startAddress ride) stations with
   | Some s => [id s]
   | None => []
   end
   ++ match Resolver.findStationByName (endAddress ride) stations with
      | Some e => [id e]
      | None => []
      end)%list.

(** The number of rides that start on the given UTC day. *)
Definition ridesOnDay (rides : list Ride) (day : Z) : Z :=
  countIf (fun r => match rideDay r with
                    | Some d => d =? day
                    | None => false
                    end) rides.

(** Between the ride days [d] and [d + n + 1] lie [n] days without a
    ride. *)
Definition breakIn (days : list Z) (d n : Z) : Prop :=
  In d days /\ In (d + n + 1) days
  /\ forall i, 1 <= i <= n -> ~ In (d + i) days.

(** [b] is the longest break, [None] when no two ride days are apart. *)
Definition isLongestBreak (days : list Z) (b : option Z) : Prop :=
  match b with
  | Some b =>
      1 <= b /\ (exists d, breakIn days d b)
      /\ forall d n, breakIn days d n -> n <= b
  | None => forall d n, breakIn days d n -> n <= 0
  end.


(** The number of times a ride starts or ends at a station with the
    given id. *)
Definition stationVisits {F : Type} (stations : list (Station F))
  (rides : list Ride) (stationId : string) : Z :=
  countIf (fun r => resolvesTo stations stationId (startAddress r)) rides
  + countIf (fun r => resolvesTo stations stationId (endAddress r)) rides.


(** The number of rides that start in the given month of the host's
    calendar ([getFullYear], [getMonth]). *)
Definition ridesInMonth (localYearMonth : Z -> Z * Z) (rides : list Ride)
  (monthKey : Z * Z) : Z :=
  countIf (fun r => match startTimeMs r with
                    | Some ms => StatsCards.monthKeyEqb (localYearMonth ms) monthKey
                    | None => false
                    end) rides.


(** Sample data for the closed examples of the views and the cards. *)
Module SampleViews.

(** Two rides from Station A to Station B on the first day of the epoch,
    one without timestamps, and one back from B to A three days later. *)
Definition rides : list Ride :=
  [Sample.tenMinutes; Sample.twentyMinutes; Sample.untimed;
   Sample.ride (Some 259200000) (Some 259800000)
               (Some "Station B") (Some "Station A")].

Definition routes : list (RoutesTable.RouteStats Q) :=
  RoutesTable.routeStats rides Sample.directory.

Definition stationRows : list (StationsTable.StationStats Q) :=
  StationsTable.stationStats rides Sample.directory.

(** The time of the computation: ten days after the epoch. *)
Definition now : Z := 864000000.

(** A host whose calendar is UTC, for dates in January 1970. *)
Definition localYearMonth (ms : Z) : Z * Z := (1970, 0).

(** Routes on the reals, with 3 rides and with 1 ride. *)
Definition realStation : Station R := mkStation "1" "Station A" "001001" 0%R 0%R.
Definition busyRoute : RoutesTable.RouteStats R :=
  RoutesTable.mkRouteStats realStation realStation 3 None None None 0%R.
Definition quietRoute : RoutesTable.RouteStats R :=
  RoutesTable.mkRouteStats realStation realStation 1 None None None 0%R.
Definition realRoutes : list (RoutesTable.RouteStats R) := [busyRoute; quietRoute].

(** A directory on the reals: Station A and Station B one degree of
    latitude apart. *)
Definition realDirectory : list (Station R) :=
  [mkStation "1" "Station A" "001001" 0%R 0%R;
   mkStation "2" "Station B" "001002" 1%R 0%R].

End SampleViews.


(** The distance of a ride: the distance between the stations its two
    addresses resolve to, when both resolve. *)
Definition rideDistanceKm {F : Type} {ops : FloatOps F}
  (stations : list (Station F)) (ride : Ride) : option F :=
  match Resolver.findStationByName (startAddress ride) stations,
        Resolver.findStationByName (endAddress ride) stations with
  | Some s, Some e => Some (calculateDistance (lat s) (long s) (lat e) (long e))
  | _, _ => None
  end.

(** The speed of a ride in km/h, for a ride of at least 1 km that lasted a
    positive number of (rounded) minutes: the rides the fastest journey is
    chosen from. *)
Definition rideSpeedKph (stations : list (Station R)) (ride : Ride) : option R :=
  match rideDistanceKm stations ride, rideDurationMinutes ride with
  | Some km, Some minutes =>
      if (minutes >? 0) && fgeb km (ofZ 1)
      then Some (fmul (fdiv km (ofZ minutes)) (ofZ 60))
      else None
  | _, _ => None
  end.

(* ================================================================== *)
(** * Properties *)

(** ** Strings *)

Lemma includes_empty : forall s, includes s EmptyString = true.
Proof. destruct s; reflexivity. Qed.

Lemma isWhite_not_upper : forall c, isWhite c = true -> isUpper c = false.
Proof.
  intros c H. unfold isWhite, isUpper, between in *.
  destruct (code c <=? 13)%nat eqn:E13.
  - apply Nat.leb_le in E13.
    assert (H65 : (65 <=? code c)%nat = false) by (apply Nat.leb_gt; lia).
    assert (H192 : (192 <=? code c)%nat = false) by (apply Nat.leb_gt; lia).
    rewrite H65, H192. reflexivity.
  - rewrite andb_false_r in H. simpl in H.
    apply orb_true_iff in H. destruct H as [H | H]; apply Nat.eqb_eq in H;
      rewrite H; reflexivity.
Qed.

Lemma toLowerCase_allWhite :
  forall s, allWhite s = true -> allWhite (toLowerCase s) = true.
Proof.
  induction s as [| c s IH]; simpl; intros H; [reflexivity |].
  apply andb_true_iff in H. destruct H as [Hc Hs].
  unfold lowerChar. rewrite (isWhite_not_upper c Hc), Hc. simpl. auto.
Qed.

Lemma trimStart_allWhite :
  forall s, allWhite s = true -> trimStart s = EmptyString.
Proof.
  induction s as [| c s IH]; simpl; intros H; [reflexivity |].
  apply andb_true_iff in H. destruct H as [Hc Hs]. rewrite Hc. auto.
Qed.

Lemma trim_allWhite :
  forall s, allWhite s = true -> trim (toLowerCase s) = EmptyString.
Proof.
  intros s H. unfold trim.
  rewrite (trimStart_allWhite _ (toLowerCase_allWhite s H)). reflexivity.
Qed.

(** ** Station resolver *)

Section ResolverFacts.
Context {F : Type}.
Implicit Types (stations : list (Station F)) (address : option string).

Lemma exactMatchLoop_find :
  forall normalized stations,
    Resolver.exactMatchLoop normalized stations
    = ResolverSpec.bySubstring normalized stations.
Proof.
  intros normalized stations. unfold ResolverSpec.bySubstring.
  induction stations as [| s rest IH]; simpl; [reflexivity |].
  unfold ResolverSpec.containsEitherWay at 1.
  destruct (includes normalized (toLowerCase (name s))
            || includes (toLowerCase (name s)) normalized); [reflexivity | exact IH].
Qed.

Lemma matchingWords_overlap :
  forall addressWords stationWords,
    List.length (Resolver.matchingWords addressWords stationWords)
    = ResolverSpec.overlap addressWords stationWords.
Proof.
  intros addressWords stationWords.
  unfold Resolver.matchingWords, ResolverSpec.overlap.
  f_equal. apply filter_ext. intros aw.
  induction stationWords as [| sw sws IH]; simpl; [reflexivity |].
  rewrite IH. unfold ResolverSpec.containsEitherWay.
  rewrite (orb_comm (includes sw aw)). reflexivity.
Qed.

Lemma wordMatchLoop_find :
  forall addressWords stations,
    Resolver.wordMatchLoop addressWords stations
    = find (fun s =>
              (2 <=? ResolverSpec.overlap addressWords
                       (ResolverSpec.tokens (toLowerCase (name s))))%nat)
           stations.
Proof.
  intros addressWords stations.
  induction stations as [| s rest IH]; [reflexivity |].
  cbn [Resolver.wordMatchLoop find].
  rewrite matchingWords_overlap, IH. reflexivity.
Qed.

(** C3, as amended: the resolver is the ordered chain substring
    containment, six-digit terminal code, word overlap, the first strategy
    that answers winning; within each strategy the first station of the
    directory that qualifies is returned; the address is lowercased and
    trimmed, station names are lowercased only, the address tokens are
    those of length > 2 and the station tokens are all the pieces of the
    split name; a null or empty address, or no answer from any strategy,
    gives null. *)
Theorem findStationByName_is_ordered_chain :
  forall address stations,
    Resolver.findStationByName address stations
    = ResolverSpec.resolve address stations.
Proof.
  intros [a |] stations; [| reflexivity].
  unfold Resolver.findStationByName, ResolverSpec.resolve.
  destruct (isEmpty a); [reflexivity |].
  cbn [ResolverSpec.firstMatch].
  rewrite exactMatchLoop_find.
  destruct (ResolverSpec.bySubstring (trim (toLowerCase a)) stations);
    [reflexivity |].
  fold (ResolverSpec.byTerminalCode (trim (toLowerCase a)) stations).
  destruct (ResolverSpec.byTerminalCode (trim (toLowerCase a)) stations);
    [reflexivity |].
  rewrite wordMatchLoop_find. unfold ResolverSpec.byWordOverlap, ResolverSpec.longTokens.
  destruct (find _ stations); reflexivity.
Qed.

Lemma exactMatchLoop_In :
  forall normalized stations s,
    Resolver.exactMatchLoop normalized stations = Some s -> In s stations.
Proof.
  intros normalized stations s. rewrite exactMatchLoop_find.
  unfold ResolverSpec.bySubstring. intros H. apply find_some in H. tauto.
Qed.

(** The resolver only ever answers with a station of the directory. *)
Lemma findStationByName_In :
  forall address stations s,
    Resolver.findStationByName address stations = Some s -> In s stations.
Proof.
  intros address stations s. unfold Resolver.findStationByName.
  destruct address as [a |]; [| discriminate].
  destruct (isEmpty a); [discriminate |]. cbv zeta.
  destruct (Resolver.exactMatchLoop (trim (toLowerCase a)) stations) eqn:E1.
  - intros H. inversion H; subst. eapply exactMatchLoop_In; eassumption.
  - rewrite wordMatchLoop_find.
    destruct (matchSixDigits (trim (toLowerCase a))) as [terminal |].
    + destruct (find (fun s0 => String.eqb (terminalName s0) terminal) stations)
        eqn:E2.
      * intros H. inversion H; subst. apply find_some in E2. tauto.
      * intros H. apply find_some in H. tauto.
    + intros H. apply find_some in H. tauto.
Qed.

(** C10: an address made of white space only (and not empty) resolves to
    the first station of a non-empty directory, in the tables' resolver
    and in the statistics cards' copy alike. *)
Theorem blank_address_resolves_to_first_station :
  forall (a : string) (first : Station F) (others : list (Station F)),
    isEmpty a = false ->
    allWhite a = true ->
    Resolver.findStationByName (Some a) (first :: others) = Some first
    /\ Resolver.findStationByName_cards (Some a) (first :: others) = Some first.
Proof.
  intros a first others Hne Hws.
  assert (H : Resolver.findStationByName (Some a) (first :: others) = Some first).
  { unfold Resolver.findStationByName. rewrite Hne, (trim_allWhite a Hws).
    simpl. rewrite includes_empty, orb_true_r. reflexivity. }
  split; [exact H |].
  unfold Resolver.findStationByName_cards. rewrite Hne. simpl. exact H.
Qed.

End ResolverFacts.

Lemma blank_address_resolves_to_first_station_witness :
  Resolver.findStationByName (Some " ") [Sample.stationA; Sample.stationB]
  = Some Sample.stationA
  /\ Resolver.findStationByName_cards (Some " ") [Sample.stationA; Sample.stationB]
     = Some Sample.stationA.
Proof.
  apply (blank_address_resolves_to_first_station " " Sample.stationA
           [Sample.stationB]); reflexivity.
Defined.

(** C3, as stated: with station names split into tokens of length > 2,
    the address "west yard" would not resolve to the station "St Rd", yet
    the code resolves it ("west" contains "st", "yard" contains "rd"); and
    with station names trimmed, "xabcx" would resolve to a station named
    " abc", which the code leaves unresolved. *)
Lemma resolver_differs_from_claimed_chain :
  (Resolver.findStationByName (Some "west yard") [Sample.station "7" "St Rd" "000007"]
   = Some (Sample.station "7" "St Rd" "000007")
   /\ ResolverSpec.resolve_claimed (Some "west yard")
        [Sample.station "7" "St Rd" "000007"] = None)
  /\ (Resolver.findStationByName (Some "xabcx") [Sample.station "8" " abc" "000008"]
      = None
      /\ ResolverSpec.resolve_claimed (Some "xabcx")
           [Sample.station "8" " abc" "000008"]
         = Some (Sample.station "8" " abc" "000008")).
Proof. repeat split; vm_compute; reflexivity. Qed.

(** ** Maps in insertion order *)

Section JsMapFacts.
Context {K V : Type}.
Variable eqb : K -> K -> bool.
Hypothesis eqb_spec : forall a b, eqb a b = true <-> a = b.

Lemma eqb_refl_key : forall k, eqb k k = true.
Proof. intros k. apply eqb_spec. reflexivity. Qed.

Lemma eqb_neq_key : forall a b, a <> b -> eqb a b = false.
Proof.
  intros a b H. destruct (eqb a b) eqn:E; [| reflexivity].
  apply eqb_spec in E. contradiction.
Qed.

Lemma get_set_same :
  forall k (v : V) m, JsMap.get eqb k (JsMap.set eqb k v m) = Some v.
Proof.
  intros k v m. induction m as [| [k' v'] m IH]; simpl.
  - rewrite eqb_refl_key. reflexivity.
  - destruct (eqb k' k) eqn:E; simpl; rewrite E; [reflexivity | exact IH].
Qed.

Lemma get_set_other :
  forall k k' (v : V) m,
    k <> k' -> JsMap.get eqb k' (JsMap.set eqb k v m) = JsMap.get eqb k' m.
Proof.
  intros k k' v m Hne. induction m as [| [k0 v0] m IH]; simpl.
  - rewrite (eqb_neq_key k k' Hne). reflexivity.
  - destruct (eqb k0 k) eqn:E; simpl.
    + apply eqb_spec in E. subst k0.
      rewrite (eqb_neq_key k k' Hne). reflexivity.
    + rewrite IH. reflexivity.
Qed.

Lemma get_set_defined :
  forall k k' (v : V) m,
    JsMap.get eqb k' m <> None ->
    JsMap.get eqb k' (JsMap.set eqb k v m) <> None.
Proof.
  intros k k' v m H. induction m as [| [k0 v0] m IH]; simpl in *.
  - contradiction.
  - destruct (eqb k0 k) eqn:E; simpl.
    + apply eqb_spec in E. subst k0.
      destruct (eqb k k'); [discriminate | exact H].
    + destruct (eqb k0 k'); [discriminate | auto].
Qed.

(** Writing [v] under [k] changes a sum over the values by what [v]
    brings and what the entry it replaces took away. *)
Lemma sumBy_values_set :
  forall (f : V -> Z) k v m,
    sumBy f (JsMap.values (JsMap.set eqb k v m))
    = sumBy f (JsMap.values m) + f v
      - match JsMap.get eqb k m with
        | Some old => f old
        | None => 0
        end.
Proof.
  intros f k v m. unfold JsMap.values, sumBy.
  induction m as [| [k0 v0] m IH]; simpl.
  - lia.
  - destruct (eqb k0 k) eqn:E; simpl.
    + lia.
    + rewrite IH. lia.
Qed.

Lemma Forall_values_set :
  forall (P : V -> Prop) k v m,
    Forall P (JsMap.values m) -> P v ->
    Forall P (JsMap.values (JsMap.set eqb k v m)).
Proof.
  intros P k v m Hm Hv. induction m as [| [k0 v0] m IH]; simpl in *.
  - constructor; [exact Hv | constructor].
  - inversion Hm; subst.
    destruct (eqb k0 k); simpl; constructor; auto.
Qed.

Lemma get_Forall :
  forall (P : V -> Prop) k v m,
    JsMap.get eqb k m = Some v -> Forall P (JsMap.values m) -> P v.
Proof.
  intros P k v m Hget Hm. induction m as [| [k0 v0] m IH]; simpl in *.
  - discriminate.
  - inversion Hm; subst.
    destruct (eqb k0 k); [inversion Hget; subst; assumption | auto].
Qed.

End JsMapFacts.

Lemma string_eqb_spec : forall a b : string, String.eqb a b = true <-> a = b.
Proof. exact String.eqb_eq. Qed.

Lemma sumBy_zero :
  forall {A : Type} (f : A -> Z) l,
    Forall (fun a => f a = 0) l -> sumBy f l = 0.
Proof.
  intros A f l H. unfold sumBy.
  induction H as [| a l Ha _ IH]; simpl in *; [reflexivity | lia].
Qed.

Lemma countIf_cons :
  forall {A : Type} (p : A -> bool) a l,
    countIf p (a :: l) = (if p a then 1 else 0) + countIf p l.
Proof.
  intros A p a l. unfold countIf. cbn [filter].
  destruct (p a); cbn [List.length]; lia.
Qed.

(** ** Route aggregation *)

Section RouteFacts.
Context {F : Type} {ops : FloatOps F}.
Import RoutesTable.

Lemma routeStep_skips_unresolved :
  forall (stations : list (Station F)) m ride,
    bothResolve stations ride = false -> routeStep stations m ride = m.
Proof.
  intros stations m ride. unfold bothResolve, resolves, routeStep.
  destruct (Resolver.findStationByName (startAddress ride) stations);
    destruct (Resolver.findStationByName (endAddress ride) stations);
    simpl; intros H; try discriminate; reflexivity.
Qed.

Lemma routeStep_count :
  forall (stations : list (Station F)) m ride,
    sumBy count (JsMap.values (routeStep stations m ride))
    = sumBy count (JsMap.values m)
      + (if bothResolve stations ride then 1 else 0).
Proof.
  intros stations m ride.
  destruct (bothResolve stations ride) eqn:B.
  - unfold bothResolve, resolves in B. unfold routeStep.
    destruct (Resolver.findStationByName (startAddress ride) stations) as [s |];
      [| discriminate].
    destruct (Resolver.findStationByName (endAddress ride) stations) as [e |];
      [| discriminate].
    cbv zeta.
    destruct (JsMap.get String.eqb (routeKeyOf s e) m) as [existing |] eqn:G;
      rewrite sumBy_values_set, G.
    + unfold updateExisting.
      destruct (rideDurationMinutes ride); simpl; lia.
    + simpl. lia.
  - rewrite routeStep_skips_unresolved by exact B. lia.
Qed.

Lemma fold_routeStep_count :
  forall (stations : list (Station F)) rides m,
    sumBy count (JsMap.values (fold_left (routeStep stations) rides m))
    = sumBy count (JsMap.values m) + countIf (bothResolve stations) rides.
Proof.
  intros stations rides. induction rides as [| r rides IH]; intros m; simpl.
  - unfold countIf. simpl. lia.
  - rewrite IH, routeStep_count, countIf_cons. lia.
Qed.

Lemma fold_routeStep_filter :
  forall (stations : list (Station F)) rides m,
    fold_left (routeStep stations) rides m
    = fold_left (routeStep stations) (filter (bothResolve stations) rides) m.
Proof.
  intros stations rides. induction rides as [| r rides IH]; intros m; simpl.
  - reflexivity.
  - destruct (bothResolve stations r) eqn:B; simpl.
    + apply IH.
    + rewrite routeStep_skips_unresolved by exact B. apply IH.
Qed.

Lemma routeStep_counts_positive :
  forall (stations : list (Station F)) m ride,
    Forall (fun r => 1 <= count r) (JsMap.values m) ->
    Forall (fun r => 1 <= count r) (JsMap.values (routeStep stations m ride)).
Proof.
  intros stations m ride Hm. unfold routeStep.
  destruct (Resolver.findStationByName (startAddress ride) stations) as [s |];
    [| exact Hm].
  destruct (Resolver.findStationByName (endAddress ride) stations) as [e |];
    [| exact Hm].
  cbv zeta.
  destruct (JsMap.get String.eqb (routeKeyOf s e) m) as [existing |] eqn:G;
    apply Forall_values_set; try exact Hm.
  - pose proof (get_Forall String.eqb _ _ _ _ G Hm) as Hex. simpl in Hex.
    unfold updateExisting. destruct (rideDurationMinutes ride); simpl; lia.
  - simpl. lia.
Qed.

Lemma routesMap_counts_positive :
  forall (stations : list (Station F)) rides,
    Forall (fun r => 1 <= count r) (JsMap.values (routesMap rides stations)).
Proof.
  intros stations rides. unfold routesMap.
  assert (H : forall m,
             Forall (fun r => 1 <= count r) (JsMap.values m) ->
             Forall (fun r => 1 <= count r)
                    (JsMap.values (fold_left (routeStep stations) rides m))).
  { induction rides as [| r rides IH]; intros m Hm; simpl; [exact Hm |].
    apply IH, routeStep_counts_positive, Hm. }
  apply H. constructor.
Qed.

(** C1: the counts of the route entries add up to the number of rides
    whose two addresses both resolve, and the rides with an unresolved
    endpoint can be removed without changing the route table. *)
Theorem route_count_conservation :
  forall (rides : list Ride) (stations : list (Station F)),
    sumBy count (routeStats rides stations)
    = countIf (bothResolve stations) rides
    /\ routeStats rides stations
       = routeStats (filter (bothResolve stations) rides) stations.
Proof.
  intros rides stations. unfold routeStats, routesMap. split.
  - rewrite fold_routeStep_count. simpl. lia.
  - rewrite fold_routeStep_filter. reflexivity.
Qed.

Lemma jsRound_nearest :
  forall n d, 0 < d -> nearestInteger n d (jsRound n d).
Proof.
  intros n d Hd. unfold nearestInteger, jsRound.
  pose proof (Z.div_mod (2 * n + d) (2 * d) ltac:(lia)) as Hdm.
  pose proof (Z.mod_pos_bound (2 * n + d) (2 * d) ltac:(lia)) as Hb.
  nia.
Qed.

Lemma rideDurationMinutes_missing :
  forall ride,
    startTimeMs ride = None \/ endTimeMs ride = None ->
    rideDurationMinutes ride = None.
Proof.
  intros ride [H | H]; unfold rideDurationMinutes; rewrite H;
    [reflexivity | destruct (startTimeMs ride); reflexivity].
Qed.

(** C5: when a ride falls on a route that already has an entry, the
    entry's count grows by one; if the ride has a duration [d] and the
    entry an average [avg], the new average is
    [(avg * (count - 1) + d) / count] rounded to the nearest integer, with
    the count already incremented and the rounding applied at this very
    update, and min/max become the smaller/larger of [d] and the old
    bound (or [d] when there was none yet); a ride missing a timestamp
    leaves the three duration fields as they were. *)
Theorem route_update_on_existing_key :
  forall (rides : list Ride) (ride : Ride) (stations : list (Station F))
         (s e : Station F) (existing : RouteStats F),
    Resolver.findStationByName (startAddress ride) stations = Some s ->
    Resolver.findStationByName (endAddress ride) stations = Some e ->
    JsMap.get String.eqb (routeKeyOf s e) (routesMap rides stations)
    = Some existing ->
    exists updated,
      JsMap.get String.eqb (routeKeyOf s e)
                (routesMap (rides ++ [ride]) stations) = Some updated
      /\ count updated = count existing + 1
      /\ (forall d,
            rideDurationMinutes ride = Some d ->
            (forall avg,
               avgDurationMinutes existing = Some avg ->
               avgDurationMinutes updated
               = Some (jsRound (avg * (count updated - 1) + d) (count updated))
               /\ nearestInteger (avg * (count updated - 1) + d) (count updated)
                    (jsRound (avg * (count updated - 1) + d) (count updated)))
            /\ (avgDurationMinutes existing = None ->
                avgDurationMinutes updated = Some d)
            /\ minDurationMinutes updated
               = Some match minDurationMinutes existing with
                      | Some m => Z.min d m
                      | None => d
                      end
            /\ maxDurationMinutes updated
               = Some match maxDurationMinutes existing with
                      | Some m => Z.max d m
                      | None => d
                      end)
      /\ (startTimeMs ride = None \/ endTimeMs ride = None ->
          avgDurationMinutes updated = avgDurationMinutes existing
          /\ minDurationMinutes updated = minDurationMinutes existing
          /\ maxDurationMinutes updated = maxDurationMinutes existing).
Proof.
  intros rides ride stations s e existing Hs He Hget.
  pose proof (get_Forall String.eqb _ _ _ _ Hget
                (routesMap_counts_positive stations rides)) as Hpos.
  simpl in Hpos.
  exists (updateExisting existing (rideDurationMinutes ride)).
  split.
  { unfold routesMap in *. rewrite fold_left_app. simpl.
    unfold routeStep at 1. rewrite Hs, He. cbv zeta. rewrite Hget.
    apply get_set_same. exact string_eqb_spec. }
  split.
  { unfold updateExisting. destruct (rideDurationMinutes ride); reflexivity. }
  split.
  - intros d Hd. rewrite Hd. unfold updateExisting. cbn.
    split; [| split; [| split]].
    + intros avg Havg. rewrite Havg. split; [reflexivity |].
      apply jsRound_nearest. lia.
    + intros Havg. rewrite Havg. reflexivity.
    + destruct (minDurationMinutes existing) as [m |]; [| reflexivity].
      f_equal. destruct (d <? m) eqn:E;
        [apply Z.ltb_lt in E | apply Z.ltb_ge in E]; lia.
    + destruct (maxDurationMinutes existing) as [m |]; [| reflexivity].
      f_equal. rewrite Z.gtb_ltb. destruct (m <? d) eqn:E;
        [apply Z.ltb_lt in E | apply Z.ltb_ge in E]; lia.
  - intros Hmiss. rewrite (rideDurationMinutes_missing ride Hmiss).
    repeat split.
Qed.

End RouteFacts.

Lemma route_update_on_existing_key_witness :
  (Resolver.findStationByName (startAddress Sample.twentyMinutes) Sample.directory
   = Some Sample.stationA
   /\ Resolver.findStationByName (endAddress Sample.twentyMinutes) Sample.directory
      = Some Sample.stationB)
  /\ exists updated,
      JsMap.get String.eqb "1-2"
        (RoutesTable.routesMap [Sample.tenMinutes; Sample.twentyMinutes]
           Sample.directory) = Some updated
      /\ RoutesTable.count updated = 2
      /\ RoutesTable.avgDurationMinutes updated = Some 15
      /\ RoutesTable.minDurationMinutes updated = Some 10
      /\ RoutesTable.maxDurationMinutes updated = Some 20.
Proof.
  split; [split; reflexivity |].
  destruct (route_update_on_existing_key
              [Sample.tenMinutes] Sample.twentyMinutes Sample.directory
              Sample.stationA Sample.stationB
              (RoutesTable.mkRouteStats Sample.stationA Sample.stationB 1
                 (Some 10) (Some 10) (Some 10)
                 (calculateDistance 0%Q 0%Q 0%Q 0%Q))
              eq_refl eq_refl eq_refl)
    as (updated & Hget & Hcount & Hduration & _).
  exists updated.
  destruct (Hduration 20 eq_refl) as (Havg & _ & Hmin & Hmax).
  destruct (Havg 10 eq_refl) as (Havg' & _).
  rewrite Hcount in Havg'.
  repeat split; assumption.
Defined.

(** ** Station aggregation *)

Section StationFacts.
Context {F : Type}.
Import StationsTable.

Lemma initStats_fold :
  forall (stations : list (Station F)) m,
    Forall zeroed (JsMap.values m) ->
    let m' :=
      fold_left
        (fun statsMap station =>
           JsMap.set String.eqb (id station) (mkStationStats station 0 0 0 0)
                     statsMap)
        stations m in
    Forall zeroed (JsMap.values m')
    /\ (forall st,
          In st stations \/ JsMap.get String.eqb (id st) m <> None ->
          JsMap.get String.eqb (id st) m' <> None).
Proof.
  induction stations as [| s stations IH]; intros m Hm; simpl.
  - split; [exact Hm |]. intros st [[] | H]. exact H.
  - specialize (IH (JsMap.set String.eqb (id s) (mkStationStats s 0 0 0 0) m)).
    destruct IH as [IHz IHc].
    { apply Forall_values_set; [exact Hm |]. repeat split. }
    split; [exact IHz |].
    intros st [[Heq | Hin] | Hdef]; apply IHc.
    + right. subst st.
      rewrite (get_set_same String.eqb string_eqb_spec). discriminate.
    + left. exact Hin.
    + right. apply (get_set_defined String.eqb string_eqb_spec). exact Hdef.
Qed.

Lemma initStats_zeroed :
  forall stations : list (Station F),
    Forall zeroed (JsMap.values (initStats stations)).
Proof.
  intros stations. apply (initStats_fold stations []). constructor.
Qed.

Lemma initStats_covers :
  forall stations : list (Station F), covers stations (initStats stations).
Proof.
  intros stations st Hin.
  apply (initStats_fold stations [] (Forall_nil _)). left. exact Hin.
Qed.

Lemma zeroed_balanced : forall e : StationStats F, zeroed e -> balanced e.
Proof. intros e (Hp & Hd & Ht & Hn). unfold balanced. lia. Qed.

(** What one [pickups++; total++; net++] does. *)
Lemma countPickup_spec :
  forall (stations : list (Station F)) m address,
    covers stations m ->
    Forall balanced (JsMap.values m) ->
    let m' := countPickup m (Resolver.findStationByName address stations) in
    covers stations m'
    /\ Forall balanced (JsMap.values m')
    /\ sumBy pickups (JsMap.values m')
       = sumBy pickups (JsMap.values m)
         + (if resolves stations address then 1 else 0)
    /\ sumBy dropoffs (JsMap.values m') = sumBy dropoffs (JsMap.values m).
Proof.
  intros stations m address Hc Hb. unfold resolves.
  destruct (Resolver.findStationByName address stations) as [s |] eqn:R; simpl.
  - pose proof (Hc s (findStationByName_In _ _ _ R)) as Hdef.
    destruct (JsMap.get String.eqb (id s) m) as [stats |] eqn:G;
      [| contradiction].
    pose proof (get_Forall String.eqb _ _ _ _ G Hb) as [Ht Hn].
    split; [| split; [| split]].
    + intros st Hin.
      apply (get_set_defined String.eqb string_eqb_spec), Hc, Hin.
    + apply Forall_values_set; [exact Hb |]. unfold balanced. simpl. lia.
    + rewrite sumBy_values_set, G. simpl. lia.
    + rewrite sumBy_values_set, G. simpl. lia.
  - repeat split; try assumption; lia.
Qed.

(** What one [dropoffs++; total++; net--] does. *)
Lemma countDropoff_spec :
  forall (stations : list (Station F)) m address,
    covers stations m ->
    Forall balanced (JsMap.values m) ->
    let m' := countDropoff m (Resolver.findStationByName address stations) in
    covers stations m'
    /\ Forall balanced (JsMap.values m')
    /\ sumBy pickups (JsMap.values m') = sumBy pickups (JsMap.values m)
    /\ sumBy dropoffs (JsMap.values m')
       = sumBy dropoffs (JsMap.values m)
         + (if resolves stations address then 1 else 0).
Proof.
  intros stations m address Hc Hb. unfold resolves.
  destruct (Resolver.findStationByName address stations) as [s |] eqn:R; simpl.
  - pose proof (Hc s (findStationByName_In _ _ _ R)) as Hdef.
    destruct (JsMap.get String.eqb (id s) m) as [stats |] eqn:G;
      [| contradiction].
    pose proof (get_Forall String.eqb _ _ _ _ G Hb) as [Ht Hn].
    split; [| split; [| split]].
    + intros st Hin.
      apply (get_set_defined String.eqb string_eqb_spec), Hc, Hin.
    + apply Forall_values_set; [exact Hb |]. unfold balanced. simpl. lia.
    + rewrite sumBy_values_set, G. simpl. lia.
    + rewrite sumBy_values_set, G. simpl. lia.
  - repeat split; try assumption; lia.
Qed.

Lemma fold_rideStep_spec :
  forall (stations : list (Station F)) rides m,
    covers stations m ->
    Forall balanced (JsMap.values m) ->
    let m' := fold_left (rideStep stations) rides m in
    Forall balanced (JsMap.values m')
    /\ sumBy pickups (JsMap.values m')
       = sumBy pickups (JsMap.values m)
         + countIf (fun r => resolves stations (startAddress r)) rides
    /\ sumBy dropoffs (JsMap.values m')
       = sumBy dropoffs (JsMap.values m)
         + countIf (fun r => resolves stations (endAddress r)) rides.
Proof.
  intros stations rides. induction rides as [| r rides IH]; intros m Hc Hb.
  - simpl. unfold countIf. simpl. repeat split; try assumption; lia.
  - cbn [fold_left]. cbv zeta.
    change (rideStep stations m r)
      with (countDropoff
              (countPickup m
                 (Resolver.findStationByName (startAddress r) stations))
              (Resolver.findStationByName (endAddress r) stations)).
    destruct (countPickup_spec stations m (startAddress r) Hc Hb)
      as (Hc1 & Hb1 & Hp1 & Hd1).
    destruct (countDropoff_spec stations _ (endAddress r) Hc1 Hb1)
      as (Hc2 & Hb2 & Hp2 & Hd2).
    destruct (IH _ Hc2 Hb2) as (Hb3 & Hp3 & Hd3).
    split; [exact Hb3 |].
    rewrite !countIf_cons. split.
    + rewrite Hp3, Hp2, Hp1. lia.
    + rewrite Hd3, Hd2, Hd1. lia.
Qed.

(** C2: the pickups add up to the number of rides whose start address
    resolves, the dropoffs to the number of rides whose end address
    resolves, and every entry has [total = pickups + dropoffs] and
    [net = pickups - dropoffs]. *)
Theorem station_count_conservation :
  forall (rides : list Ride) (stations : list (Station F)),
    sumBy pickups (stationStats rides stations)
    = countIf (fun r => resolves stations (startAddress r)) rides
    /\ sumBy dropoffs (stationStats rides stations)
       = countIf (fun r => resolves stations (endAddress r)) rides
    /\ Forall (fun e => total e = pickups e + dropoffs e
                        /\ net e = pickups e - dropoffs e)
              (stationStats rides stations).
Proof.
  intros rides stations. unfold stationStats.
  pose proof (initStats_zeroed stations) as Hz.
  destruct (fold_rideStep_spec stations rides (initStats stations)
              (initStats_covers stations)
              (Forall_impl _ zeroed_balanced Hz))
    as (Hb & Hp & Hd).
  rewrite Hp, Hd.
  rewrite (sumBy_zero pickups), (sumBy_zero dropoffs).
  - repeat split; try lia. exact Hb.
  - eapply Forall_impl; [| exact Hz]. intros e He. apply He.
  - eapply Forall_impl; [| exact Hz]. intros e He. apply He.
Qed.

End StationFacts.

(** ** Geodesic distance *)

Section Haversine.
#[local] Open Scope R_scope.

(** The haversine term [a] of the formula, on the reals. *)
Lemma haversine_term_symmetric :
  forall lat1 lon1 lat2 lon2 : R,
    sin ((lat2 - lat1) * PI / 180 / 2) * sin ((lat2 - lat1) * PI / 180 / 2)
    + cos (lat1 * PI / 180) * cos (lat2 * PI / 180)
      * sin ((lon2 - lon1) * PI / 180 / 2) * sin ((lon2 - lon1) * PI / 180 / 2)
    = sin ((lat1 - lat2) * PI / 180 / 2) * sin ((lat1 - lat2) * PI / 180 / 2)
      + cos (lat2 * PI / 180) * cos (lat1 * PI / 180)
        * sin ((lon1 - lon2) * PI / 180 / 2) * sin ((lon1 - lon2) * PI / 180 / 2).
Proof.
  intros lat1 lon1 lat2 lon2.
  replace ((lat1 - lat2) * PI / 180 / 2) with (- ((lat2 - lat1) * PI / 180 / 2))
    by field.
  replace ((lon1 - lon2) * PI / 180 / 2) with (- ((lon2 - lon1) * PI / 180 / 2))
    by field.
  rewrite !sin_neg. ring.
Qed.

Lemma Ratan2_0_1 : Ratan2 0 1 = 0.
Proof.
  unfold Ratan2. destruct (Rlt_dec 0 1) as [_ | H]; [| exfalso; lra].
  replace (0 / 1) with 0 by field. exact atan_0.
Qed.

Lemma calculateDistance_real_symmetric_and_zero :
  forall lat1 lon1 lat2 lon2 : R,
    calculateDistance lat1 lon1 lat2 lon2 = calculateDistance lat2 lon2 lat1 lon1
    /\ calculateDistance lat1 lon1 lat1 lon1 = 0.
Proof.
  intros lat1 lon1 lat2 lon2. unfold calculateDistance. cbn. split.
  - rewrite (haversine_term_symmetric lat1 lon1 lat2 lon2). reflexivity.
  - replace ((lat1 - lat1) * PI / 180 / 2) with 0 by field.
    replace ((lon1 - lon1) * PI / 180 / 2) with 0 by field.
    rewrite sin_0.
    replace (0 * 0 + cos (lat1 * PI / 180) * cos (lat1 * PI / 180) * 0 * 0)
      with 0 by ring.
    rewrite Rminus_0_r, sqrt_0, sqrt_1, Ratan2_0_1. ring.
Qed.

End Haversine.

(** *** The formula in binary64 *)

(** Rounding to nearest does not look at the sign: the operations commute
    with the change of sign. *)

Lemma binary_round_aux_opp :
  forall s m e l,
    binary_round_aux prec emax (negb s) m e l
    = SFopp (binary_round_aux prec emax s m e l).
Proof.
  intros s m e l. unfold binary_round_aux.
  destruct (shr_fexp prec emax m e l) as [mrs' e'].
  destruct (shr_fexp prec emax _ e' loc_Exact) as [mrs'' e''].
  destruct (shr_m mrs''); [reflexivity | | reflexivity].
  destruct (e'' <=? emax - prec); reflexivity.
Qed.

Lemma binary_round_opp :
  forall s m e,
    binary_round prec emax (negb s) m e = SFopp (binary_round prec emax s m e).
Proof.
  intros s m e. unfold binary_round.
  destruct (shl_align m e _) as [mz ez]. apply binary_round_aux_opp.
Qed.

Lemma SFopp_involutive : forall x, SFopp (SFopp x) = x.
Proof. intros [s | s | | s m e]; cbn; rewrite ?negb_involutive; reflexivity. Qed.

Lemma SFmul_opp_l :
  forall x y, SFmul prec emax (SFopp x) y = SFopp (SFmul prec emax x y).
Proof.
  intros [sx | sx | | sx mx ex] [sy | sy | | sy my ey]; cbn [SFmul SFopp];
    try reflexivity;
    try (destruct sx, sy; reflexivity).
  replace (xorb (negb sx) sy) with (negb (xorb sx sy))
    by (destruct sx, sy; reflexivity).
  apply binary_round_aux_opp.
Qed.

Lemma SFmul_comm : forall x y, SFmul prec emax x y = SFmul prec emax y x.
Proof.
  intros [sx | sx | | sx mx ex] [sy | sy | | sy my ey]; cbn [SFmul];
    try reflexivity;
    try (destruct sx, sy; reflexivity).
  rewrite (xorb_comm sx sy), (Pos.mul_comm mx my), (Z.add_comm ex ey). reflexivity.
Qed.

Lemma SFdiv_opp_l :
  forall x y, SFdiv prec emax (SFopp x) y = SFopp (SFdiv prec emax x y).
Proof.
  intros [sx | sx | | sx mx ex] [sy | sy | | sy my ey]; cbn [SFdiv SFopp];
    try reflexivity;
    try (destruct sx, sy; reflexivity).
  destruct (SFdiv_core_binary prec emax (Z.pos mx) ex (Z.pos my) ey) as [[mz ez] lz].
  replace (xorb (negb sx) sy) with (negb (xorb sx sy))
    by (destruct sx, sy; reflexivity).
  apply binary_round_aux_opp.
Qed.

(** [y - x] is the opposite of [x - y], unless both are [+0]. *)
Lemma SFsub_swap :
  forall x y,
    SFsub prec emax y x = SFopp (SFsub prec emax x y)
    \/ (SFsub prec emax x y = S754_zero false
        /\ SFsub prec emax y x = S754_zero false).
Proof.
  intros [sx | sx | | sx mx ex] [sy | sy | | sy my ey]; cbn [SFsub SFopp];
    try (left; reflexivity);
    try (destruct sx, sy; cbn; auto; fail).
  rewrite (Z.min_comm ey ex).
  set (a := cond_Zopp sx (Z.pos (fst (shl_align mx ex (Z.min ex ey))))).
  set (b := cond_Zopp sy (Z.pos (fst (shl_align my ey (Z.min ex ey))))).
  replace (b - a) with (- (a - b)) by lia.
  destruct (a - b) as [| p | p]; cbn [Z.opp binary_normalize].
  - right. split; reflexivity.
  - left. apply (binary_round_opp false).
  - left. rewrite (binary_round_opp false). rewrite SFopp_involutive. reflexivity.
Qed.

Lemma SFeqb_refl_opp :
  forall x, SFeqb (SFopp x) (SFopp x) = SFeqb x x.
Proof.
  intros [s | s | | s m e]; try reflexivity; [destruct s; reflexivity |].
  unfold SFeqb, SFcompare, SFopp.
  destruct s; cbn [negb]; rewrite Z.compare_refl, Pos.compare_cont_refl; reflexivity.
Qed.

Section Binary64.
#[local] Open Scope float_scope.

Lemma float_mul_opp_l : forall x y : float, (- x) * y = - (x * y).
Proof.
  intros x y. apply Prim2SF_inj.
  rewrite mul_spec, !opp_spec, mul_spec. apply SFmul_opp_l.
Qed.

Lemma float_mul_comm : forall x y : float, x * y = y * x.
Proof.
  intros x y. apply Prim2SF_inj. rewrite !mul_spec. apply SFmul_comm.
Qed.

Lemma float_mul_opp_r : forall x y : float, x * (- y) = - (x * y).
Proof.
  intros x y. rewrite (float_mul_comm x (- y)), float_mul_opp_l, (float_mul_comm y x).
  reflexivity.
Qed.

Lemma float_opp_involutive : forall x : float, - (- x) = x.
Proof.
  intros x. apply Prim2SF_inj. rewrite !opp_spec. apply SFopp_involutive.
Qed.

Lemma float_div_opp_l : forall x y : float, (- x) / y = - (x / y).
Proof.
  intros x y. apply Prim2SF_inj.
  rewrite div_spec, !opp_spec, div_spec. apply SFdiv_opp_l.
Qed.

Lemma float_sub_swap :
  forall x y : float, y - x = - (x - y) \/ (x - y = 0 /\ y - x = 0).
Proof.
  intros x y.
  destruct (SFsub_swap (Prim2SF x) (Prim2SF y)) as [H | [H1 H2]].
  - left. apply Prim2SF_inj. rewrite opp_spec, !sub_spec. exact H.
  - right. split; apply Prim2SF_inj; rewrite sub_spec; [exact H1 | exact H2].
Qed.

Lemma is_nan_opp : forall x : float, PrimFloat.is_nan (- x) = PrimFloat.is_nan x.
Proof.
  intros x. unfold PrimFloat.is_nan. rewrite !FloatAxioms.eqb_spec, opp_spec.
  rewrite SFeqb_refl_opp. reflexivity.
Qed.

Lemma is_infinity_opp :
  forall x : float, PrimFloat.is_infinity (- x) = PrimFloat.is_infinity x.
Proof.
  intros x. unfold PrimFloat.is_infinity.
  rewrite !FloatAxioms.eqb_spec, !abs_spec, opp_spec.
  destruct (Prim2SF x); reflexivity.
Qed.

Lemma eqb_zero_opp : forall x : float, (- x =? 0) = (x =? 0).
Proof.
  intros x. rewrite !FloatAxioms.eqb_spec, opp_spec.
  change (Prim2SF 0) with (S754_zero false).
  destruct (Prim2SF x) as [s | s | | s m e]; try reflexivity; destruct s; reflexivity.
Qed.

(** A finite number is a zero or has a mantissa and an exponent. *)
Lemma is_finite_cases :
  forall x : float,
    PrimFloat.is_finite x = true ->
    (exists s, Prim2SF x = S754_zero s)
    \/ (exists s m e, Prim2SF x = S754_finite s m e).
Proof.
  intros x H. unfold PrimFloat.is_finite in H.
  apply negb_true_iff, orb_false_iff in H.
  destruct H as [Hnan Hinf].
  unfold PrimFloat.is_nan in Hnan. unfold PrimFloat.is_infinity in Hinf.
  rewrite FloatAxioms.eqb_spec in Hnan.
  rewrite FloatAxioms.eqb_spec, abs_spec in Hinf.
  change (Prim2SF infinity) with (S754_infinity false) in Hinf.
  destruct (Prim2SF x) as [s | s | | s m e].
  - left. exists s. reflexivity.
  - discriminate Hinf.
  - discriminate Hnan.
  - right. exists s, m, e. reflexivity.
Qed.

Lemma float_sub_diag : forall x : float, PrimFloat.is_finite x = true -> x - x = 0.
Proof.
  intros x H. apply Prim2SF_inj. rewrite sub_spec.
  change (Prim2SF 0) with (S754_zero false).
  destruct (is_finite_cases x H) as [(s & ->) | (s & m & e & ->)].
  - destruct s; reflexivity.
  - unfold SF64sub, SFsub. rewrite Z.sub_diag. reflexivity.
Qed.

(** A finite number times zero, times zero, added to zero, is zero. *)
Lemma float_zero_products :
  forall z : float, PrimFloat.is_finite z = true -> 0 * 0 + z * 0 * 0 = 0.
Proof.
  intros z H. apply Prim2SF_inj. rewrite add_spec, !mul_spec.
  change (Prim2SF 0) with (S754_zero false).
  destruct (is_finite_cases z H) as [(s & ->) | (s & m & e & ->)];
    destruct s; reflexivity.
Qed.

Section Host.
Variables hostSin hostCos : float -> float.
Variable hostAtan2 : float -> float -> float.

Let ops := Binary64Ops hostSin hostCos hostAtan2.

Lemma Math_sin_odd :
  (forall x, hostSin (- x) = - hostSin x) ->
  forall x, @Math_sin float ops (- x) = - @Math_sin float ops x.
Proof.
  intros hostSin_odd x. cbn [Math_sin ops Binary64Ops].
  rewrite is_nan_opp, is_infinity_opp, eqb_zero_opp.
  destruct (PrimFloat.is_nan x || PrimFloat.is_infinity x)%bool; [reflexivity |].
  destruct (x =? 0); [reflexivity | apply hostSin_odd].
Qed.

(** The sine of half an angle given in degrees, squared, is the same for
    [y - x] as for [x - y]. *)
Lemma half_angle_sine_swap :
  (forall x, hostSin (- x) = - hostSin x) ->
  forall (x y p q r z : float),
    let h := fun u => @Math_sin float ops (u * p / q / r) in
    h (y - x) * h (y - x) = h (x - y) * h (x - y)
    /\ z * h (y - x) * h (y - x) = z * h (x - y) * h (x - y).
Proof.
  intros hostSin_odd x y p q r z h.
  destruct (float_sub_swap x y) as [E | [E1 E2]].
  - assert (Hh : h (y - x) = - h (x - y)).
    { unfold h. rewrite E, float_mul_opp_l, !float_div_opp_l.
      apply Math_sin_odd. exact hostSin_odd. }
    rewrite Hh. split.
    + rewrite float_mul_opp_l, float_mul_opp_r, float_opp_involutive. reflexivity.
    + rewrite !float_mul_opp_r, float_mul_opp_l, float_opp_involutive.
      reflexivity.
  - rewrite E1, E2. split; reflexivity.
Qed.

Lemma calculateDistance_binary64_symmetric :
  (forall x, hostSin (- x) = - hostSin x) ->
  forall lat1 lon1 lat2 lon2 : float,
    @calculateDistance float ops lat1 lon1 lat2 lon2
    = @calculateDistance float ops lat2 lon2 lat1 lon1.
Proof.
  intros hostSin_odd lat1 lon1 lat2 lon2. unfold calculateDistance. cbv zeta.
  change (@fmul float ops) with PrimFloat.mul.
  change (@fdiv float ops) with PrimFloat.div.
  change (@fsub float ops) with PrimFloat.sub.
  change (@fadd float ops) with PrimFloat.add.
  set (p := @Math_PI float ops).
  set (q := @ofZ float ops 180).
  set (r := @ofZ float ops 2).
  set (c1 := @Math_cos float ops (lat1 * p / q)).
  set (c2 := @Math_cos float ops (lat2 * p / q)).
  destruct (half_angle_sine_swap hostSin_odd lat1 lat2 p q r 0) as [Hlat _].
  destruct (half_angle_sine_swap hostSin_odd lon1 lon2 p q r (c1 * c2)) as [_ Hlon].
  cbv zeta in Hlat, Hlon.
  rewrite Hlat, Hlon, (float_mul_comm c2 c1). reflexivity.
Qed.

Lemma calculateDistance_binary64_diagonal :
  forall lat lon : float,
    PrimFloat.is_finite lat = true ->
    PrimFloat.is_finite lon = true ->
    (let c := @Math_cos float ops (lat * @Math_PI float ops / @ofZ float ops 180) in
     PrimFloat.is_finite (c * c) = true) ->
    @calculateDistance float ops lat lon lat lon = 0.
Proof.
  intros lat lon Hlat Hlon Hc. cbv zeta in Hc.
  unfold calculateDistance. cbv zeta.
  change (@fmul float ops) with PrimFloat.mul.
  change (@fdiv float ops) with PrimFloat.div.
  change (@fsub float ops) with PrimFloat.sub.
  change (@fadd float ops) with PrimFloat.add.
  rewrite (float_sub_diag lat Hlat), (float_sub_diag lon Hlon).
  set (c := @Math_cos float ops (lat * @Math_PI float ops / @ofZ float ops 180)) in *.
  assert (Hs : @Math_sin float ops (0 * @Math_PI float ops / @ofZ float ops 180
                                    / @ofZ float ops 2) = 0)
    by (vm_compute; reflexivity).
  rewrite Hs, (float_zero_products (c * c) Hc).
  vm_compute. reflexivity.
Qed.

End Host.
End Binary64.

(** C9, as amended.  Computed on the real numbers, the haversine distance
    with Earth radius 6371 km is symmetric in its two points and zero
    from a point to itself, for all coordinates.  Computed in binary64, as
    the code runs, on a host whose sine is odd the distance from a to b
    and the distance from b to a are the same value for all coordinates
    (the same number, or [NaN] both), and the distance from a point to
    itself is 0 when its coordinates are finite and the cosine of its
    latitude has a finite square. *)
Theorem calculateDistance_symmetric_and_zero_on_diagonal :
  (forall lat1 lon1 lat2 lon2 : R,
      calculateDistance lat1 lon1 lat2 lon2 = calculateDistance lat2 lon2 lat1 lon1
      /\ calculateDistance lat1 lon1 lat1 lon1 = 0%R)
  /\ (forall (hostSin hostCos : float -> float) (hostAtan2 : float -> float -> float),
        let host := Binary64Ops hostSin hostCos hostAtan2 in
        ((forall x, hostSin (- x)%float = (- hostSin x)%float) ->
         forall lat1 lon1 lat2 lon2 : float,
           @calculateDistance float host lat1 lon1 lat2 lon2
           = @calculateDistance float host lat2 lon2 lat1 lon1)
        /\ (forall lat lon : float,
              PrimFloat.is_finite lat = true ->
              PrimFloat.is_finite lon = true ->
              (let c := @Math_cos float host
                          (lat * @Math_PI float host / @ofZ float host 180)%float in
               PrimFloat.is_finite (c * c)%float = true) ->
              @calculateDistance float host lat lon lat lon = 0%float)).
Proof.
  split.
  - exact calculateDistance_real_symmetric_and_zero.
  - intros hostSin hostCos hostAtan2 host. split.
    + intros Hodd. apply calculateDistance_binary64_symmetric. exact Hodd.
    + apply calculateDistance_binary64_diagonal.
Qed.

(** In binary64, on the stand-in host, the distance from a point of
    London (51.5, -0.125) to itself is 0, and the distances between it
    and the origin are the same in both directions. *)
Lemma calculateDistance_symmetric_and_zero_on_diagonal_witness :
  @calculateDistance float SampleBinary64 51.5%float (-0.125)%float
                     51.5%float (-0.125)%float = 0%float
  /\ @calculateDistance float SampleBinary64 51.5%float (-0.125)%float 0%float 0%float
     = @calculateDistance float SampleBinary64 0%float 0%float 51.5%float (-0.125)%float.
Proof.
  destruct (calculateDistance_symmetric_and_zero_on_diagonal)
    as [_ Hfloat].
  destruct (Hfloat (fun x => x) (fun _ => 1%float) (fun y _ => y)) as [Hsym Hdiag].
  split.
  - apply Hdiag; vm_compute; reflexivity.
  - apply Hsym. intros x. reflexivity.
Defined.

(** C9, as stated: in binary64, the arithmetic of the running code, the
    distance from a point to itself is not 0 for every finite
    coordinate.  At the finite latitude 6e307 the product with
    [Math.PI] overflows to infinity, the cosine of infinity is [NaN], and
    the distance computed is [NaN], on every host; [NaN] is equal to
    nothing, itself included, so neither [distance(a, a) == 0] nor
    [distance(a, b) == distance(b, a)] holds there. *)
Lemma calculateDistance_binary64_nan_on_the_diagonal :
  exists lat : float,
    lat = 0x1.55c576d815726p+1022%float
    /\ PrimFloat.is_finite lat = true
    /\ PrimFloat.is_infinity (PrimFloat.mul lat 0x1.921fb54442d18p+1%float) = true
    /\ forall hostSin hostCos hostAtan2,
         let d := @calculateDistance float (Binary64Ops hostSin hostCos hostAtan2)
                    lat 0%float lat 0%float in
         PrimFloat.is_nan d = true
         /\ PrimFloat.eqb d 0%float = false
         /\ PrimFloat.eqb d d = false.
Proof.
  exists 0x1.55c576d815726p+1022%float.
  split; [reflexivity |].
  split; [vm_compute; reflexivity |].
  split; [vm_compute; reflexivity |].
  intros hostSin hostCos hostAtan2. vm_compute. repeat split.
Qed.

(** ** Monetary statistics *)

Section PriceFacts.
Import StatsCards.







End PriceFacts.



(** ** Duration histogram *)

Section HistogramFacts.
Import JourneyTimeHistogram.

Lemma fold_min_spec :
  forall ds d0,
    In (fold_left Z.min ds d0) (d0 :: ds)
    /\ forall d, In d (d0 :: ds) -> fold_left Z.min ds d0 <= d.
Proof.
  induction ds as [| x ds IH]; intros d0; simpl.
  - split; [left; reflexivity |]. intros d [H | []]. lia.
  - destruct (IH (Z.min d0 x)) as [Hin Hle]. split.
    + destruct Hin as [H | H]; [| right; right; exact H].
      destruct (Z.min_spec d0 x) as [[_ E] | [_ E]];
        [left | right; left]; congruence.
    + intros d [H | [H | H]].
      * specialize (Hle (Z.min d0 x) (or_introl eq_refl)). lia.
      * specialize (Hle (Z.min d0 x) (or_introl eq_refl)). lia.
      * apply Hle. right. exact H.
Qed.

Lemma fold_max_spec :
  forall ds d0,
    In (fold_left Z.max ds d0) (d0 :: ds)
    /\ forall d, In d (d0 :: ds) -> d <= fold_left Z.max ds d0.
Proof.
  induction ds as [| x ds IH]; intros d0; simpl.
  - split; [left; reflexivity |]. intros d [H | []]. lia.
  - destruct (IH (Z.max d0 x)) as [Hin Hle]. split.
    + destruct Hin as [H | H]; [| right; right; exact H].
      destruct (Z.max_spec d0 x) as [[_ E] | [_ E]];
        [right; left | left]; congruence.
    + intros d [H | [H | H]].
      * specialize (Hle (Z.max d0 x) (or_introl eq_refl)). lia.
      * specialize (Hle (Z.max d0 x) (or_introl eq_refl)). lia.
      * apply Hle. right. exact H.
Qed.

(** [inBin] holds for exactly one index, the one the source computes. *)
Lemma inBin_iff_index :
  forall lo w i d,
    0 < w -> (inBin lo w i d = true <-> i = jsFloor (d - lo) w).
Proof.
  intros lo w i d Hw. unfold inBin, binStart, jsFloor.
  rewrite andb_true_iff, Z.leb_le, Z.ltb_lt.
  pose proof (Z.div_mod (d - lo) w ltac:(lia)) as Hdm.
  pose proof (Z.mod_pos_bound (d - lo) w Hw) as Hb.
  split; intros H; nia.
Qed.

Lemma jsCeil_floor :
  forall x w,
    0 < w ->
    jsCeil x w = if x mod w =? 0 then jsFloor x w else jsFloor x w + 1.
Proof.
  intros x w Hw. unfold jsCeil, jsFloor.
  destruct (x mod w =? 0) eqn:E.
  - apply Z.eqb_eq in E.
    rewrite Z_div_zero_opp_full by first [exact E | lia]. lia.
  - apply Z.eqb_neq in E.
    rewrite Z_div_nz_opp_full by first [exact E | lia]. lia.
Qed.

Lemma bucketWidthSeconds_pos : forall bw, 0 < bucketWidthSeconds bw.
Proof. destruct bw; reflexivity. Qed.

(** The index the source computes is inside the array: the clamp
    [Math.min(binIndex, numBins - 1)] never acts. *)
Lemma binIndex_in_range :
  forall lo hi w d,
    0 < w -> lo <= d <= hi ->
    0 <= jsFloor (d - lo) w <= numBinsOf lo hi w - 1
    /\ Z.min (jsFloor (d - lo) w) (numBinsOf lo hi w - 1) = jsFloor (d - lo) w.
Proof.
  intros lo hi w d Hw Hd. unfold numBinsOf. rewrite (jsCeil_floor _ _ Hw).
  unfold jsFloor.
  assert (H0 : 0 <= (d - lo) / w) by (apply Z.div_pos; lia).
  assert (H1 : (d - lo) / w <= (hi - lo) / w) by (apply Z.div_le_mono; lia).
  destruct ((hi - lo) mod w =? 0); lia.
Qed.

Lemma incrNth_length :
  forall k bins, List.length (incrNth k bins) = List.length bins.
Proof.
  induction k as [| k IH]; intros [| x bins]; simpl; auto.
Qed.

Lemma incrNth_nth :
  forall k bins i,
    (k < List.length bins)%nat ->
    nth i (incrNth k bins) 0 = nth i bins 0 + (if (i =? k)%nat then 1 else 0).
Proof.
  induction k as [| k IH]; intros [| x bins] i Hk; simpl in Hk; try lia.
  - destruct i; simpl; lia.
  - destruct i; simpl; [lia |]. apply IH. lia.
Qed.

Lemma incrNth_sum :
  forall k bins,
    (k < List.length bins)%nat ->
    sumBy (fun x => x) (incrNth k bins) = sumBy (fun x => x) bins + 1.
Proof.
  unfold sumBy.
  induction k as [| k IH]; intros [| x bins] Hk; simpl in *; try lia.
  rewrite IH by lia. lia.
Qed.

(** The counting loop, started from any array long enough. *)
Lemma fold_countStep_spec :
  forall lo hi w ds bins,
    0 < w ->
    Z.of_nat (List.length bins) = numBinsOf lo hi w ->
    (forall d, In d ds -> lo <= d <= hi) ->
    let bins' := fold_left (countStep lo w (numBinsOf lo hi w)) ds bins in
    List.length bins' = List.length bins
    /\ sumBy (fun x => x) bins'
       = sumBy (fun x => x) bins + Z.of_nat (List.length ds)
    /\ forall i,
         (i < List.length bins)%nat ->
         nth i bins' 0 = nth i bins 0 + countIf (inBin lo w (Z.of_nat i)) ds.
Proof.
  intros lo hi w ds. induction ds as [| d ds IH]; intros bins Hw Hlen Hds.
  - simpl. unfold countIf. simpl. repeat split; intros; lia.
  - cbn [fold_left]. cbv zeta.
    destruct (binIndex_in_range lo hi w d Hw (Hds d (or_introl eq_refl)))
      as [Hrange Hclamp].
    assert (Hstep : countStep lo w (numBinsOf lo hi w) bins d
                    = incrNth (Z.to_nat (jsFloor (d - lo) w)) bins).
    { unfold countStep, incrAt. rewrite Hclamp.
      destruct (jsFloor (d - lo) w <? 0) eqn:E; [| reflexivity].
      apply Z.ltb_lt in E. lia. }
    rewrite Hstep.
    assert (Hk : (Z.to_nat (jsFloor (d - lo) w) < List.length bins)%nat) by lia.
    destruct (IH (incrNth (Z.to_nat (jsFloor (d - lo) w)) bins) Hw)
      as (Hl & Hs & Hn).
    { rewrite incrNth_length. exact Hlen. }
    { intros d' Hd'. apply Hds. right. exact Hd'. }
    rewrite incrNth_length in Hl, Hn. rewrite incrNth_sum in Hs by exact Hk.
    split; [exact Hl |]. split.
    + rewrite Hs. cbn [List.length]. lia.
    + intros i Hi. rewrite (Hn i Hi), (incrNth_nth _ _ _ Hk), countIf_cons.
      destruct (inBin lo w (Z.of_nat i) d) eqn:B.
      * apply (inBin_iff_index _ _ _ _ Hw) in B.
        replace (i =? Z.to_nat (jsFloor (d - lo) w))%nat with true; [lia |].
        symmetry. apply Nat.eqb_eq. lia.
      * replace (i =? Z.to_nat (jsFloor (d - lo) w))%nat with false; [lia |].
        symmetry. apply Nat.eqb_neq. intros E.
        assert (B' : inBin lo w (Z.of_nat i) d = true)
          by (apply (inBin_iff_index _ _ _ _ Hw); lia).
        congruence.
Qed.

Lemma sumBy_repeat_zero :
  forall n, sumBy (fun x => x) (repeat 0 n) = 0.
Proof. unfold sumBy. induction n as [| n IH]; simpl; lia. Qed.

Lemma nth_repeat_zero : forall n i, nth i (repeat 0 n) 0 = 0.
Proof.
  induction n as [| n IH]; intros [| i]; simpl; auto.
Qed.

Lemma durationsSeconds_length :
  forall rides,
    Z.of_nat (List.length (durationsSeconds rides)) = countIf hasDuration rides.
Proof.
  intros rides. unfold durationsSeconds, ridesWithDuration, countIf.
  rewrite length_map. reflexivity.
Qed.

(** C6, as amended: when some ride has both timestamps, and the rides
    that have are no more than the host accepts as arguments of one call
    and their bins fit in an array, the histogram is produced; it has
    [ceil((max - min) / width) + 1] bins; bin [i] is labelled for, and
    counts exactly, the durations in [[min + i*width, min + (i+1)*width)],
    so the bins start at the minimum, advance by the width and leave no
    gap; the counts add up to the number of rides with both timestamps;
    the maximum lies in bin [floor((max - min) / width)], which is the
    last bin when [max - min] is a multiple of the width and the last but
    one otherwise. *)
Theorem duration_histogram_bins :
  forall (maxArguments : Z) (rides : list Ride) (bw : BucketWidth),
    ridesWithDuration rides <> [] ->
    countIf hasDuration rides <= maxArguments ->
    (forall lo hi,
       In lo (durationsSeconds rides) -> In hi (durationsSeconds rides) ->
       numBinsOf lo hi (bucketWidthSeconds bw) <= maxArrayLength) ->
    exists lo hi chart,
      let w := bucketWidthSeconds bw in
      let n := numBinsOf lo hi w in
      chartData maxArguments rides bw = Ret (Some chart)
      /\ (In lo (durationsSeconds rides) /\ In hi (durationsSeconds rides)
          /\ forall d, In d (durationsSeconds rides) -> lo <= d <= hi)
      /\ 1 <= n
      /\ Z.of_nat (List.length (labels chart)) = n
      /\ Z.of_nat (List.length (data chart)) = n
      /\ (forall i,
            (i < Z.to_nat n)%nat ->
            nth i (labels chart) EmptyString = binLabel bw lo (Z.of_nat i)
            /\ nth i (data chart) 0
               = countIf (inBin lo w (Z.of_nat i)) (durationsSeconds rides))
      /\ sumBy (fun x => x) (data chart) = countIf hasDuration rides
      /\ inBin lo w (jsFloor (hi - lo) w) hi = true
      /\ jsFloor (hi - lo) w
         = if (hi - lo) mod w =? 0 then n - 1 else n - 2.
Proof.
  intros maxArguments rides bw Hne Hargs Hfit.
  pose proof (bucketWidthSeconds_pos bw) as Hw.
  pose proof (durationsSeconds_length rides) as Hcount.
  unfold chartData.
  destruct (durationsSeconds rides) as [| d0 ds] eqn:Eds.
  { exfalso. apply Hne. unfold durationsSeconds in Eds.
    destruct (ridesWithDuration rides); [reflexivity | discriminate]. }
  unfold spreadCall.
  replace (Z.of_nat (List.length (d0 :: ds)) <=? maxArguments) with true
    by (symmetry; apply Z.leb_le; lia).
  cbn [bind].
  destruct (fold_min_spec ds d0) as [Hlo_in Hlo].
  destruct (fold_max_spec ds d0) as [Hhi_in Hhi].
  set (lo := fold_left Z.min ds d0) in *.
  set (hi := fold_left Z.max ds d0) in *.
  set (w := bucketWidthSeconds bw) in *.
  assert (Hlohi : lo <= hi) by (specialize (Hlo hi Hhi_in); lia).
  assert (Hn1 : 1 <= numBinsOf lo hi w).
  { destruct (binIndex_in_range lo hi w lo Hw ltac:(lia)) as [H _]. lia. }
  assert (Hn2 : numBinsOf lo hi w <= maxArrayLength) by (apply Hfit; assumption).
  exists lo, hi.
  unfold newZeroArray.
  replace ((0 <=? numBinsOf lo hi w) && (numBinsOf lo hi w <=? maxArrayLength))
    with true
    by (symmetry; apply andb_true_iff; split; apply Z.leb_le; lia).
  cbn [bind].
  eexists. cbv zeta. split; [reflexivity |]. cbn [labels data].
  destruct (fold_countStep_spec lo hi w (d0 :: ds)
              (repeat 0 (Z.to_nat (numBinsOf lo hi w))) Hw)
    as (Hl & Hs & Hnth).
  { rewrite repeat_length. lia. }
  { intros d Hd. split; [apply Hlo | apply Hhi]; exact Hd. }
  rewrite repeat_length in Hl, Hnth. rewrite sumBy_repeat_zero in Hs.
  split; [split; [exact Hlo_in | split; [exact Hhi_in |]] |].
  { intros d Hd. split; [apply Hlo | apply Hhi]; exact Hd. }
  split; [exact Hn1 |].
  split; [rewrite length_map, length_seq; lia |].
  split; [rewrite Hl; lia |].
  split.
  { intros i Hi. split.
    - rewrite (nth_indep _ EmptyString (binLabel bw lo (Z.of_nat 0)))
        by (rewrite length_map, length_seq; exact Hi).
      rewrite (map_nth (fun i => binLabel bw lo (Z.of_nat i))).
      rewrite seq_nth by exact Hi. reflexivity.
    - rewrite (Hnth i Hi), nth_repeat_zero. lia. }
  split; [rewrite Hs; lia |].
  split.
  - apply (inBin_iff_index _ _ _ _ Hw). reflexivity.
  - unfold numBinsOf. rewrite (jsCeil_floor _ _ Hw).
    destruct ((hi - lo) mod w =? 0); lia.
Qed.

End HistogramFacts.

Lemma duration_histogram_bins_witness :
  JourneyTimeHistogram.ridesWithDuration [Sample.lasting 65; Sample.lasting 125]
  <> []
  /\ exists chart,
      JourneyTimeHistogram.chartData Sample.maxArguments
        [Sample.lasting 65; Sample.lasting 125]
        JourneyTimeHistogram.W1m = Ret (Some chart)
      /\ sumBy (fun x => x) (JourneyTimeHistogram.data chart) = 2.
Proof.
  assert (Hne : JourneyTimeHistogram.ridesWithDuration
                  [Sample.lasting 65; Sample.lasting 125] <> [])
    by (vm_compute; discriminate).
  split; [exact Hne |].
  destruct (duration_histogram_bins Sample.maxArguments
              [Sample.lasting 65; Sample.lasting 125]
              JourneyTimeHistogram.W1m Hne)
    as (lo & hi & chart & Hchart & _ & _ & _ & _ & _ & Hsum & _).
  - vm_compute. discriminate.
  - intros lo hi Hlo Hhi. vm_compute in Hlo, Hhi.
    destruct Hlo as [<- | [<- | []]]; destruct Hhi as [<- | [<- | []]];
      vm_compute; discriminate.
  - exists chart. split; [exact Hchart |]. rewrite Hsum. reflexivity.
Defined.

(** C6, as stated: with durations of 65 s and 100 s and one-minute bins
    the histogram has the two bins [65, 125) and [125, 185); both rides
    are in the first, and the final bin is generated although the
    maximum, 100 s, does not fall within it.  And with one ride more than
    the host accepts as arguments of one call, all of known duration, no
    histogram is produced: the spread call throws. *)
Lemma duration_histogram_final_bin_beyond_maximum :
  JourneyTimeHistogram.chartData Sample.maxArguments
    [Sample.lasting 65; Sample.lasting 100] JourneyTimeHistogram.W1m
  = Ret (Some (JourneyTimeHistogram.mkChart ["1 min"; "2 min"] [2; 0]))
  /\ JourneyTimeHistogram.durationsSeconds [Sample.lasting 65; Sample.lasting 100]
     = [65; 100]
  /\ JourneyTimeHistogram.binStart 65 60 1 = 125
  /\ inBin 65 60 1 100 = false
  /\ JourneyTimeHistogram.chartData Sample.maxArguments
       (repeat (Sample.lasting 65) (S (Z.to_nat Sample.maxArguments)))
       JourneyTimeHistogram.W1m
     = Throw RangeError.
Proof. repeat split; vm_compute; reflexivity. Qed.

(** ** Streaks of ride days *)

Section StreakFacts.
Import StatsCards.

Lemma msPerDay_pos : 0 < msPerDay.
Proof. reflexivity. Qed.

Lemma insertSorted_In :
  forall x l y, In y (insertSorted x l) <-> y = x \/ In y l.
Proof.
  intros x l y. induction l as [| z l IH]; simpl.
  - intuition.
  - destruct (x <=? z); simpl; [intuition |]. rewrite IH. intuition.
Qed.

Lemma insertSorted_sorted :
  forall x l,
    StronglySorted Z.lt l -> ~ In x l -> StronglySorted Z.lt (insertSorted x l).
Proof.
  intros x l Hs Hx. induction Hs as [| z l Hs IH Hz]; simpl.
  - constructor; constructor.
  - destruct (x <=? z) eqn:E.
    + apply Z.leb_le in E.
      assert (Hxz : x < z) by (simpl in Hx; lia).
      constructor; [constructor; assumption |].
      constructor; [exact Hxz |].
      eapply Forall_impl; [| exact Hz]. intros a Ha. lia.
    + apply Z.leb_gt in E. constructor.
      * apply IH. simpl in Hx. tauto.
      * apply Forall_forall. intros a Ha. apply insertSorted_In in Ha.
        destruct Ha as [-> | Ha]; [exact E |].
        rewrite Forall_forall in Hz. apply Hz. exact Ha.
Qed.

(** Sorting distinct days leaves the same days, strictly increasing. *)
Lemma sortDates_spec :
  forall l,
    NoDup l ->
    StronglySorted Z.lt (sortDates l) /\ forall y, In y (sortDates l) <-> In y l.
Proof.
  induction l as [| x l IH]; intros Hnd; simpl.
  - split; [constructor | tauto].
  - inversion Hnd as [| ? ? Hx Hl]; subst.
    destruct (IH Hl) as [Hs Hin]. split.
    + apply insertSorted_sorted; [exact Hs |]. rewrite Hin. exact Hx.
    + intros y. rewrite insertSorted_In, Hin. intuition.
Qed.

Lemma insertSorted_dateOfKey :
  forall x l,
    insertSorted (dateOfKey x) (map dateOfKey l)
    = map dateOfKey (insertSorted x l).
Proof.
  intros x l. induction l as [| z l IH]; simpl; [reflexivity |].
  replace (dateOfKey x <=? dateOfKey z) with (x <=? z).
  - destruct (x <=? z); simpl; [reflexivity | rewrite IH; reflexivity].
  - unfold dateOfKey. pose proof msPerDay_pos.
    destruct (x <=? z) eqn:E; symmetry;
      [apply Z.leb_le in E; apply Z.leb_le | apply Z.leb_gt in E; apply Z.leb_gt];
      nia.
Qed.

Lemma sortDates_dateOfKey :
  forall l, sortDates (map dateOfKey l) = map dateOfKey (sortDates l).
Proof.
  induction l as [| x l IH]; simpl; [reflexivity |].
  rewrite IH. apply insertSorted_dateOfKey.
Qed.

Lemma daysDiff_dateOfKey :
  forall p c, jsFloor (dateOfKey c - dateOfKey p) msPerDay = c - p.
Proof.
  intros p c. unfold jsFloor, dateOfKey.
  replace (c * msPerDay - p * msPerDay) with ((c - p) * msPerDay) by ring.
  apply Z.div_mul. pose proof msPerDay_pos. lia.
Qed.

Lemma runIn_incl :
  forall (P Q : list Z) d n,
    (forall x, In x P -> In x Q) -> runIn P d n -> runIn Q d n.
Proof. intros P Q d n Hincl H i Hi. apply Hincl, H, Hi. Qed.

(** The loop invariant: [P] are the days seen so far, [prev] the last of
    them, [cur] the run ending at [prev] and [best] the longest run. *)
Lemma streakLoop_longest_run :
  forall rest P prev st,
    StronglySorted Z.lt (prev :: rest) ->
    (forall x, In x P -> x <= prev) ->
    In prev P ->
    1 <= currentStreak st <= longestStreakSoFar st ->
    runIn P (prev - currentStreak st + 1) (currentStreak st) ->
    ~ In (prev - currentStreak st) P ->
    (exists d, runIn P d (longestStreakSoFar st)) ->
    (forall d n, runIn P d n -> n <= longestStreakSoFar st) ->
    isLongestRun (P ++ rest)
      (longestStreakSoFar
         (streakLoop (dateOfKey prev) (map dateOfKey rest) st)).
Proof.
  induction rest as [| x rest IH];
    intros P prev st Hsorted Hmax Hprev Hcur Hrun Hstop Hbest Hall.
  - simpl. rewrite app_nil_r. split; assumption.
  - cbn [map streakLoop].
    inversion Hsorted as [| ? ? Hsorted' Hlt]; subst.
    inversion Hlt as [| ? ? Hpx _]; subst.
    replace (P ++ x :: rest)%list with ((P ++ [x]) ++ rest)%list
      by (rewrite <- app_assoc; reflexivity).
    assert (Hin' : forall y, In y (P ++ [x]) <-> In y P \/ y = x).
    { intros y. rewrite in_app_iff. simpl. intuition. }
    assert (Hold : forall d n,
               runIn (P ++ [x]) d n -> d + n - 1 < x -> runIn P d n).
    { intros d n H Hlast i Hi. specialize (H i Hi). apply Hin' in H.
      destruct H as [H | H]; [exact H | lia]. }
    assert (Hlast : forall d n, runIn (P ++ [x]) d n -> 1 <= n -> d + n - 1 <= x).
    { intros d n H Hn. specialize (H (n - 1) ltac:(lia)). apply Hin' in H.
      destruct H as [H | H]; [specialize (Hmax _ H) |]; lia. }
    apply IH; clear IH.
    + exact Hsorted'.
    + intros y Hy. apply Hin' in Hy. destruct Hy as [Hy | ->];
        [specialize (Hmax _ Hy) |]; lia.
    + apply Hin'. right. reflexivity.
    + unfold streakStep. rewrite daysDiff_dateOfKey.
      destruct (x - prev =? 1); simpl; lia.
    + unfold streakStep. rewrite daysDiff_dateOfKey.
      destruct (x - prev =? 1) eqn:E; simpl.
      * apply Z.eqb_eq in E. intros i Hi. apply Hin'.
        destruct (Z.eq_dec i (currentStreak st)) as [-> | Hne];
          [right; lia | left].
        replace (x - (currentStreak st + 1) + 1 + i)
          with (prev - currentStreak st + 1 + i) by lia.
        apply Hrun. lia.
      * intros i Hi. apply Hin'. right. lia.
    + unfold streakStep. rewrite daysDiff_dateOfKey.
      destruct (x - prev =? 1) eqn:E; simpl.
      * apply Z.eqb_eq in E. intros H. apply Hin' in H.
        destruct H as [H | H]; [| lia].
        apply Hstop. replace (prev - currentStreak st)
          with (x - (currentStreak st + 1)) by lia. exact H.
      * apply Z.eqb_neq in E. intros H. apply Hin' in H.
        destruct H as [H | H]; [specialize (Hmax _ H) |]; lia.
    + unfold streakStep. rewrite daysDiff_dateOfKey.
      destruct (x - prev =? 1) eqn:E; simpl.
      * apply Z.eqb_eq in E.
        destruct (Z.max_spec (longestStreakSoFar st) (currentStreak st + 1))
          as [[_ ->] | [_ ->]].
        -- exists (x - (currentStreak st + 1) + 1). intros i Hi. apply Hin'.
           destruct (Z.eq_dec i (currentStreak st)) as [-> | Hne];
             [right; lia | left].
           replace (x - (currentStreak st + 1) + 1 + i)
             with (prev - currentStreak st + 1 + i) by lia.
           apply Hrun. lia.
        -- destruct Hbest as [d Hd]. exists d.
           eapply runIn_incl; [| exact Hd]. intros y Hy. apply Hin'. tauto.
      * destruct Hbest as [d Hd]. exists d.
        eapply runIn_incl; [| exact Hd]. intros y Hy. apply Hin'. tauto.
    + intros d n Hdn.
      assert (Hgoal : n <= longestStreakSoFar st
                      \/ (x - prev = 1 /\ n <= currentStreak st + 1)).
      { destruct (Z_le_gt_dec n 0) as [Hn | Hn]; [left; lia |].
        pose proof (Hlast d n Hdn ltac:(lia)) as Hl.
        destruct (Z_lt_le_dec (d + n - 1) x) as [Hlt' | Hge].
        - left. apply (Hall d n). apply Hold; assumption.
        - assert (Hx : d + n - 1 = x) by lia.
          destruct (Z.eq_dec (x - prev) 1) as [E | E].
          + destruct (Z_le_gt_dec n (currentStreak st + 1)) as [Hle | Hgt];
              [right; split; assumption |].
            exfalso. apply Hstop.
            specialize (Hdn (prev - currentStreak st - d) ltac:(lia)).
            replace (d + (prev - currentStreak st - d))
              with (prev - currentStreak st) in Hdn by lia.
            apply Hin' in Hdn. destruct Hdn as [H | H]; [exact H | lia].
          + destruct (Z_le_gt_dec n 1) as [Hle | Hgt]; [left; lia |].
            exfalso. specialize (Hdn (n - 2) ltac:(lia)).
            apply Hin' in Hdn. destruct Hdn as [H | H];
              [specialize (Hmax _ H) |]; lia. }
      unfold streakStep. rewrite daysDiff_dateOfKey.
      destruct (x - prev =? 1) eqn:E; simpl.
      * destruct Hgoal as [H | [_ H]]; lia.
      * apply Z.eqb_neq in E. destruct Hgoal as [H | [H _]]; lia.
Qed.

(** From two distinct ride days on, [streakOf] is the length of the
    longest run of consecutive ride days. *)
Lemma streakOf_longest_run :
  forall days,
    NoDup days ->
    (2 <= List.length days)%nat ->
    isLongestRun days (fst (streakOf (sortDates (map dateOfKey days)))).
Proof.
  intros days Hnd Hlen. rewrite sortDates_dateOfKey.
  destruct (sortDates_spec days Hnd) as [Hsorted Hin].
  assert (Hlen' : (2 <= List.length (sortDates days))%nat).
  { clear -Hlen. revert Hlen. generalize days. clear days.
    assert (H : forall x l, List.length (insertSorted x l) = S (List.length l)).
    { intros x l. induction l as [| z l IH]; simpl; [reflexivity |].
      destruct (x <=? z); simpl; [reflexivity | rewrite IH; reflexivity]. }
    assert (H' : forall l, List.length (sortDates l) = List.length l).
    { induction l as [| x l IH]; simpl; [reflexivity |].
      rewrite H, IH. reflexivity. }
    intros days Hlen. rewrite H'. exact Hlen. }
  destruct (sortDates days) as [| first [| second rest]] eqn:E;
    simpl in Hlen'; try lia.
  cbn [map streakOf fst].
  change (dateOfKey second :: map dateOfKey rest)
    with (map dateOfKey (second :: rest)).
  assert (Hrun : isLongestRun ([first] ++ second :: rest)
                   (longestStreakSoFar
                      (streakLoop (dateOfKey first)
                         (map dateOfKey (second :: rest)) (mkStreak 1 1 None)))).
  { apply streakLoop_longest_run; simpl.
    - exact Hsorted.
    - intros x [<- | []]. lia.
    - left. reflexivity.
    - lia.
    - intros i Hi. left. lia.
    - intros [H | []]. lia.
    - exists first. intros i Hi. left. lia.
    - intros d n H. destruct (Z_le_gt_dec n 1) as [Hle | Hgt]; [exact Hle |].
      exfalso. pose proof (H 0 ltac:(lia)) as [H0 | []].
      pose proof (H 1 ltac:(lia)) as [H1 | []]. lia. }
  destruct Hrun as [[d Hd] Hall]. split.
  - exists d. intros i Hi. apply Hin. apply (Hd i Hi).
  - intros d' n H. apply (Hall d' n). intros i Hi. apply Hin. apply (H i Hi).
Qed.

(** The distinct ride days are distinct, and are the days of the rides. *)
Lemma addDay_fold_spec :
  forall rides days,
    NoDup days ->
    NoDup (fold_left addDay rides days)
    /\ forall d,
         In d (fold_left addDay rides days)
         <-> In d days \/ exists r, In r rides /\ rideDay r = Some d.
Proof.
  induction rides as [| r rides IH]; intros days Hnd; simpl.
  - split; [exact Hnd |]. intros d. split; [tauto |].
    intros [H | (r & [] & _)]. exact H.
  - assert (Hstep : NoDup (addDay days r)
                    /\ forall d, In d (addDay days r)
                                 <-> In d days \/ rideDay r = Some d).
    { unfold addDay. destruct (rideDay r) as [k |].
      - destruct (existsb (fun k' => k' =? k) days) eqn:E.
        + split; [exact Hnd |]. intros d. split; [tauto |].
          intros [H | H]; [exact H |]. inversion H; subst.
          apply existsb_exists in E. destruct E as (k' & Hk' & Heq).
          apply Z.eqb_eq in Heq. subst. exact Hk'.
        + split.
          * apply NoDup_app; [exact Hnd | constructor; [tauto | constructor] |].
            intros a Ha [Heq | []]. subst a.
            assert (existsb (fun k' => k' =? k) days = true); [| congruence].
            apply existsb_exists. exists k. split; [exact Ha | apply Z.eqb_refl].
          * intros d. rewrite in_app_iff. simpl. split.
            -- intros [H | [<- | []]]; [left; exact H | right; reflexivity].
            -- intros [H | H]; [left; exact H |]. inversion H. tauto.
      - split; [exact Hnd |]. intros d. split; [tauto |].
        intros [H | H]; [exact H | discriminate]. }
    destruct Hstep as [Hnd1 Hin1].
    destruct (IH _ Hnd1) as [Hnd2 Hin2]. split; [exact Hnd2 |].
    intros d. rewrite Hin2, Hin1. split.
    + intros [[H | H] | (r' & Hr' & E)].
      * left. exact H.
      * right. exists r. split; [left; reflexivity | exact H].
      * right. exists r'. split; [right; exact Hr' | exact E].
    + intros [H | (r' & [<- | Hr'] & E)].
      * left. left. exact H.
      * left. right. exact E.
      * right. exists r'. split; assumption.
Qed.

Lemma distinctDays_spec :
  forall rides,
    NoDup (distinctDays rides)
    /\ forall d,
         In d (distinctDays rides)
         <-> exists r, In r rides /\ rideDay r = Some d.
Proof.
  intros rides. destruct (addDay_fold_spec rides [] (NoDup_nil _)) as [Hnd Hin].
  split; [exact Hnd |]. intros d. rewrite (Hin d). simpl. tauto.
Qed.

End StreakFacts.

(** ** Summary statistics *)

Section StatsFacts.
Context {F : Type} {ops : FloatOps F}.
Import StatsCards.

Variable now : Z.
Variable localYearMonth : Z -> Z * Z.

(** [stats] fails only where [ridesByDate] does; otherwise these fields
    are the following functions of the rides. *)
Lemma stats_returns :
  forall (rides : list Ride) (stations : list (Station F)) ridesByDate,
    ridesByDateOf rides = Ret ridesByDate ->
    exists s,
      stats now localYearMonth rides stations = Ret s
      /\ longestStreak s = fst (streakOf (rideDatesOf ridesByDate))
      /\ longestBreakDays s = snd (streakOf (rideDatesOf ridesByDate))
      /\ minDurationMinutes s
         = match durationsMs rides with
           | [] => None
           | d0 :: ds => Some (jsRound (fold_left Z.min ds d0) 60000)
           end
      /\ totalSpentAmount s = totalSpentAmountOf rides
      /\ totalSpentRides s = totalSpentRidesOf rides.
Proof.
  intros rides stations ridesByDate H. unfold stats. rewrite H. cbn [bind].
  destruct (fold_left (favouriteStep stations) _ _) as [fav maxV].
  destruct (fold_left (distanceStep stations) _ _) as [[[lng lngDate] km] rds].
  destruct (fold_left mostRidesStep _ _) as [most mostDate].
  destruct (streakOf (rideDatesOf ridesByDate)) as [streak brk].
  eexists. split; [reflexivity |]. repeat split.
Qed.

Lemma stats_throws :
  forall (rides : list Ride) (stations : list (Station F)) e,
    ridesByDateOf rides = Throw e ->
    stats now localYearMonth rides stations = Throw e.
Proof.
  intros rides stations e H. unfold stats. rewrite H. cbn [bind].
  destruct (fold_left (favouriteStep stations) _ _) as [fav maxV].
  destruct (fold_left (distanceStep stations) _ _) as [[[lng lngDate] km] rds].
  reflexivity.
Qed.

Lemma keys_set :
  forall (V : Type) k (v : V) m,
    JsMap.keys (JsMap.set Z.eqb k v m)
    = if existsb (fun k' => k' =? k) (JsMap.keys m)
      then JsMap.keys m
      else (JsMap.keys m ++ [k])%list.
Proof.
  intros V k v m. unfold JsMap.keys.
  induction m as [| [k0 v0] m IH]; simpl; [reflexivity |].
  destruct (k0 =? k) eqn:E; simpl; [reflexivity |].
  rewrite IH. destruct (existsb (fun k' => k' =? k) (map fst m)); reflexivity.
Qed.

(** With every start time a valid time value, filling [ridesByDate] does
    not fail, and its keys are the distinct ride days. *)
Lemma ridesByDate_fold :
  forall rides m,
    (forall r ms, In r rides -> startTimeMs r = Some ms -> validTime ms = true) ->
    exists m',
      forEachM ridesByDateStep rides m = Ret m'
      /\ JsMap.keys m' = fold_left addDay rides (JsMap.keys m).
Proof.
  induction rides as [| r rides IH]; intros m Hvalid.
  - exists m. split; reflexivity.
  - cbn [forEachM fold_left].
    assert (Hstep : exists m1,
               ridesByDateStep m r = Ret m1
               /\ JsMap.keys m1 = addDay (JsMap.keys m) r).
    { unfold ridesByDateStep, addDay, rideDay.
      destruct (startTimeMs r) as [ms |] eqn:E; simpl.
      - unfold dateKeyOf. rewrite (Hvalid r ms (or_introl eq_refl) E).
        cbn [bind]. eexists. split; [reflexivity |]. apply keys_set.
      - exists m. split; reflexivity. }
    destruct Hstep as (m1 & Hm1 & Hk1). rewrite Hm1. cbn [bind].
    destruct (IH m1) as (m' & Hm' & Hk').
    { intros r' ms Hin. apply Hvalid. right. exact Hin. }
    exists m'. split; [exact Hm' |]. rewrite Hk', Hk1. reflexivity.
Qed.

Lemma ridesByDate_returns :
  forall rides,
    (forall r ms, In r rides -> startTimeMs r = Some ms -> validTime ms = true) ->
    exists m,
      ridesByDateOf rides = Ret m /\ JsMap.keys m = distinctDays rides.
Proof.
  intros rides Hvalid. exact (ridesByDate_fold rides [] Hvalid).
Qed.

Lemma addDay_single :
  forall rides day days,
    (forall r d, In r rides -> rideDay r = Some d -> d = day) ->
    days = [] \/ days = [day] ->
    fold_left addDay rides days = [] \/ fold_left addDay rides days = [day].
Proof.
  induction rides as [| r rides IH]; intros day days Hday Hdays; simpl.
  - exact Hdays.
  - apply IH.
    + intros r' d Hin. apply Hday. right. exact Hin.
    + unfold addDay. destruct (rideDay r) as [d |] eqn:E; [| exact Hdays].
      rewrite (Hday r d (or_introl eq_refl) E).
      destruct Hdays as [-> | ->]; simpl.
      * right. reflexivity.
      * rewrite Z.eqb_refl. simpl. right. reflexivity.
Qed.

(** C4: when all the rides with a start time fall on one UTC calendar
    day, the code reports a longest streak of 0 (not 1). *)
Theorem single_ride_day_gives_streak_zero :
  forall (rides : list Ride) (stations : list (Station F)) (day : Z),
    (exists r, In r rides /\ rideDay r = Some day) ->
    (forall r ms,
       In r rides -> startTimeMs r = Some ms ->
       validTime ms = true /\ jsFloor ms msPerDay = day) ->
    exists s,
      stats now localYearMonth rides stations = Ret s /\ longestStreak s = 0.
Proof.
  intros rides stations day _ Hday.
  destruct (ridesByDate_returns rides) as (m & Hm & Hkeys).
  { intros r ms Hin E. apply (Hday r ms Hin E). }
  destruct (stats_returns rides stations m Hm) as (s & Hs & Hstreak & _).
  exists s. split; [exact Hs |]. rewrite Hstreak.
  unfold rideDatesOf. rewrite Hkeys. unfold distinctDays.
  destruct (addDay_single rides day [])
    as [-> | ->]; [| left; reflexivity | reflexivity | reflexivity].
  intros r d Hin E. unfold rideDay in E.
  destruct (startTimeMs r) as [ms |] eqn:Ems; [| discriminate].
  simpl in E. inversion E; subst.
  exact (proj2 (Hday r ms Hin Ems)).
Qed.

(** The neighbouring case: from two distinct ride days on, the code does
    report the length of the longest run of consecutive ride days, an
    isolated day counting for 1. *)
Lemma several_ride_days_give_longest_run :
  forall (rides : list Ride) (stations : list (Station F)),
    (forall r ms, In r rides -> startTimeMs r = Some ms -> validTime ms = true) ->
    (2 <= List.length (distinctDays rides))%nat ->
    exists s,
      stats now localYearMonth rides stations = Ret s
      /\ isLongestRun (distinctDays rides) (longestStreak s)
      /\ 1 <= longestStreak s.
Proof.
  intros rides stations Hvalid Hlen.
  destruct (ridesByDate_returns rides Hvalid) as (m & Hm & Hkeys).
  destruct (stats_returns rides stations m Hm) as (s & Hs & Hstreak & _).
  exists s. split; [exact Hs |]. rewrite Hstreak.
  unfold rideDatesOf. rewrite Hkeys.
  pose proof (streakOf_longest_run (distinctDays rides)
                (proj1 (distinctDays_spec rides)) Hlen) as Hrun.
  split; [exact Hrun |].
  destruct (distinctDays rides) as [| d0 rest]; [simpl in Hlen; lia |].
  destruct Hrun as [_ Hall]. apply (Hall d0 1).
  intros i Hi. replace (d0 + i) with d0 by lia. left. reflexivity.
Qed.


Lemma jsRound_monotone :
  forall n m d, 0 < d -> n <= m -> jsRound n d <= jsRound m d.
Proof.
  intros n m d Hd Hnm. unfold jsRound. apply Z.div_le_mono; lia.
Qed.




End StatsFacts.

Lemma single_ride_day_gives_streak_zero_witness :
  exists s,
    StatsCards.stats 0 (fun _ => (1970, 0))
      [Sample.startingAt 1000; Sample.startingAt 5000] Sample.directory = Ret s
    /\ StatsCards.longestStreak s = 0.
Proof.
  apply (single_ride_day_gives_streak_zero 0 (fun _ => (1970, 0))
           [Sample.startingAt 1000; Sample.startingAt 5000] Sample.directory 0).
  - exists (Sample.startingAt 1000). split; [left; reflexivity | reflexivity].
  - intros r ms [<- | [<- | []]] E; inversion E; subst; split; reflexivity.
Defined.

(** ** Scenarios *)

(** One ten-minute ride from Station A to Station B gives one route with
    count 1 and an average of 10 minutes. *)
Example scenario_single_route :
  map (fun r => (RoutesTable.count r, RoutesTable.avgDurationMinutes r))
      (RoutesTable.routeStats [Sample.tenMinutes] Sample.directory)
  = [(1, Some 10)].
Proof. vm_compute. reflexivity. Qed.

(** Rides on two consecutive days and a third one three days later: the
    longest streak is 2 and the longest break 2 days. *)
Example scenario_streak_and_break :
  option_map
    (fun s => (StatsCards.longestStreak s, StatsCards.longestBreakDays s))
    (match StatsCards.stats 0 (fun _ => (1970, 0))
             [Sample.startingAt 1000;
              Sample.startingAt (StatsCards.msPerDay + 1000);
              Sample.startingAt (4 * StatsCards.msPerDay + 1000)]
             Sample.directory with
     | Ret s => Some s
     | Throw _ => None
     end)
  = Some (2, Some 2).
Proof. vm_compute. reflexivity. Qed.

(** Durations of 65 s and 125 s with one-minute bins: bins from 65 s on,
    one ride in each of the two. *)
Example scenario_histogram :
  JourneyTimeHistogram.chartData Sample.maxArguments
    [Sample.lasting 65; Sample.lasting 125] JourneyTimeHistogram.W1m
  = Ret (Some (JourneyTimeHistogram.mkChart ["1 min"; "2 min"] [1; 1])).
Proof. vm_compute. reflexivity. Qed.

(** A free ride is left out of the monetary totals, a ride at 1.50 is in. *)
Example scenario_prices :
  (StatsCards.totalSpentAmountOf
     [Sample.priced (Some (Sample.pound ++ "0.00"));
      Sample.priced (Some (Sample.pound ++ "1.50"))],
   StatsCards.totalSpentRidesOf
     [Sample.priced (Some (Sample.pound ++ "0.00"));
      Sample.priced (Some (Sample.pound ++ "1.50"))])
  = (1.5%float, 1).
Proof. vm_compute. reflexivity. Qed.

(** The running average is rounded at each update: rides of 1, 2 and 1
    minutes on one route leave an average of 2, where the mean of the
    three, 4/3, rounds to 1. *)
Example running_average_rounds_at_each_update :
  map RoutesTable.avgDurationMinutes
      (RoutesTable.routeStats
         [Sample.ride (Some 0) (Some 60000) (Some "Station A") (Some "Station B");
          Sample.ride (Some 0) (Some 120000) (Some "Station A") (Some "Station B");
          Sample.ride (Some 0) (Some 60000) (Some "Station A") (Some "Station B")]
         Sample.directory)
  = [Some 2]
  /\ jsRound (1 + 2 + 1) 3 = 1.
Proof. split; vm_compute; reflexivity. Qed.

(* ================================================================== *)
(** * Further properties of the engine *)

(** ** The resolver *)

Lemma startsWith_refl : forall s, startsWith s s = true.
Proof.
  induction s as [| c s IH]; simpl; [reflexivity |].
  rewrite Ascii.eqb_refl. exact IH.
Qed.

Lemma includes_refl : forall s, includes s s = true.
Proof.
  intros s. destruct s as [| c s]; simpl; [reflexivity |].
  rewrite Ascii.eqb_refl, startsWith_refl. reflexivity.
Qed.

Section ResolverMore.
Context {F : Type}.

Lemma findStationByName_empty_directory :
  forall address, Resolver.findStationByName address (@nil (Station F)) = None.
Proof.
  intros [a |]; [| reflexivity]. unfold Resolver.findStationByName.
  destruct (isEmpty a); [reflexivity |]. simpl.
  destruct (matchSixDigits (trim (toLowerCase a))); reflexivity.
Qed.

Lemma findStationByName_cards_eq :
  forall (address : option string) (stations : list (Station F)),
    Resolver.findStationByName_cards address stations
    = Resolver.findStationByName address stations.
Proof.
  intros [a |] stations; [| reflexivity].
  unfold Resolver.findStationByName_cards.
  destruct (isEmpty a) eqn:E.
  - unfold Resolver.findStationByName. rewrite E. reflexivity.
  - destruct stations as [| s stations]; simpl orb; cbv iota.
    + symmetry. apply findStationByName_empty_directory.
    + reflexivity.
Qed.

(** X1: the copy of the resolver in the statistics cards, which returns
    early on an empty directory, gives the same answer as the resolver of
    the tables on every address and every directory; on an empty directory
    both answer null. *)
Theorem resolver_copies_agree :
  forall (address : option string) (stations : list (Station F)),
    Resolver.findStationByName_cards address stations
    = Resolver.findStationByName address stations
    /\ Resolver.findStationByName address (@nil (Station F)) = None
    /\ Resolver.findStationByName_cards address (@nil (Station F)) = None.
Proof.
  intros address stations. split; [apply findStationByName_cards_eq |].
  split; [apply findStationByName_empty_directory |].
  rewrite findStationByName_cards_eq. apply findStationByName_empty_directory.
Qed.

(** X2: the resolver never invents a station: an answer is an element of
    the directory, and it is given only for a non-empty address. *)
Theorem resolver_answers_from_directory :
  forall (address : option string) (stations : list (Station F)) (s : Station F),
    Resolver.findStationByName address stations = Some s ->
    In s stations /\ exists a, address = Some a /\ isEmpty a = false.
Proof.
  intros address stations s H. split.
  - eapply findStationByName_In. exact H.
  - destruct address as [a |]; [| discriminate H].
    exists a. split; [reflexivity |].
    unfold Resolver.findStationByName in H.
    destruct (isEmpty a); [discriminate H | reflexivity].
Qed.

(** X3: an address that is the name of a station of the directory, up to
    case and surrounding white space, always resolves; the answer is the
    first station of the directory whose lowercased name contains that
    name or is contained in it, which is the station itself when no
    station before it has such a name. *)
Theorem station_name_resolves_to_first_containing_station :
  forall (a : string) (stations : list (Station F)) (s : Station F),
    isEmpty a = false ->
    In s stations ->
    trim (toLowerCase a) = toLowerCase (name s) ->
    exists answer,
      Resolver.findStationByName (Some a) stations = Some answer
      /\ find (fun st =>
                 ResolverSpec.containsEitherWay (toLowerCase (name s))
                                                (toLowerCase (name st)))
              stations = Some answer.
Proof.
  intros a stations s Hne Hin Hname.
  unfold Resolver.findStationByName. rewrite Hne, Hname. cbv zeta.
  rewrite exactMatchLoop_find. unfold ResolverSpec.bySubstring.
  destruct (find _ stations) as [answer |] eqn:E.
  - exists answer. split; reflexivity.
  - exfalso. pose proof (find_none _ _ E s Hin) as Hs. cbv beta in Hs.
    unfold ResolverSpec.containsEitherWay in Hs.
    rewrite includes_refl in Hs. discriminate Hs.
Qed.

End ResolverMore.

Lemma resolver_answers_from_directory_witness :
  In Sample.stationB Sample.directory
  /\ exists a, Some "station b" = Some a /\ isEmpty a = false.
Proof.
  apply (resolver_answers_from_directory (Some "station b") Sample.directory
           Sample.stationB).
  reflexivity.
Defined.

Lemma station_name_resolves_to_first_containing_station_witness :
  exists answer,
    Resolver.findStationByName (Some "  STATION B ") Sample.directory = Some answer
    /\ find (fun st =>
               ResolverSpec.containsEitherWay (toLowerCase (name Sample.stationB))
                                              (toLowerCase (name st)))
            Sample.directory = Some answer.
Proof.
  apply (station_name_resolves_to_first_containing_station "  STATION B "
           Sample.directory Sample.stationB).
  - reflexivity.
  - right. left. reflexivity.
  - reflexivity.
Defined.

(** ** Maps and sets with string keys *)

Lemma string_eqb_sym : forall a b, String.eqb a b = String.eqb b a.
Proof.
  intros a b. destruct (String.eqb a b) eqn:E.
  - apply String.eqb_eq in E. subst. symmetry. apply String.eqb_refl.
  - destruct (String.eqb b a) eqn:E'; [| reflexivity].
    apply String.eqb_eq in E'. subst. rewrite String.eqb_refl in E. discriminate.
Qed.

(** [map.set] keeps the keys in place and appends a new one. *)
Lemma keys_set_add :
  forall (V : Type) k (v : V) m,
    JsMap.keys (JsMap.set String.eqb k v m)
    = JsMap.add String.eqb k (JsMap.keys m).
Proof.
  intros V k v m. unfold JsMap.keys, JsMap.add.
  induction m as [| [k0 v0] m IH]; simpl; [reflexivity |].
  rewrite (string_eqb_sym k k0).
  destruct (String.eqb k0 k) eqn:E; simpl; [reflexivity |].
  rewrite IH. destruct (existsb (String.eqb k) (map fst m)); reflexivity.
Qed.

Lemma Forall_entries_set :
  forall (V : Type) (P : string * V -> Prop) k v m,
    Forall P m -> P (k, v) -> Forall P (JsMap.set String.eqb k v m).
Proof.
  intros V P k v m Hm Hv. induction Hm as [| [k0 v0] m H0 Hm IH]; simpl.
  - constructor; [exact Hv | constructor].
  - destruct (String.eqb k0 k) eqn:E.
    + apply String.eqb_eq in E. subst k0. constructor; assumption.
    + constructor; assumption.
Qed.

Lemma get_In_entries :
  forall (V : Type) k (v : V) m,
    JsMap.get String.eqb k m = Some v -> In (k, v) m.
Proof.
  intros V k v m. induction m as [| [k0 v0] m IH]; simpl; [discriminate |].
  destruct (String.eqb k0 k) eqn:E.
  - intros H. inversion H; subst. apply String.eqb_eq in E. subst. left. reflexivity.
  - intros H. right. apply IH. exact H.
Qed.

Lemma existsb_eqb_In :
  forall k (s : list string), existsb (String.eqb k) s = true <-> In k s.
Proof.
  intros k s. rewrite existsb_exists. split.
  - intros (x & Hin & E). apply String.eqb_eq in E. subst. exact Hin.
  - intros Hin. exists k. split; [exact Hin | apply String.eqb_refl].
Qed.

Lemma add_NoDup :
  forall k (s : list string), NoDup s -> NoDup (JsMap.add String.eqb k s).
Proof.
  intros k s Hs. unfold JsMap.add.
  destruct (existsb (String.eqb k) s) eqn:E; [exact Hs |].
  apply NoDup_app; [exact Hs | repeat constructor; intros [] |].
  intros a Ha [Heq | []]. subst a.
  apply existsb_eqb_In in Ha. congruence.
Qed.

Lemma add_In :
  forall k k' (s : list string),
    In k' (JsMap.add String.eqb k s) <-> k' = k \/ In k' s.
Proof.
  intros k k' s. unfold JsMap.add.
  destruct (existsb (String.eqb k) s) eqn:E.
  - apply existsb_eqb_In in E. split; [tauto |]. intros [-> | H]; assumption.
  - rewrite in_app_iff. simpl. split; [intros [H | [H | []]] | intros [H | H]]; auto.
Qed.

Lemma fold_add_NoDup :
  forall (l s : list string),
    NoDup s -> NoDup (fold_left (fun s k => JsMap.add String.eqb k s) l s).
Proof.
  induction l as [| k l IH]; intros s Hs; simpl; [exact Hs |].
  apply IH, add_NoDup, Hs.
Qed.

Lemma fold_add_In :
  forall (l s : list string) k,
    In k (fold_left (fun s k => JsMap.add String.eqb k s) l s)
    <-> In k l \/ In k s.
Proof.
  induction l as [| k0 l IH]; intros s k; simpl; [tauto |].
  rewrite IH, add_In. split; intros H; intuition auto.
Qed.

Lemma ofList_NoDup : forall l, NoDup (JsSet.ofList l).
Proof. intros l. apply fold_add_NoDup. constructor. Qed.

Lemma ofList_In : forall l k, In k (JsSet.ofList l) <-> In k l.
Proof.
  intros l k. unfold JsSet.ofList. rewrite fold_add_In. simpl. tauto.
Qed.

Lemma has_In : forall k s, JsSet.has k s = true <-> In k s.
Proof. intros k s. apply existsb_eqb_In. Qed.

(** ** The route table, entry by entry *)

Section RouteEntries.
Context {F : Type} {ops : FloatOps F}.
Import RoutesTable.

Lemma updateExisting_keeps :
  forall (existing : RouteStats F) d,
    startStation (updateExisting existing d) = startStation existing
    /\ endStation (updateExisting existing d) = endStation existing
    /\ distanceKm (updateExisting existing d) = distanceKm existing
    /\ count (updateExisting existing d) = count existing + 1.
Proof.
  intros existing [d |]; unfold updateExisting; simpl; repeat split.
Qed.

Lemma jsRound_between :
  forall n c lo hi,
    0 < c -> c * lo <= n -> n <= c * hi -> lo <= jsRound n c <= hi.
Proof.
  intros n c lo hi Hc Hlo Hhi. unfold jsRound. split.
  - apply Z.div_le_lower_bound; nia.
  - assert ((2 * n + c) / (2 * c) < hi + 1); [| lia].
    apply Z.div_lt_upper_bound; nia.
Qed.

Lemma updateExisting_brackets :
  forall (existing : RouteStats F) d,
    1 <= count existing ->
    durationsBracket existing ->
    durationsBracket (updateExisting existing d).
Proof.
  intros existing [d |] Hc Hb; unfold updateExisting, durationsBracket in *;
    cbn [minDurationMinutes avgDurationMinutes maxDurationMinutes];
    [| exact Hb].
  destruct (minDurationMinutes existing) as [lo |];
    destruct (avgDurationMinutes existing) as [avg |];
    destruct (maxDurationMinutes existing) as [hi |]; try contradiction;
    [| lia].
  cbv zeta.
  destruct (Z.ltb_spec d lo); destruct (Z.gtb_spec d hi);
    apply jsRound_between; nia.
Qed.

(** What every entry of the map satisfies. *)
Lemma routeStep_entries :
  forall (stations : list (Station F)) m ride,
    Forall (fun p => fst p = routeKeyOf (startStation (snd p)) (endStation (snd p))
                     /\ wellFormedRoute stations (snd p)
                     /\ durationsBracket (snd p)) m ->
    Forall (fun p => fst p = routeKeyOf (startStation (snd p)) (endStation (snd p))
                     /\ wellFormedRoute stations (snd p)
                     /\ durationsBracket (snd p))
           (routeStep stations m ride).
Proof.
  intros stations m ride Hm. unfold routeStep.
  destruct (Resolver.findStationByName (startAddress ride) stations) as [s |] eqn:Es;
    [| exact Hm].
  destruct (Resolver.findStationByName (endAddress ride) stations) as [e |] eqn:Ee;
    [| exact Hm].
  cbv zeta.
  destruct (JsMap.get String.eqb (routeKeyOf s e) m) as [existing |] eqn:G;
    apply Forall_entries_set; try exact Hm.
  - apply get_In_entries in G.
    rewrite Forall_forall in Hm. destruct (Hm _ G) as (Hk & Hwf & Hb).
    cbn [fst snd] in *.
    destruct (updateExisting_keeps existing (rideDurationMinutes ride))
      as (E1 & E2 & E3 & E4).
    destruct Hwf as (H1 & H2 & H3 & H4).
    split; [rewrite E1, E2; exact Hk |]. split.
    + unfold wellFormedRoute. rewrite E1, E2, E3, E4.
      repeat split; try assumption. lia.
    + apply updateExisting_brackets; assumption.
  - cbn [fst snd]. split; [reflexivity |]. split.
    + unfold wellFormedRoute. cbn.
      repeat split; try lia; eapply findStationByName_In; eassumption.
    + unfold durationsBracket. cbn.
      destruct (rideDurationMinutes ride); [lia | exact I].
Qed.

Lemma routesMap_entries :
  forall (stations : list (Station F)) rides,
    Forall (fun p => fst p = routeKeyOf (startStation (snd p)) (endStation (snd p))
                     /\ wellFormedRoute stations (snd p)
                     /\ durationsBracket (snd p))
           (routesMap rides stations).
Proof.
  intros stations rides. unfold routesMap.
  assert (H : forall m,
             Forall (fun p => fst p
                              = routeKeyOf (startStation (snd p)) (endStation (snd p))
                              /\ wellFormedRoute stations (snd p)
                              /\ durationsBracket (snd p)) m ->
             Forall (fun p => fst p
                              = routeKeyOf (startStation (snd p)) (endStation (snd p))
                              /\ wellFormedRoute stations (snd p)
                              /\ durationsBracket (snd p))
                    (fold_left (routeStep stations) rides m)).
  { induction rides as [| r rides IH]; intros m Hm; simpl; [exact Hm |].
    apply IH, routeStep_entries, Hm. }
  apply H. constructor.
Qed.

Lemma routeStep_keys :
  forall (stations : list (Station F)) m ride,
    JsMap.keys (routeStep stations m ride)
    = fold_left (fun s k => JsMap.add String.eqb k s)
                (rideRouteKey stations ride) (JsMap.keys m).
Proof.
  intros stations m ride. unfold routeStep, rideRouteKey.
  destruct (Resolver.findStationByName (startAddress ride) stations) as [s |];
    [| reflexivity].
  destruct (Resolver.findStationByName (endAddress ride) stations) as [e |];
    [| reflexivity].
  cbv zeta.
  destruct (JsMap.get String.eqb (routeKeyOf s e) m); apply keys_set_add.
Qed.

Lemma routesMap_keys :
  forall (stations : list (Station F)) rides,
    JsMap.keys (routesMap rides stations)
    = JsSet.ofList (flat_map (rideRouteKey stations) rides).
Proof.
  intros stations rides. unfold routesMap, JsSet.ofList.
  assert (H : forall m : list (string * RouteStats F),
             JsMap.keys (fold_left (routeStep stations) rides m)
             = fold_left (fun s k => JsMap.add String.eqb k s)
                         (flat_map (rideRouteKey stations) rides) (JsMap.keys m)).
  { induction rides as [| r rides IH]; intros m; simpl; [reflexivity |].
    rewrite IH, fold_left_app, routeStep_keys. reflexivity. }
  apply (H []).
Qed.

Lemma routeStats_keys :
  forall (stations : list (Station F)) rides,
    map RoutesView.getRouteKey (routeStats rides stations)
    = JsMap.keys (routesMap rides stations).
Proof.
  intros stations rides. unfold routeStats, JsMap.values, JsMap.keys.
  rewrite map_map. apply map_ext_in. intros p Hp.
  pose proof (routesMap_entries stations rides) as H.
  rewrite Forall_forall in H. destruct (H p Hp) as (Hk & _).
  rewrite Hk. reflexivity.
Qed.

(** X4: the route table has one row per distinct route, in the order in
    which the routes first occur in the rides: the keys of its rows are
    the keys of the rides with two resolved addresses, each once, in order
    of first appearance; in particular no two rows have the same key. *)
Theorem route_table_rows_are_the_distinct_routes :
  forall (rides : list Ride) (stations : list (Station F)),
    map RoutesView.getRouteKey (routeStats rides stations)
    = JsSet.ofList (flat_map (rideRouteKey stations) rides)
    /\ NoDup (map RoutesView.getRouteKey (routeStats rides stations)).
Proof.
  intros rides stations. rewrite routeStats_keys, routesMap_keys.
  split; [reflexivity | apply ofList_NoDup].
Qed.

(** X5: every row of the route table joins two stations of the
    directory, carries the distance [calculateDistance] gives between
    these two stations, and counts one ride at least. *)
Theorem route_table_rows_are_well_formed :
  forall (rides : list Ride) (stations : list (Station F)),
    Forall (wellFormedRoute stations) (routeStats rides stations).
Proof.
  intros rides stations. unfold routeStats, JsMap.values.
  apply Forall_map.
  eapply Forall_impl; [| apply routesMap_entries].
  intros p (_ & H & _). exact H.
Qed.

(** X6: in every row of the route table the minimum, average and maximum
    durations are either all missing (no ride of the route has both
    timestamps) or all present, with minimum <= average <= maximum, the
    rounding of the running average notwithstanding. *)
Theorem route_table_average_between_minimum_and_maximum :
  forall (rides : list Ride) (stations : list (Station F)),
    Forall durationsBracket (routeStats rides stations).
Proof.
  intros rides stations. unfold routeStats, JsMap.values.
  apply Forall_map.
  eapply Forall_impl; [| apply routesMap_entries].
  intros p (_ & _ & H). exact H.
Qed.

End RouteEntries.

(** ** The station table, entry by entry *)

Lemma get_Some_existsb :
  forall (V : Type) k (v : V) m,
    JsMap.get String.eqb k m = Some v ->
    existsb (String.eqb k) (JsMap.keys m) = true.
Proof.
  intros V k v m H. apply existsb_eqb_In. apply get_In_entries in H.
  unfold JsMap.keys. apply in_map_iff. exists (k, v). split; [reflexivity | exact H].
Qed.

Lemma keys_set_existing :
  forall (V : Type) k (v old : V) m,
    JsMap.get String.eqb k m = Some old ->
    JsMap.keys (JsMap.set String.eqb k v m) = JsMap.keys m.
Proof.
  intros V k v old m H. rewrite keys_set_add. unfold JsMap.add.
  rewrite (get_Some_existsb _ _ _ _ H). reflexivity.
Qed.

Lemma In_keys_get :
  forall (V : Type) k (m : list (string * V)),
    In k (JsMap.keys m) -> exists v, JsMap.get String.eqb k m = Some v.
Proof.
  intros V k m. induction m as [| [k0 v0] m IH]; simpl; [intros [] |].
  intros [H | H].
  - subst k0. rewrite String.eqb_refl. eexists. reflexivity.
  - destruct (String.eqb k0 k); [eexists; reflexivity | apply IH, H].
Qed.

Lemma In_entries_get :
  forall (V : Type) k (v : V) m,
    NoDup (JsMap.keys m) -> In (k, v) m -> JsMap.get String.eqb k m = Some v.
Proof.
  intros V k v m. induction m as [| [k0 v0] m IH]; simpl; [intros _ [] |].
  intros Hnd [H | H].
  - inversion H; subst. rewrite String.eqb_refl. reflexivity.
  - inversion Hnd as [| ? ? Hnot Hnd']; subst.
    destruct (String.eqb k0 k) eqn:E.
    + apply String.eqb_eq in E. subst k0. exfalso. apply Hnot.
      unfold JsMap.keys. apply in_map_iff. exists (k, v). split; [reflexivity | exact H].
    + apply IH; assumption.
Qed.

Lemma set_fresh :
  forall (V : Type) k (v : V) m,
    ~ In k (JsMap.keys m) -> JsMap.set String.eqb k v m = (m ++ [(k, v)])%list.
Proof.
  intros V k v m. induction m as [| [k0 v0] m IH]; simpl; [reflexivity |].
  intros Hnot. destruct (String.eqb k0 k) eqn:E.
  - apply String.eqb_eq in E. exfalso. apply Hnot. left. exact E.
  - rewrite IH; [reflexivity |]. intros H. apply Hnot. right. exact H.
Qed.

Lemma ofList_of_distinct : forall l, NoDup l -> JsSet.ofList l = l.
Proof.
  intros l Hl. unfold JsSet.ofList.
  assert (H : forall s,
             NoDup (s ++ l) ->
             fold_left (fun s k => JsMap.add String.eqb k s) l s = (s ++ l)%list).
  { clear Hl. induction l as [| k l IH]; intros s Hs; simpl.
    - rewrite app_nil_r. reflexivity.
    - unfold JsMap.add at 2.
      destruct (existsb (String.eqb k) s) eqn:E.
      + apply existsb_eqb_In in E. apply NoDup_remove_2 in Hs.
        exfalso. apply Hs. apply in_or_app. left. exact E.
      + rewrite IH; rewrite <- app_assoc; [reflexivity | exact Hs]. }
  apply (H []). exact Hl.
Qed.

Section StationEntries.
Context {F : Type}.
Import StationsTable.

Lemma countPickup_get :
  forall (m : list (string * StationStats F)) start k e,
    JsMap.get String.eqb k m = Some e ->
    exists e',
      JsMap.get String.eqb k (countPickup m start) = Some e'
      /\ station e' = station e
      /\ pickups e' = pickups e
                      + (if match start with
                            | Some s => String.eqb (id s) k
                            | None => false
                            end then 1 else 0)
      /\ dropoffs e' = dropoffs e.
Proof.
  intros m [s |] k e H; simpl.
  - destruct (String.eqb (id s) k) eqn:E.
    + apply String.eqb_eq in E. subst k. rewrite H.
      rewrite (get_set_same String.eqb string_eqb_spec).
      eexists. split; [reflexivity |]. simpl. repeat split; lia.
    + assert (Hne : id s <> k).
      { intros Heq. rewrite Heq, String.eqb_refl in E. discriminate. }
      destruct (JsMap.get String.eqb (id s) m).
      * rewrite (get_set_other String.eqb string_eqb_spec) by exact Hne.
        exists e. repeat split; [exact H | lia].
      * exists e. repeat split; [exact H | lia].
  - exists e. repeat split; [exact H | lia].
Qed.

Lemma countDropoff_get :
  forall (m : list (string * StationStats F)) finish k e,
    JsMap.get String.eqb k m = Some e ->
    exists e',
      JsMap.get String.eqb k (countDropoff m finish) = Some e'
      /\ station e' = station e
      /\ pickups e' = pickups e
      /\ dropoffs e' = dropoffs e
                       + (if match finish with
                             | Some s => String.eqb (id s) k
                             | None => false
                             end then 1 else 0).
Proof.
  intros m [s |] k e H; simpl.
  - destruct (String.eqb (id s) k) eqn:E.
    + apply String.eqb_eq in E. subst k. rewrite H.
      rewrite (get_set_same String.eqb string_eqb_spec).
      eexists. split; [reflexivity |]. simpl. repeat split; lia.
    + assert (Hne : id s <> k).
      { intros Heq. rewrite Heq, String.eqb_refl in E. discriminate. }
      destruct (JsMap.get String.eqb (id s) m).
      * rewrite (get_set_other String.eqb string_eqb_spec) by exact Hne.
        exists e. repeat split; [exact H | lia].
      * exists e. repeat split; [exact H | lia].
  - exists e. repeat split; [exact H | lia].
Qed.

Lemma fold_rideStep_get :
  forall (stations : list (Station F)) rides m k e,
    JsMap.get String.eqb k m = Some e ->
    exists e',
      JsMap.get String.eqb k (fold_left (rideStep stations) rides m) = Some e'
      /\ station e' = station e
      /\ pickups e'
         = pickups e
           + countIf (fun r => resolvesTo stations k (startAddress r)) rides
      /\ dropoffs e'
         = dropoffs e
           + countIf (fun r => resolvesTo stations k (endAddress r)) rides.
Proof.
  intros stations rides. induction rides as [| r rides IH]; intros m k e H.
  - exists e. unfold countIf. simpl. repeat split; [exact H | lia | lia].
  - cbn [fold_left].
    destruct (countPickup_get m
                (Resolver.findStationByName (startAddress r) stations) k e H)
      as (e1 & G1 & S1 & P1 & D1).
    destruct (countDropoff_get _
                (Resolver.findStationByName (endAddress r) stations) k e1 G1)
      as (e2 & G2 & S2 & P2 & D2).
    destruct (IH _ k e2 G2) as (e' & G' & S' & P' & D').
    exists e'. split; [exact G' |]. split; [congruence |].
    rewrite !countIf_cons. unfold resolvesTo at 1 3.
    split; [rewrite P', P2, P1 | rewrite D', D2, D1];
      destruct (Resolver.findStationByName _ stations); lia.
Qed.

Lemma countPickup_keys :
  forall (m : list (string * StationStats F)) start,
    JsMap.keys (countPickup m start) = JsMap.keys m.
Proof.
  intros m [s |]; simpl; [| reflexivity].
  destruct (JsMap.get String.eqb (id s) m) eqn:G; [| reflexivity].
  eapply keys_set_existing. exact G.
Qed.

Lemma countDropoff_keys :
  forall (m : list (string * StationStats F)) finish,
    JsMap.keys (countDropoff m finish) = JsMap.keys m.
Proof.
  intros m [s |]; simpl; [| reflexivity].
  destruct (JsMap.get String.eqb (id s) m) eqn:G; [| reflexivity].
  eapply keys_set_existing. exact G.
Qed.

Lemma fold_rideStep_keys :
  forall (stations : list (Station F)) rides m,
    JsMap.keys (fold_left (rideStep stations) rides m) = JsMap.keys m.
Proof.
  intros stations rides. induction rides as [| r rides IH]; intros m; simpl.
  - reflexivity.
  - rewrite IH. unfold rideStep. rewrite countDropoff_keys, countPickup_keys.
    reflexivity.
Qed.

Lemma initStats_keys :
  forall stations : list (Station F),
    JsMap.keys (initStats stations) = JsSet.ofList (map id stations).
Proof.
  intros stations. unfold initStats, JsSet.ofList.
  assert (H : forall m : list (string * StationStats F),
             JsMap.keys
               (fold_left
                  (fun statsMap station =>
                     JsMap.set String.eqb (id station)
                       (mkStationStats station 0 0 0 0) statsMap)
                  stations m)
             = fold_left (fun s k => JsMap.add String.eqb k s)
                         (map id stations) (JsMap.keys m)).
  { induction stations as [| s stations IH]; intros m; simpl; [reflexivity |].
    rewrite IH, keys_set_add. reflexivity. }
  apply (H []).
Qed.

Lemma initStats_entries :
  forall stations : list (Station F),
    Forall (fun p => fst p = id (station (snd p)) /\ zeroed (snd p))
           (initStats stations).
Proof.
  intros stations. unfold initStats.
  assert (H : forall m : list (string * StationStats F),
             Forall (fun p => fst p = id (station (snd p)) /\ zeroed (snd p)) m ->
             Forall (fun p => fst p = id (station (snd p)) /\ zeroed (snd p))
               (fold_left
                  (fun statsMap station =>
                     JsMap.set String.eqb (id station)
                       (mkStationStats station 0 0 0 0) statsMap)
                  stations m)).
  { induction stations as [| s stations IH]; intros m Hm; simpl; [exact Hm |].
    apply IH, Forall_entries_set; [exact Hm |]. simpl. repeat split. }
  apply H. constructor.
Qed.

Lemma initStats_of_distinct :
  forall stations : list (Station F),
    NoDup (map id stations) ->
    initStats stations
    = map (fun s => (id s, mkStationStats s 0 0 0 0)) stations.
Proof.
  intros stations Hnd. unfold initStats.
  assert (H : forall m : list (string * StationStats F),
             NoDup (JsMap.keys m ++ map id stations) ->
             fold_left
               (fun statsMap station =>
                  JsMap.set String.eqb (id station)
                    (mkStationStats station 0 0 0 0) statsMap)
               stations m
             = (m ++ map (fun s => (id s, mkStationStats s 0 0 0 0)) stations)%list).
  { clear Hnd. induction stations as [| s stations IH]; intros m Hm; simpl.
    - rewrite app_nil_r. reflexivity.
    - simpl in Hm. rewrite set_fresh.
      + rewrite IH.
        * rewrite <- app_assoc. reflexivity.
        * unfold JsMap.keys. rewrite map_app, <- app_assoc. exact Hm.
      + apply NoDup_remove_2 in Hm. intros Hin. apply Hm.
        apply in_or_app. left. exact Hin. }
  apply (H []). exact Hnd.
Qed.

Lemma set_same_station :
  forall k (v old : StationStats F) m,
    JsMap.get String.eqb k m = Some old ->
    station v = station old ->
    map (fun p => station (snd p)) (JsMap.set String.eqb k v m)
    = map (fun p => station (snd p)) m.
Proof.
  intros k v old m. induction m as [| [k0 v0] m IH]; simpl; [discriminate |].
  destruct (String.eqb k0 k).
  - intros H Hs. inversion H; subst. simpl. rewrite Hs. reflexivity.
  - intros H Hs. simpl. rewrite IH; auto.
Qed.

Lemma fold_rideStep_stations :
  forall (stations : list (Station F)) rides m,
    map (fun p => station (snd p)) (fold_left (rideStep stations) rides m)
    = map (fun p => station (snd p)) m.
Proof.
  intros stations rides. induction rides as [| r rides IH]; intros m; simpl.
  - reflexivity.
  - rewrite IH. unfold rideStep.
    transitivity
      (map (fun p => station (snd p))
           (countPickup m (Resolver.findStationByName (startAddress r) stations))).
    + generalize (countPickup m
                    (Resolver.findStationByName (startAddress r) stations)) as m1.
      intros m1. unfold countDropoff.
      destruct (Resolver.findStationByName (endAddress r) stations) as [e |];
        [| reflexivity].
      destruct (JsMap.get String.eqb (id e) m1) as [es |] eqn:Ge; [| reflexivity].
      apply (set_same_station _ _ _ _ Ge). reflexivity.
    + unfold countPickup.
      destruct (Resolver.findStationByName (startAddress r) stations) as [s |];
        [| reflexivity].
      destruct (JsMap.get String.eqb (id s) m) as [ss |] eqn:Gs; [| reflexivity].
      apply (set_same_station _ _ _ _ Gs). reflexivity.
Qed.

(** X7: with station ids that are pairwise distinct, the station table
    has exactly one row per station of the directory, in directory order,
    whatever the rides are. *)
Theorem station_table_follows_directory :
  forall (rides : list Ride) (stations : list (Station F)),
    NoDup (map id stations) ->
    map station (stationStats rides stations) = stations.
Proof.
  intros rides stations Hnd. unfold stationStats, JsMap.values.
  rewrite map_map, fold_rideStep_stations, (initStats_of_distinct stations Hnd).
  rewrite map_map. simpl. apply map_id.
Qed.

Lemma stationStats_rows :
  forall (rides : list Ride) (stations : list (Station F)),
    Forall (fun e =>
              pickups e
              = countIf (fun r => resolvesTo stations (id (station e))
                                             (startAddress r)) rides
              /\ dropoffs e
                 = countIf (fun r => resolvesTo stations (id (station e))
                                                (endAddress r)) rides)
           (stationStats rides stations).
Proof.
  intros rides stations. unfold stationStats, JsMap.values.
  apply Forall_map. apply Forall_forall. intros [k e'] Hin. cbn [snd].
  pose proof (fold_rideStep_keys stations rides (initStats stations)) as Hkeys.
  assert (Hnd : NoDup (JsMap.keys (fold_left (rideStep stations) rides
                                             (initStats stations)))).
  { rewrite Hkeys, initStats_keys. apply ofList_NoDup. }
  pose proof (In_entries_get _ _ _ _ Hnd Hin) as Hget.
  assert (Hk : In k (JsMap.keys (initStats stations))).
  { rewrite <- Hkeys. unfold JsMap.keys. apply in_map_iff.
    exists (k, e'). split; [reflexivity | exact Hin]. }
  destruct (In_keys_get _ _ _ Hk) as (e0 & G0).
  pose proof (initStats_entries stations) as Hinit.
  rewrite Forall_forall in Hinit.
  destruct (Hinit _ (get_In_entries _ _ _ _ G0)) as (Hid & Hp & Hd & _).
  cbn [fst snd] in Hid, Hp, Hd.
  destruct (fold_rideStep_get stations rides _ k e0 G0) as (e1 & G1 & S1 & P1 & D1).
  rewrite Hget in G1. inversion G1; subst e1.
  rewrite S1, <- Hid, P1, D1, Hp, Hd. split; lia.
Qed.

Lemma stationStats_ids :
  forall (rides : list Ride) (stations : list (Station F)),
    map (fun e => id (station e))
        (stationStats rides stations)
    = JsSet.ofList (map id stations).
Proof.
  intros rides stations. unfold stationStats, JsMap.values.
  rewrite map_map.
  rewrite <- (map_map (fun p => station (snd p)) id).
  rewrite fold_rideStep_stations, map_map, <- initStats_keys.
  unfold JsMap.keys. apply map_ext_in. intros p Hp.
  pose proof (initStats_entries stations) as H. rewrite Forall_forall in H.
  symmetry. apply (H p Hp).
Qed.

(** X8: each row of the station table counts the rides of its own
    station: its pickups are the number of rides whose start address
    resolves to a station with the id of the row, its dropoffs the number
    of rides whose end address does.  The rows stand for the distinct ids
    of the directory, in order of first appearance, also when an id occurs
    more than once in the directory. *)
Theorem station_table_counts_rides_per_station :
  forall (rides : list Ride) (stations : list (Station F)),
    Forall (fun e =>
              pickups e
              = countIf (fun r => resolvesTo stations (id (station e))
                                             (startAddress r)) rides
              /\ dropoffs e
                 = countIf (fun r => resolvesTo stations (id (station e))
                                                (endAddress r)) rides)
           (stationStats rides stations)
    /\ map (fun e => id (station e)) (stationStats rides stations)
       = JsSet.ofList (map id stations).
Proof.
  intros rides stations. split.
  - apply stationStats_rows.
  - apply stationStats_ids.
Qed.

End StationEntries.

Lemma station_table_follows_directory_witness :
  map StationsTable.station
      (StationsTable.stationStats [Sample.tenMinutes; Sample.untimed]
                                  Sample.directory)
  = Sample.directory.
Proof.
  apply (station_table_follows_directory [Sample.tenMinutes; Sample.untimed]
           Sample.directory).
  repeat constructor; simpl; intuition discriminate.
Defined.

(** ** Sorting the tables *)

Section SortFacts.
Context {A : Type}.
Variable comparefn : A -> A -> Z.

Lemma insertStable_permutation :
  forall x l, Permutation (JsArray.insertStable comparefn x l) (x :: l).
Proof.
  intros x l. induction l as [| y l IH]; simpl; [apply Permutation_refl |].
  destruct (0 <? comparefn x y); [| apply Permutation_refl].
  eapply Permutation_trans; [apply perm_skip, IH | apply perm_swap].
Qed.

Lemma sort_permutation :
  forall l, Permutation (JsArray.sort comparefn l) l.
Proof.
  induction l as [| x l IH]; simpl; [apply perm_nil |].
  eapply Permutation_trans; [apply insertStable_permutation |].
  apply perm_skip, IH.
Qed.

Section Ordered.
Variable R : A -> A -> Prop.
Hypothesis R_before : forall a b, comparefn a b <= 0 -> R a b.
Hypothesis R_after : forall a b, 0 < comparefn a b -> R b a.
Hypothesis R_trans : forall a b c, R a b -> R b c -> R a c.

Lemma insertStable_sorted :
  forall x l,
    StronglySorted R l -> StronglySorted R (JsArray.insertStable comparefn x l).
Proof.
  intros x l Hl. induction Hl as [| y l Hl IH Hy]; simpl.
  - constructor; constructor.
  - destruct (Z.ltb_spec 0 (comparefn x y)) as [Hgt | Hle].
    + constructor; [exact IH |].
      eapply Permutation_Forall;
        [apply Permutation_sym, insertStable_permutation |].
      constructor; [apply R_after, Hgt | exact Hy].
    + constructor; [constructor; assumption |].
      constructor; [apply R_before, Hle |].
      eapply Forall_impl; [| exact Hy].
      intros z Hz. eapply R_trans; [apply R_before, Hle | exact Hz].
Qed.

Lemma sort_sorted : forall l, StronglySorted R (JsArray.sort comparefn l).
Proof.
  induction l as [| x l IH]; simpl; [constructor |].
  apply insertStable_sorted, IH.
Qed.

End Ordered.

(** Stability: the elements picked by [p], which the comparator does not
    tell apart, keep their order. *)
Lemma sort_stable :
  forall (p : A -> bool),
    (forall x y, p x = true -> p y = true -> comparefn x y <= 0) ->
    forall l, filter p (JsArray.sort comparefn l) = filter p l.
Proof.
  intros p Hp.
  assert (Hins : forall x l,
             filter p (JsArray.insertStable comparefn x l) = filter p (x :: l)).
  { intros x l. induction l as [| y l IH]; [reflexivity |].
    cbn [JsArray.insertStable].
    destruct (Z.ltb_spec 0 (comparefn x y)) as [Hgt | Hle]; [| reflexivity].
    cbn [filter] in *. rewrite IH.
    destruct (p x) eqn:Ex; destruct (p y) eqn:Ey; try reflexivity.
    specialize (Hp x y Ex Ey). lia. }
  induction l as [| x l IH]; [reflexivity |].
  cbn [JsArray.sort fold_right].
  change (fold_right (JsArray.insertStable comparefn) [] l)
    with (JsArray.sort comparefn l).
  rewrite Hins. cbn [filter]. rewrite IH. reflexivity.
Qed.

End SortFacts.

Lemma sort_by_key :
  forall (A : Type) (key : A -> Z) (comparefn : A -> A -> Z) (l : list A),
    ((forall a b, comparefn a b = key a - key b) ->
     StronglySorted (fun a b => key a <= key b) (JsArray.sort comparefn l))
    /\ ((forall a b, comparefn a b = key b - key a) ->
        StronglySorted (fun a b => key a >= key b) (JsArray.sort comparefn l))
    /\ ((forall a b, comparefn a b = key a - key b
                     \/ comparefn a b = key b - key a) ->
        forall v, filter (fun r => key r =? v) (JsArray.sort comparefn l)
                  = filter (fun r => key r =? v) l).
Proof.
  intros A key comparefn l. split; [| split].
  - intros H. apply sort_sorted; intros; rewrite ?H in *; lia.
  - intros H. apply sort_sorted; intros; rewrite ?H in *; lia.
  - intros H v. apply sort_stable. intros x y Hx Hy.
    apply Z.eqb_eq in Hx, Hy. destruct (H x y) as [E | E]; rewrite E; lia.
Qed.

Section ViewFacts.
Context {F : Type} {ops : FloatOps F}.
Variable localeCompare : string -> string -> Z.

(** X9: sorting never loses, duplicates or alters a row: whatever the
    column and the direction, and whatever [localeCompare] answers, the
    rows shown by the routes table and by the stations table are a
    permutation of the rows of the aggregator. *)
Theorem sorted_tables_are_permutations :
  (forall (routeStats : list (RoutesTable.RouteStats F)) field direction,
      Permutation
        (RoutesView.sortedRoutes localeCompare routeStats field direction)
        routeStats)
  /\ (forall (stationStats : list (StationsTable.StationStats F)) field direction,
         Permutation
           (StationsView.sortedStats localeCompare stationStats field direction)
           stationStats).
Proof.
  split; intros rows field [| |];
    first [apply Permutation_refl | apply sort_permutation].
Qed.

(** X10: the numeric columns of the routes table (count and the three
    durations, a missing duration counting for 0): sorted descending the
    rows are in non-increasing order of the column, sorted ascending in
    non-decreasing order, and in either direction rows with the same
    value stay in the order the aggregator gave them. *)
Theorem routes_table_numeric_sort :
  forall (routeStats : list (RoutesTable.RouteStats F))
         (field : RoutesView.SortField) (key : RoutesTable.RouteStats F -> Z),
    routeNumericKey field = Some key ->
    StronglySorted (fun a b => key a >= key b)
      (RoutesView.sortedRoutes localeCompare routeStats field SortDesc)
    /\ StronglySorted (fun a b => key a <= key b)
         (RoutesView.sortedRoutes localeCompare routeStats field SortAsc)
    /\ forall direction v,
         filter (fun r => key r =? v)
                (RoutesView.sortedRoutes localeCompare routeStats field direction)
         = filter (fun r => key r =? v) routeStats.
Proof.
  intros rows field key Hkey.
  assert (Hasc : forall a b,
             RoutesView.compareRoutes localeCompare field SortAsc a b
             = key a - key b).
  { destruct field; inversion Hkey; subst; reflexivity. }
  assert (Hdesc : forall a b,
             RoutesView.compareRoutes localeCompare field SortDesc a b
             = key b - key a).
  { destruct field; inversion Hkey; subst; reflexivity. }
  split; [| split].
  - apply (sort_by_key _ key). exact Hdesc.
  - apply (sort_by_key _ key). exact Hasc.
  - intros [| |] v; cbn [RoutesView.sortedRoutes]; [reflexivity | |];
      apply (sort_by_key _ key); intros a b; [left; apply Hasc | right; apply Hdesc].
Qed.

(** X11: the numeric columns of the stations table (pickups, dropoffs,
    total, net) sort in the same way: non-increasing when descending,
    non-decreasing when ascending, rows with the same value in the order
    of the aggregator. *)
Theorem stations_table_numeric_sort :
  forall (stationStats : list (StationsTable.StationStats F))
         (field : StationsView.SortField) (key : StationsTable.StationStats F -> Z),
    stationNumericKey field = Some key ->
    StronglySorted (fun a b => key a >= key b)
      (StationsView.sortedStats localeCompare stationStats field SortDesc)
    /\ StronglySorted (fun a b => key a <= key b)
         (StationsView.sortedStats localeCompare stationStats field SortAsc)
    /\ forall direction v,
         filter (fun r => key r =? v)
                (StationsView.sortedStats localeCompare stationStats field direction)
         = filter (fun r => key r =? v) stationStats.
Proof.
  intros rows field key Hkey.
  assert (Hasc : forall a b,
             StationsView.compareStats localeCompare field SortAsc a b
             = key a - key b).
  { destruct field; inversion Hkey; subst; reflexivity. }
  assert (Hdesc : forall a b,
             StationsView.compareStats localeCompare field SortDesc a b
             = key b - key a).
  { destruct field; inversion Hkey; subst; reflexivity. }
  split; [| split].
  - apply (sort_by_key _ key). exact Hdesc.
  - apply (sort_by_key _ key). exact Hasc.
  - intros [| |] v; cbn [StationsView.sortedStats]; [reflexivity | |];
      apply (sort_by_key _ key); intros a b; [left; apply Hasc | right; apply Hdesc].
Qed.

End ViewFacts.

(** ** Column headers, visited rows and the selection *)

(** X12: clicking the header of the sorted column three times goes
    through descending, ascending and unsorted and comes back to where it
    started, whatever the starting direction; clicking another column
    sorts by that column, descending.  This holds for the routes table and
    for the stations table. *)
Theorem handleSort_cycles_in_three_clicks :
  (forall (field other : RoutesView.SortField) (direction : SortDirection),
      let click := handleSort RoutesView.fieldEqb in
      click (click (click (field, direction) field) field) field
      = (field, direction)
      /\ click (field, SortDesc) field = (field, SortAsc)
      /\ click (field, SortAsc) field = (field, SortNone)
      /\ (other <> field -> click (field, direction) other = (other, SortDesc)))
  /\ (forall (field other : StationsView.SortField) (direction : SortDirection),
         let click := handleSort StationsView.fieldEqb in
         click (click (click (field, direction) field) field) field
         = (field, direction)
         /\ click (field, SortDesc) field = (field, SortAsc)
         /\ click (field, SortAsc) field = (field, SortNone)
         /\ (other <> field -> click (field, direction) other = (other, SortDesc))).
Proof.
  split; intros field other direction; cbv zeta;
    (split; [destruct field, direction; reflexivity |]);
    (split; [destruct field; reflexivity |]);
    (split; [destruct field; reflexivity |]);
    intros Hne; destruct field, other, direction;
      try reflexivity; exfalso; apply Hne; reflexivity.
Qed.

Lemma sumBy_permutation :
  forall (A : Type) (f : A -> Z) l l',
    Permutation l l' -> sumBy f l = sumBy f l'.
Proof.
  intros A f l l' H. unfold sumBy.
  induction H; simpl; try lia.
Qed.

Lemma sumBy_filter :
  forall (A : Type) (f : A -> Z) (p : A -> bool) l,
    Forall (fun a => p a = false -> f a = 0) l ->
    sumBy f (filter p l) = sumBy f l.
Proof.
  intros A f p l H. unfold sumBy.
  induction H as [| a l Ha Hl IH]; simpl; [reflexivity |].
  destruct (p a) eqn:E; simpl; rewrite IH; [reflexivity |].
  rewrite (Ha eq_refl). reflexivity.
Qed.

Section VisitedRows.
Context {F : Type}.
Variable localeCompare : string -> string -> Z.
Import StationsTable.

Lemma stationStats_sums :
  forall (rides : list Ride) (stations : list (Station F)),
    sumBy pickups (stationStats rides stations)
    = countIf (fun r => resolves stations (startAddress r)) rides
    /\ sumBy dropoffs (stationStats rides stations)
       = countIf (fun r => resolves stations (endAddress r)) rides
    /\ Forall balanced (stationStats rides stations).
Proof.
  intros rides stations. unfold stationStats.
  pose proof (initStats_zeroed stations) as Hz.
  destruct (fold_rideStep_spec stations rides (initStats stations)
              (initStats_covers stations)
              (Forall_impl _ zeroed_balanced Hz))
    as (Hb & Hp & Hd).
  rewrite Hp, Hd.
  rewrite (sumBy_zero pickups), (sumBy_zero dropoffs).
  - repeat split; try lia. exact Hb.
  - eapply Forall_impl; [| exact Hz]. intros e He. apply He.
  - eapply Forall_impl; [| exact Hz]. intros e He. apply He.
Qed.

Lemma countIf_nonneg :
  forall (A : Type) (p : A -> bool) l, 0 <= countIf p l.
Proof. intros A p l. unfold countIf. lia. Qed.

(** X13: the rows the stations table shows (the sorted rows with a
    positive total) are exactly the stations some ride started or ended
    at, and hiding the other stations loses no ride: the pickups shown
    still add up to the rides with a resolved start address and the
    dropoffs shown to the rides with a resolved end address, whatever the
    sort column and direction. *)
Theorem visited_rows_keep_every_ride :
  forall (rides : list Ride) (stations : list (Station F))
         (field : StationsView.SortField) (direction : SortDirection),
    let rows :=
      StationsView.visitedStations
        (StationsView.sortedStats localeCompare (stationStats rides stations)
                                  field direction) in
    sumBy pickups rows = countIf (fun r => resolves stations (startAddress r)) rides
    /\ sumBy dropoffs rows
       = countIf (fun r => resolves stations (endAddress r)) rides
    /\ (forall e, In e rows
                  <-> In e (stationStats rides stations)
                      /\ (1 <= pickups e \/ 1 <= dropoffs e)).
Proof.
  intros rides stations field direction rows.
  destruct (stationStats_sums rides stations) as (Hp & Hd & Hb).
  pose proof (stationStats_rows rides stations) as Hrows.
  assert (Hperm : Permutation
                    (StationsView.sortedStats localeCompare
                       (stationStats rides stations) field direction)
                    (stationStats rides stations)).
  { destruct direction; first [apply Permutation_refl | apply sort_permutation]. }
  assert (Hall : Forall (fun e => total e = pickups e + dropoffs e
                                  /\ 0 <= pickups e /\ 0 <= dropoffs e)
                        (stationStats rides stations)).
  { rewrite Forall_forall in *. intros e He.
    destruct (Hb e He) as [Ht _]. destruct (Hrows e He) as [Ep Ed].
    split; [exact Ht |]. rewrite Ep, Ed. split; apply countIf_nonneg. }
  assert (Hall' := Permutation_Forall (Permutation_sym Hperm) Hall).
  unfold rows, StationsView.visitedStations.
  split; [| split].
  - rewrite sumBy_filter; [rewrite (sumBy_permutation _ _ _ _ Hperm); exact Hp |].
    eapply Forall_impl; [| exact Hall'].
    intros e (Ht & H0 & H1) Hz. rewrite Z.gtb_ltb in Hz.
    apply Z.ltb_ge in Hz. lia.
  - rewrite sumBy_filter; [rewrite (sumBy_permutation _ _ _ _ Hperm); exact Hd |].
    eapply Forall_impl; [| exact Hall'].
    intros e (Ht & H0 & H1) Hz. rewrite Z.gtb_ltb in Hz.
    apply Z.ltb_ge in Hz. lia.
  - intros e. rewrite filter_In. split.
    + intros [Hin Hpos]. apply (Permutation_in _ Hperm) in Hin.
      split; [exact Hin |]. rewrite Forall_forall in Hall.
      destruct (Hall e Hin) as (Ht & H0 & H1).
      rewrite Z.gtb_ltb in Hpos. apply Z.ltb_lt in Hpos. lia.
    + intros [Hin Hpos]. split.
      * apply (Permutation_in _ (Permutation_sym Hperm)). exact Hin.
      * rewrite Forall_forall in Hall. destruct (Hall e Hin) as (Ht & H0 & H1).
        rewrite Z.gtb_ltb. apply Z.ltb_lt. lia.
Qed.

End VisitedRows.

Section Selection.
Context {F : Type}.

Lemma has_add :
  forall k k' s,
    JsSet.has k (JsMap.add String.eqb k' s) = JsSet.has k s || String.eqb k' k.
Proof.
  intros k k' s. apply eq_true_iff_eq.
  rewrite orb_true_iff, !has_In, add_In, String.eqb_eq.
  split; intros [H | H]; auto.
Qed.

Lemma has_delete :
  forall k k' s,
    JsSet.has k (JsSet.delete k' s) = JsSet.has k s && negb (String.eqb k' k).
Proof.
  intros k k' s. apply eq_true_iff_eq.
  rewrite andb_true_iff, !has_In, negb_true_iff. unfold JsSet.delete.
  rewrite filter_In, negb_true_iff. tauto.
Qed.

Lemma filter_and :
  forall (A : Type) (p q : A -> bool) l,
    filter (fun x => p x && q x) l = filter q (filter p l).
Proof.
  intros A p q l. induction l as [| a l IH]; simpl; [reflexivity |].
  destruct (p a); simpl; [destruct (q a) |]; rewrite IH; reflexivity.
Qed.

Lemma filter_all :
  forall (A : Type) (p : A -> bool) l,
    (forall a, In a l -> p a = true) -> filter p l = l.
Proof.
  intros A p l. induction l as [| a l IH]; simpl; [reflexivity |].
  intros H. rewrite (H a (or_introl eq_refl)). rewrite IH; [reflexivity |].
  intros b Hb. apply H. right. exact Hb.
Qed.

(** X14: the selection that feeds the route map.  With the keys put in
    the set by the auto-select (or by the header checkbox), every route
    is handed to the map; with the empty set, none; unchecking a route
    removes from the map the routes with its key and no other; checking
    it adds the routes with its key and no other. *)
Theorem selection_filters_routes_by_key :
  forall (allRoutes : list (RoutesTable.RouteStats F))
         (selectedRoutes : list string) (route : RoutesTable.RouteStats F),
    RoutesView.selectedRoutesData allRoutes (RoutesView.allRouteKeys allRoutes)
    = allRoutes
    /\ RoutesView.selectedRoutesData allRoutes [] = []
    /\ RoutesView.selectedRoutesData allRoutes
         (RoutesView.handleCheckboxChange selectedRoutes route false)
       = filter (fun r => negb (String.eqb (RoutesView.getRouteKey route)
                                           (RoutesView.getRouteKey r)))
                (RoutesView.selectedRoutesData allRoutes selectedRoutes)
    /\ RoutesView.selectedRoutesData allRoutes
         (RoutesView.handleCheckboxChange selectedRoutes route true)
       = filter (fun r => JsSet.has (RoutesView.getRouteKey r) selectedRoutes
                          || String.eqb (RoutesView.getRouteKey route)
                                        (RoutesView.getRouteKey r))
                allRoutes.
Proof.
  intros allRoutes selectedRoutes route.
  unfold RoutesView.selectedRoutesData, RoutesView.handleCheckboxChange.
  split; [| split; [| split]].
  - apply filter_all. intros r Hr. apply has_In.
    unfold RoutesView.allRouteKeys. apply ofList_In. apply in_map. exact Hr.
  - induction allRoutes as [| r rs IH]; [reflexivity | exact IH].
  - rewrite <- filter_and. apply filter_ext. intros r. apply has_delete.
  - apply filter_ext. intros r. apply has_add.
Qed.

End Selection.

(** ** The route map *)

Section RouteMapFacts.
Context {F : Type}.
Import RoutesTable.

Lemma stationMap_fold :
  forall (routes : list (RouteStats F)) (m : list (string * Station F)),
    Forall (fun p => fst p = id (snd p)) m ->
    let m' :=
      fold_left
        (fun stationMap route =>
           JsMap.set String.eqb (id (endStation route)) (endStation route)
             (JsMap.set String.eqb (id (startStation route))
                (startStation route) stationMap))
        routes m in
    Forall (fun p => fst p = id (snd p)) m'
    /\ JsMap.keys m'
       = fold_left (fun s k => JsMap.add String.eqb k s)
                   (flat_map routeEndpointIds routes) (JsMap.keys m)
    /\ forall s, In s (JsMap.values m') ->
                 In s (JsMap.values m)
                 \/ exists r, In r routes /\ (s = startStation r \/ s = endStation r).
Proof.
  induction routes as [| r routes IH]; intros m Hm; cbv zeta.
  - simpl. split; [exact Hm |]. split; [reflexivity |]. intros s H. left. exact H.
  - cbn [fold_left flat_map routeEndpointIds app].
    destruct (IH (JsMap.set String.eqb (id (endStation r)) (endStation r)
                    (JsMap.set String.eqb (id (startStation r))
                       (startStation r) m)))
      as (H1 & H2 & H3).
    { repeat apply Forall_entries_set; try exact Hm; reflexivity. }
    split; [exact H1 |]. split.
    + rewrite H2, !keys_set_add. reflexivity.
    + intros s Hs. destruct (H3 s Hs) as [Hin | (r' & Hr' & Hs')].
      * assert (Hset : forall k (v : Station F) m0 x,
                   In x (JsMap.values (JsMap.set String.eqb k v m0)) ->
                   x = v \/ In x (JsMap.values m0)).
        { clear. intros k v m0 x. unfold JsMap.values.
          induction m0 as [| [k0 v0] m0 IHm]; simpl.
          - intros [H | []]. left. symmetry. exact H.
          - destruct (String.eqb k0 k); simpl.
            + intros [H | H]; [left; symmetry; exact H | right; right; exact H].
            + intros [H | H]; [right; left; exact H |].
              destruct (IHm H) as [H' | H']; [left; exact H' | right; right; exact H']. }
        apply Hset in Hin. destruct Hin as [-> | Hin].
        { right. exists r. split; [left; reflexivity | right; reflexivity]. }
        apply Hset in Hin. destruct Hin as [-> | Hin].
        { right. exists r. split; [left; reflexivity | left; reflexivity]. }
        left. exact Hin.
      * right. exists r'. split; [right; exact Hr' | exact Hs'].
Qed.

(** X15: the station markers of the route map: none without routes;
    otherwise one marker per station id occurring at either end of a
    route, no id twice, and every marker is the start or the end station
    of one of the routes. *)
Theorem route_map_shows_each_endpoint_once :
  forall routes : list (RouteStats F),
    RoutesMap.stationsToShow (@nil (RouteStats F)) = []
    /\ NoDup (map id (RoutesMap.stationsToShow routes))
    /\ (forall k, In k (map id (RoutesMap.stationsToShow routes))
                  <-> exists r, In r routes
                                /\ (k = id (startStation r) \/ k = id (endStation r)))
    /\ (forall s, In s (RoutesMap.stationsToShow routes) ->
                  exists r, In r routes /\ (s = startStation r \/ s = endStation r)).
Proof.
  intros routes. split; [reflexivity |].
  destruct routes as [| r0 routes].
  { simpl. split; [constructor |]. split.
    - intros k. split; [intros [] | intros (r & [] & _)].
    - intros s []. }
  unfold RoutesMap.stationsToShow.
  destruct (stationMap_fold (r0 :: routes) [] (Forall_nil _)) as (H1 & H2 & H3).
  cbv zeta in H1, H2, H3.
  set (m := fold_left _ (r0 :: routes) []) in *.
  assert (Hids : map id (JsMap.values m) = JsMap.keys m).
  { unfold JsMap.values, JsMap.keys. rewrite map_map. apply map_ext_in.
    intros p Hp. rewrite Forall_forall in H1. symmetry. apply H1, Hp. }
  rewrite Hids, H2. change (JsMap.keys []) with (@nil string).
  fold (JsSet.ofList (flat_map routeEndpointIds (r0 :: routes))).
  split; [apply ofList_NoDup |]. split.
  - intros k. rewrite ofList_In, in_flat_map. unfold routeEndpointIds.
    split; intros (r & Hr & Hk); exists r; (split; [exact Hr |]).
    + destruct Hk as [Hk | [Hk | []]]; [left | right]; symmetry; exact Hk.
    + destruct Hk as [-> | ->]; [left | right; left]; reflexivity.
  - intros s Hs. destruct (H3 s Hs) as [[] | H]. exact H.
Qed.

End RouteMapFacts.

Section RouteMapWidths.
#[local] Open Scope R_scope.
Import RoutesTable.

Lemma maxCount_spec :
  forall (F : Type) (r0 : RouteStats F) routes,
    (exists r, In r (r0 :: routes) /\ count r = RoutesMap.maxCount (r0 :: routes))
    /\ forall r, In r (r0 :: routes) ->
                 (count r <= RoutesMap.maxCount (r0 :: routes))%Z.
Proof.
  intros F r0 routes. unfold RoutesMap.maxCount.
  destruct (fold_max_spec (map count routes) (count r0)) as [Hin Hle].
  split.
  - change (count r0 :: map count routes) with (map count (r0 :: routes)) in Hin.
    apply in_map_iff in Hin. destruct Hin as (r & E & Hr). exists r. split; assumption.
  - intros r Hr. apply Hle.
    change (count r0 :: map count routes) with (map count (r0 :: routes)).
    apply in_map. exact Hr.
Qed.

(** X16: the width of the lines of the route map, on the reals.  For
    routes that count one ride at least, as the aggregator's do, the
    clamping never applies: a route is drawn with width
    [2 + 6 * count / maxCount], which is more than 2 and at most 8; it is 8
    exactly for the routes with the largest count, and there is such a
    route. *)
Theorem route_map_line_width :
  forall (routes : list (RouteStats R)) (route : RouteStats R),
    Forall (fun r => (1 <= count r)%Z) routes ->
    In route routes ->
    let width := RoutesMap.weight (count route) (RoutesMap.maxCount routes) in
    width = 2 + 6 * IZR (count route) / IZR (RoutesMap.maxCount routes)
    /\ 2 < width <= 8
    /\ (width = 8 <-> count route = RoutesMap.maxCount routes)
    /\ exists busiest,
         In busiest routes
         /\ RoutesMap.weight (count busiest) (RoutesMap.maxCount routes) = 8.
Proof.
  intros routes route Hpos Hin.
  destruct routes as [| r0 routes]; [contradiction |].
  destruct (maxCount_spec R r0 routes) as [(top & Htop & Etop) Hle].
  set (m := RoutesMap.maxCount (r0 :: routes)) in *.
  rewrite Forall_forall in Hpos.
  assert (Hm : (1 <= m)%Z) by (rewrite <- Etop; apply Hpos, Htop).
  clearbody m.
  assert (Hw : forall c : Z,
             (1 <= c <= m)%Z ->
             RoutesMap.weight c m = 2 + 6 * IZR c / IZR m
             /\ 2 < RoutesMap.weight c m <= 8
             /\ (RoutesMap.weight c m = 8 <-> c = m)).
  { intros c [Hc1 Hc2].
    assert (H1 : 1 <= IZR c) by (apply IZR_le in Hc1; exact Hc1).
    assert (H2 : IZR c <= IZR m) by (apply IZR_le; exact Hc2).
    assert (Hq : IZR c / IZR m * IZR m = IZR c) by (field; lra).
    assert (Hq0 : 0 < IZR c / IZR m) by (apply Rdiv_lt_0_compat; lra).
    assert (Hq1 : IZR c / IZR m <= 1) by nra.
    assert (E : RoutesMap.weight c m = 2 + IZR c / IZR m * 6).
    { unfold RoutesMap.weight, RoutesMap.Math_max, RoutesMap.Math_min. cbn.
      destruct (Rgt_dec 8 (2 + IZR c / IZR m * 6)) as [G | G];
        destruct (Rgt_dec _ 2) as [G' | G']; lra. }
    rewrite E. split; [field; lra |]. split; [lra |]. split.
    - intros H8. apply eq_IZR. nra.
    - intros ->. replace (IZR m / IZR m) with 1 by (field; lra). lra. }
  cbv zeta. destruct (Hw (count route)) as (E1 & E2 & E3).
  { split; [apply Hpos, Hin | apply Hle, Hin]. }
  split; [exact E1 |]. split; [exact E2 |]. split; [exact E3 |].
  exists top. split; [exact Htop |].
  apply (Hw (count top)); [| exact Etop].
  split; [apply Hpos, Htop | apply Hle, Htop].
Qed.

(** ** The nearest station *)

Import VisitedStationsMap.

Lemma fold_nearestStep_spec :
  forall (lat1 lon1 maxDistanceKm : R) (rest seen : list (Station R))
         (nearest : option (Station R)) (minDistance : R),
    match nearest with
    | Some s =>
        In s seen
        /\ calculateDistance lat1 lon1 (lat s) (long s) = minDistance
        /\ minDistance < maxDistanceKm
    | None => minDistance = maxDistanceKm
    end ->
    (forall s, In s seen ->
               minDistance <= calculateDistance lat1 lon1 (lat s) (long s)) ->
    match fold_left (nearestStep lat1 lon1) rest (nearest, minDistance) with
    | (Some s, _) =>
        In s (seen ++ rest)%list
        /\ calculateDistance lat1 lon1 (lat s) (long s) < maxDistanceKm
        /\ forall s', In s' (seen ++ rest)%list ->
                      calculateDistance lat1 lon1 (lat s) (long s)
                      <= calculateDistance lat1 lon1 (lat s') (long s')
    | (None, _) =>
        forall s', In s' (seen ++ rest)%list ->
                   maxDistanceKm <= calculateDistance lat1 lon1 (lat s') (long s')
    end.
Proof.
  intros lat1 lon1 maxD rest.
  induction rest as [| x rest IH]; intros seen nearest minD Hn Hall.
  - cbn [fold_left]. rewrite app_nil_r.
    destruct nearest as [s |].
    + destruct Hn as (Hin & Hd & Hlt). split; [exact Hin |].
      split; [lra |]. intros s' Hs'. rewrite Hd. apply Hall, Hs'.
    + subst minD. exact Hall.
  - cbn [fold_left].
    replace (seen ++ x :: rest)%list with ((seen ++ [x]) ++ rest)%list
      by (rewrite <- app_assoc; reflexivity).
    unfold nearestStep at 2. cbv zeta. cbn [fgtb RealOps].
    destruct (Rgt_dec minD (calculateDistance lat1 lon1 (lat x) (long x)))
      as [Hgt | Hle].
    + apply IH.
      * split; [apply in_or_app; right; left; reflexivity |].
        split; [reflexivity |].
        destruct nearest as [s |]; [destruct Hn as (_ & _ & Hlt) | subst minD]; lra.
      * intros s Hs. apply in_app_or in Hs. destruct Hs as [Hs | [<- | []]].
        -- specialize (Hall s Hs). lra.
        -- lra.
    + apply IH.
      * destruct nearest as [s |]; [| exact Hn].
        destruct Hn as (Hin & Hd & Hlt).
        split; [apply in_or_app; left; exact Hin | split; assumption].
      * intros s Hs. apply in_app_or in Hs. destruct Hs as [Hs | [<- | []]].
        -- apply Hall, Hs.
        -- lra.
Qed.

(** X17: on the reals, [findNearestStation] answers with a station of
    the list that lies strictly within the radius and is at least as near
    as every other station of the list; it answers null exactly when no
    station lies strictly within the radius. *)
Theorem nearest_station_is_nearest_within_radius :
  forall (lat1 lon1 maxDistanceKm : R) (stations : list (Station R)),
    match findNearestStation lat1 lon1 stations maxDistanceKm with
    | Some s =>
        In s stations
        /\ calculateDistance lat1 lon1 (lat s) (long s) < maxDistanceKm
        /\ forall s', In s' stations ->
                      calculateDistance lat1 lon1 (lat s) (long s)
                      <= calculateDistance lat1 lon1 (lat s') (long s')
    | None =>
        forall s', In s' stations ->
                   maxDistanceKm <= calculateDistance lat1 lon1 (lat s') (long s')
    end.
Proof.
  intros lat1 lon1 maxD stations. unfold findNearestStation.
  pose proof (fold_nearestStep_spec lat1 lon1 maxD stations [] None maxD
                eq_refl) as H.
  destruct (fold_left (nearestStep lat1 lon1) stations (None, maxD))
    as [[s |] d]; cbn [fst]; apply H; intros s0 [].
Qed.

End RouteMapWidths.

(** ** The time-of-day histogram *)

(** A counting loop that increments one element per item, or none. *)
Lemma fold_incr_spec :
  forall (A : Type) (index : A -> option nat) (step : list Z -> A -> list Z)
         (items : list A) (bins : list Z),
    (forall b a, List.length b = List.length bins ->
                 step b a = match index a with
                            | Some k => JourneyTimeHistogram.incrNth k b
                            | None => b
                            end) ->
    (forall a k, In a items -> index a = Some k -> (k < List.length bins)%nat) ->
    let bins' := fold_left step items bins in
    List.length bins' = List.length bins
    /\ sumBy (fun x => x) bins'
       = sumBy (fun x => x) bins
         + countIf (fun a => match index a with Some _ => true | None => false end)
                   items
    /\ forall i,
         nth i bins' 0
         = nth i bins 0
           + countIf (fun a => match index a with
                               | Some k => (i =? k)%nat
                               | None => false
                               end) items.
Proof.
  intros A index step items. induction items as [| a items IH];
    intros bins Hstep Hk; cbv zeta.
  - simpl. unfold countIf. simpl. repeat split; intros; lia.
  - cbn [fold_left]. rewrite (Hstep bins a eq_refl).
    assert (Hlen : List.length (match index a with
                                | Some k => JourneyTimeHistogram.incrNth k bins
                                | None => bins
                                end) = List.length bins).
    { destruct (index a); [apply incrNth_length | reflexivity]. }
    destruct (IH (match index a with
                  | Some k => JourneyTimeHistogram.incrNth k bins
                  | None => bins
                  end)) as (Hl & Hs & Hn).
    { intros b a' Hb. apply Hstep. rewrite Hb. exact Hlen. }
    { intros a' k Hin E. rewrite Hlen. apply (Hk a' k); [right; exact Hin | exact E]. }
    rewrite Hlen in Hl. split; [exact Hl |].
    rewrite !countIf_cons. split.
    + rewrite Hs. destruct (index a) as [k |] eqn:E; [| lia].
      rewrite incrNth_sum; [lia |]. apply (Hk a k); [left; reflexivity | exact E].
    + intros i. rewrite Hn. rewrite countIf_cons.
      destruct (index a) as [k |] eqn:E; [| lia].
      rewrite incrNth_nth; [| apply (Hk a k); [left; reflexivity | exact E]].
      destruct (i =? k)%nat; lia.
Qed.

Section TimePatternFacts.
Import TimePatternChart.

Variable getHours : Z -> Z.
Variable getMinutes : Z -> Z.
Hypothesis hours_range : forall ms, 0 <= getHours ms < 24.
Hypothesis minutes_range : forall ms, 0 <= getMinutes ms < 60.

Lemma numBins_exact :
  forall bw,
    jsCeil totalMinutesInDay (bucketWidthMinutes bw)
    = totalMinutesInDay / bucketWidthMinutes bw
    /\ (totalMinutesInDay / bucketWidthMinutes bw) * bucketWidthMinutes bw
       = totalMinutesInDay
    /\ 0 < bucketWidthMinutes bw.
Proof. intros []; repeat split. Qed.

(** X18: the time-of-day histogram, for a host clock with hours in
    0..23 and minutes in 0..59.  There is no chart exactly when no ride
    has a start time.  Otherwise the day is cut into 1440 / width bins,
    with as many labels; bin [i] counts the rides whose start, on the
    clock of the host, falls at a minute of the day in
    [i*width, (i+1)*width); and the counts add up to the number of rides
    whose start time is a valid date. *)
Theorem time_of_day_histogram_bins :
  forall (rides : list Ride) (bucketWidth : BucketWidth),
    let w := bucketWidthMinutes bucketWidth in
    match chartData getHours getMinutes rides bucketWidth with
    | None => forall r, In r rides -> startTimeMs r = None
    | Some chart =>
        (exists r, In r rides /\ startTimeMs r <> None)
        /\ Z.of_nat (List.length (JourneyTimeHistogram.data chart)) = 1440 / w
        /\ List.length (JourneyTimeHistogram.labels chart)
           = List.length (JourneyTimeHistogram.data chart)
        /\ sumBy (fun x => x) (JourneyTimeHistogram.data chart)
           = countIf validStart rides
        /\ forall i,
             (i < List.length (JourneyTimeHistogram.data chart))%nat ->
             nth i (JourneyTimeHistogram.data chart) 0
             = countIf (startsInBin getHours getMinutes w (Z.of_nat i)) rides
    end.
Proof.
  intros rides bucketWidth w. unfold chartData.
  set (timed := filter (fun r => match startTimeMs r with
                                 | Some _ => true
                                 | None => false
                                 end) rides).
  destruct (numBins_exact bucketWidth) as (Hceil & Hmul & Hw).
  fold w in Hceil, Hmul, Hw.
  assert (Hbins : 0 < totalMinutesInDay / w).
  { destruct bucketWidth; reflexivity. }
  destruct timed as [| r0 timed'] eqn:Etimed.
  { intros r Hr. destruct (startTimeMs r) as [ms |] eqn:E; [| reflexivity].
    exfalso. assert (Hin : In r timed).
    { unfold timed. apply filter_In. rewrite E. split; [exact Hr | reflexivity]. }
    rewrite Etimed in Hin. exact Hin. }
  rewrite <- Etimed. cbv zeta. cbn [JourneyTimeHistogram.data JourneyTimeHistogram.labels].
  fold w. rewrite Hceil.
  set (n := totalMinutesInDay / w) in *.
  set (index := fun r : Ride =>
                  match startTimeMs r with
                  | Some ms =>
                      if StatsCards.validTime ms
                      then Some (Z.to_nat (jsFloor (getHours ms * 60 + getMinutes ms) w))
                      else None
                  | None => None
                  end).
  assert (Hrange : forall ms,
             0 <= jsFloor (getHours ms * 60 + getMinutes ms) w < n).
  { intros ms. pose proof (hours_range ms). pose proof (minutes_range ms).
    unfold jsFloor. split.
    - apply Z.div_pos; lia.
    - apply Z.div_lt_upper_bound; [exact Hw |].
      unfold totalMinutesInDay in Hmul. lia. }
  destruct (fold_incr_spec Ride index (countStep getHours getMinutes w n)
              timed (repeat 0 (Z.to_nat n)))
    as (Hl & Hs & Hn).
  { intros b r _. unfold countStep, index.
    destruct (startTimeMs r) as [ms |]; [| reflexivity].
    destruct (StatsCards.validTime ms); [| reflexivity].
    cbv zeta. pose proof (Hrange ms) as Hr.
    rewrite Z.min_l by lia. unfold JourneyTimeHistogram.incrAt.
    destruct (Z.ltb_spec (jsFloor (getHours ms * 60 + getMinutes ms) w) 0);
      [lia | reflexivity]. }
  { intros r k _. unfold index.
    destruct (startTimeMs r) as [ms |]; [| discriminate].
    destruct (StatsCards.validTime ms); [| discriminate].
    intros E. inversion E; subst k. rewrite repeat_length.
    pose proof (Hrange ms). lia. }
  cbv zeta in Hl, Hs, Hn. rewrite repeat_length in Hl.
  assert (Hcount : forall p : Ride -> bool,
             (forall r, startTimeMs r = None -> p r = false) ->
             countIf p timed = countIf p rides).
  { intros p Hp. unfold countIf, timed. f_equal. f_equal.
    clear -Hp. induction rides as [| r rides IH]; [reflexivity |].
    cbn [filter]. destruct (startTimeMs r) eqn:E.
    - cbn [filter]. destruct (p r); [cbn [List.length] |]; rewrite IH; reflexivity.
    - rewrite (Hp r E). exact IH. }
  split.
  { exists r0. assert (Hin : In r0 timed) by (rewrite Etimed; left; reflexivity).
    unfold timed in Hin. apply filter_In in Hin. destruct Hin as [Hin Hst].
    split; [exact Hin |]. destruct (startTimeMs r0); [discriminate | discriminate]. }
  split; [rewrite Hl, Z2Nat.id by lia; reflexivity |].
  split; [rewrite Hl, length_map, length_seq; reflexivity |].
  split.
  - rewrite Hs, sumBy_repeat_zero, Z.add_0_l. rewrite Hcount.
    + unfold countIf. f_equal. f_equal. apply filter_ext. intros r.
      unfold index, validStart. destruct (startTimeMs r) as [ms |]; [| reflexivity].
      destruct (StatsCards.validTime ms); reflexivity.
    + intros r E. unfold index. rewrite E. reflexivity.
  - intros i Hi. rewrite Hn, nth_repeat_zero, Z.add_0_l, Hcount.
    + unfold countIf. f_equal. f_equal. apply filter_ext. intros r.
      unfold index, startsInBin. destruct (startTimeMs r) as [ms |]; [| reflexivity].
      destruct (StatsCards.validTime ms); [| reflexivity]. cbn [andb].
      pose proof (Hrange ms) as Hr. unfold jsFloor in *.
      set (t := getHours ms * 60 + getMinutes ms) in *.
      pose proof (Z.div_mod t w ltac:(lia)) as Hdm.
      pose proof (Z.mod_pos_bound t w Hw) as Hmb.
      destruct (Nat.eqb_spec i (Z.to_nat (t / w))) as [Ei | Ei].
      * symmetry. apply andb_true_iff. split; [apply Z.leb_le | apply Z.ltb_lt]; nia.
      * symmetry. apply andb_false_iff.
        destruct (Z.leb_spec (Z.of_nat i * w) t) as [H1 | H1]; [| left; reflexivity].
        right. apply Z.ltb_ge.
        destruct (Z_lt_le_dec t ((Z.of_nat i + 1) * w)) as [H2 | H2]; [| exact H2].
        exfalso. apply Ei.
        assert (t / w = Z.of_nat i); [| lia]. nia.
    + intros r E. unfold index. rewrite E. reflexivity.
Qed.

End TimePatternFacts.

(** ** The statistics cards *)

Lemma countIf_pos_iff :
  forall (A : Type) (p : A -> bool) l,
    1 <= countIf p l <-> exists x, In x l /\ p x = true.
Proof.
  intros A p l. unfold countIf. split.
  - intros H. destruct (filter p l) as [| x rest] eqn:E; [simpl in H; lia |].
    exists x. apply filter_In. rewrite E. left. reflexivity.
  - intros (x & Hin & Hp).
    assert (Hx : In x (filter p l)) by (apply filter_In; split; assumption).
    destruct (filter p l); [contradiction | simpl; lia].
Qed.

Lemma NoDup_map_filter :
  forall (A B : Type) (f : A -> B) (p : A -> bool) l,
    NoDup (map f l) -> NoDup (map f (filter p l)).
Proof.
  intros A B f p l. induction l as [| a l IH]; simpl; [auto |].
  intros H. inversion H as [| ? ? Hnot Hnd]; subst.
  destruct (p a); simpl; [| apply IH, Hnd].
  constructor; [| apply IH, Hnd].
  intros Hin. apply Hnot. apply in_map_iff in Hin.
  destruct Hin as (x & E & Hx). apply filter_In in Hx.
  apply in_map_iff. exists x. split; [exact E | apply Hx].
Qed.

Lemma sum_between :
  forall (l : list Z) lo hi a,
    (forall d, In d l -> lo <= d <= hi) ->
    a + Z.of_nat (List.length l) * lo <= fold_left Z.add l a
    <= a + Z.of_nat (List.length l) * hi.
Proof.
  induction l as [| x l IH]; intros lo hi a H.
  - simpl. lia.
  - cbn [fold_left]. specialize (IH lo hi (a + x)).
    assert (Hx := H x (or_introl eq_refl)).
    destruct IH as [I1 I2]; [intros d Hd; apply H; right; exact Hd |].
    cbn [List.length]. rewrite Nat2Z.inj_succ. nia.
Qed.

Lemma jsRound_scaled :
  forall lo n d, 0 < n -> 0 < d -> jsRound (n * lo) (n * d) = jsRound lo d.
Proof.
  intros lo n d Hn Hd. unfold jsRound.
  replace (2 * (n * lo) + n * d) with ((2 * lo + d) * n) by ring.
  replace (2 * (n * d)) with ((2 * d) * n) by ring.
  apply Z.div_mul_cancel_r; lia.
Qed.

Lemma invalid_start_dec :
  forall rides : list Ride,
    (forall r ms, In r rides -> startTimeMs r = Some ms ->
                  StatsCards.validTime ms = true)
    \/ (exists r ms, In r rides /\ startTimeMs r = Some ms
                     /\ StatsCards.validTime ms = false).
Proof.
  induction rides as [| r rides IH].
  - left. intros r ms [].
  - destruct IH as [IH | (r' & ms & Hin & E & Hv)].
    + destruct (startTimeMs r) as [ms |] eqn:E.
      * destruct (StatsCards.validTime ms) eqn:Hv.
        -- left. intros r' ms' [<- | Hin] E'; [congruence | eapply IH; eassumption].
        -- right. exists r, ms. repeat split; [left; reflexivity | exact E | exact Hv].
      * left. intros r' ms' [<- | Hin] E'; [congruence | eapply IH; eassumption].
    + right. exists r', ms. repeat split; [right; exact Hin | exact E | exact Hv].
Qed.

Lemma ridesByDate_throws :
  forall rides m,
    (exists r ms, In r rides /\ startTimeMs r = Some ms
                  /\ StatsCards.validTime ms = false) ->
    forEachM StatsCards.ridesByDateStep rides m = Throw RangeError.
Proof.
  induction rides as [| r rides IH]; intros m (r' & ms & Hin & E & Hv).
  - destruct Hin.
  - cbn [forEachM]. unfold StatsCards.ridesByDateStep at 1.
    destruct (startTimeMs r) as [ms0 |] eqn:E0.
    + unfold StatsCards.dateKeyOf.
      destruct (StatsCards.validTime ms0) eqn:Hv0; cbn [bind]; [| reflexivity].
      apply IH. destruct Hin as [<- | Hin]; [congruence |].
      exists r', ms. repeat split; assumption.
    + cbn [bind]. apply IH. destruct Hin as [<- | Hin]; [congruence |].
      exists r', ms. repeat split; assumption.
Qed.

Section CardFacts.
Context {F : Type} {ops : FloatOps F}.
Import StatsCards.

Variable now : Z.
Variable localYearMonth : Z -> Z * Z.

(** The other fields of the record, when [ridesByDate] is filled. *)
Lemma stats_fields :
  forall (rides : list Ride) (stations : list (Station F)) ridesByDate,
    ridesByDateOf rides = Ret ridesByDate ->
    exists s,
      stats now localYearMonth rides stations = Ret s
      /\ avgDurationMinutes s
         = match durationsMs rides with
           | [] => None
           | _ :: _ =>
               Some (jsRound (fold_left Z.add (durationsMs rides) 0)
                             (Z.of_nat (List.length (durationsMs rides)) * 60000))
           end
      /\ minDurationMinutes s
         = match durationsMs rides with
           | [] => None
           | d0 :: ds => Some (jsRound (fold_left Z.min ds d0) 60000)
           end
      /\ maxDurationMinutes s
         = match durationsMs rides with
           | [] => None
           | d0 :: ds => Some (jsRound (fold_left Z.max ds d0) 60000)
           end
      /\ earliestRide s
         = match flat_map (fun r => match startTimeMs r with
                                    | Some ms => [ms]
                                    | None => []
                                    end) rides with
           | [] => None
           | t0 :: ts => Some (fold_left Z.min ts t0)
           end
      /\ daysAgo s
         = option_map (fun e => jsFloor (now - e) msPerDay) (earliestRide s)
      /\ stationsVisited s
         = Z.of_nat (List.length (fold_left (visitedStep stations) rides []))
      /\ totalStations s = Z.of_nat (List.length stations)
      /\ (mostRidesInDay s, mostRidesInDayDate s)
         = fold_left mostRidesStep ridesByDate (0, None)
      /\ (longestStreak s, longestBreakDays s)
         = streakOf (rideDatesOf ridesByDate).
Proof.
  intros rides stations ridesByDate H. unfold stats. rewrite H. cbn [bind].
  destruct (fold_left (favouriteStep stations) _ _) as [fav maxV].
  destruct (fold_left (distanceStep stations) _ _) as [[[lng lngDate] km] rds].
  destruct (fold_left mostRidesStep _ _) as [most mostDate].
  destruct (streakOf (rideDatesOf ridesByDate)) as [streak brk].
  eexists. split; [reflexivity |]. repeat split.
Qed.

Lemma dateTimes_length :
  forall rides, Z.of_nat (List.length (dateTimes rides)) = countIf hasStartTime rides.
Proof.
  intros rides. unfold dateTimes, countIf.
  induction rides as [| r rides IH]; [reflexivity |].
  cbn [flat_map filter]. unfold hasStartTime at 1.
  destruct (startTimeMs r); cbn [app List.length]; lia.
Qed.

Lemma durationsMs_length :
  forall rides,
    Z.of_nat (List.length (durationsMs rides)) <= countIf hasStartTime rides.
Proof.
  intros rides. unfold durationsMs, ridesWithDuration, countIf.
  rewrite length_map.
  induction rides as [| r rides IH]; [reflexivity |].
  cbn [filter]. unfold hasDuration at 1, hasStartTime at 1.
  destruct (startTimeMs r); [destruct (endTimeMs r) |]; cbn [List.length]; lia.
Qed.

(** On a host that accepts the rides with a start time as the arguments
    of one call, the body is [stats]; on any other it throws. *)
Lemma statsOnHost_cases :
  forall maxArguments (rides : list Ride) (stations : list (Station F)),
    (countIf hasStartTime rides <= maxArguments ->
     statsOnHost now localYearMonth maxArguments rides stations
     = stats now localYearMonth rides stations)
    /\ (0 <= maxArguments ->
        maxArguments < countIf hasStartTime rides ->
        statsOnHost now localYearMonth maxArguments rides stations
        = Throw RangeError).
Proof.
  intros maxArguments rides stations.
  pose proof (dateTimes_length rides) as Hd.
  pose proof (durationsMs_length rides) as Hm.
  unfold statsOnHost, spreadCall. split; [intros H | intros H0 H].
  - destruct (durationsMs rides) as [| d0 ds].
    + cbn [bind]. destruct (dateTimes rides) as [| t0 ts]; [reflexivity |].
      replace (Z.of_nat (List.length (t0 :: ts)) <=? maxArguments) with true
        by (symmetry; apply Z.leb_le; lia).
      reflexivity.
    + replace (Z.of_nat (List.length (d0 :: ds)) <=? maxArguments) with true
        by (symmetry; apply Z.leb_le; lia).
      cbn [bind]. destruct (dateTimes rides) as [| t0 ts]; [reflexivity |].
      replace (Z.of_nat (List.length (t0 :: ts)) <=? maxArguments) with true
        by (symmetry; apply Z.leb_le; lia).
      reflexivity.
  - assert (Hthrow : forall (A : Type) (m : js Z) (k : js A),
               (earliestMs <- match dateTimes rides with
                              | [] => Ret 0
                              | t0 :: ts =>
                                  if Z.of_nat (List.length (t0 :: ts)) <=? maxArguments
                                  then Ret (fold_left Z.min ts t0)
                                  else Throw RangeError
                              end ;; k) = Throw RangeError).
    { intros A _ k. destruct (dateTimes rides) as [| t0 ts].
      - cbn [List.length] in Hd. unfold countIf in *. lia.
      - replace (Z.of_nat (List.length (t0 :: ts)) <=? maxArguments) with false
          by (symmetry; apply Z.leb_gt; lia).
        reflexivity. }
    destruct (durationsMs rides) as [| d0 ds].
    + cbn [bind]. apply (Hthrow _ (Ret 0)).
    + destruct (Z.of_nat (List.length (d0 :: ds)) <=? maxArguments);
        cbn [bind]; [apply (Hthrow _ (Ret 0)) | reflexivity].
Qed.

(** X19: on a host that accepts [maxArguments] arguments in one call the
    statistics cards fail, with a RangeError, exactly when some ride has
    a start time that is not a valid date (beyond 8.64e15 ms either side
    of the epoch) or more than [maxArguments] rides have a start time; in
    every other case they return a record, the one [stats] describes. *)
Theorem stats_fail_exactly_on_invalid_start_or_too_many_rides :
  forall (maxArguments : Z) (rides : list Ride) (stations : list (Station F)),
    0 <= maxArguments ->
    (statsOnHost now localYearMonth maxArguments rides stations = Throw RangeError
     <-> (exists r ms, In r rides /\ startTimeMs r = Some ms
                       /\ validTime ms = false)
         \/ maxArguments < countIf hasStartTime rides)
    /\ ((exists s, statsOnHost now localYearMonth maxArguments rides stations = Ret s)
        <-> (forall r ms, In r rides -> startTimeMs r = Some ms ->
                          validTime ms = true)
            /\ countIf hasStartTime rides <= maxArguments)
    /\ (forall s,
          statsOnHost now localYearMonth maxArguments rides stations = Ret s ->
          stats now localYearMonth rides stations = Ret s).
Proof.
  intros maxArguments rides stations Hhost.
  destruct (statsOnHost_cases maxArguments rides stations) as [Hin Hout].
  assert (Hbad : (exists r ms, In r rides /\ startTimeMs r = Some ms
                               /\ validTime ms = false) ->
                 stats now localYearMonth rides stations = Throw RangeError).
  { intros H. apply stats_throws. apply ridesByDate_throws. exact H. }
  assert (Hgood : (forall r ms, In r rides -> startTimeMs r = Some ms ->
                                validTime ms = true) ->
                  exists s, stats now localYearMonth rides stations = Ret s).
  { intros H. destruct (ridesByDate_returns rides H) as (m & Hm & _).
    destruct (stats_fields rides stations m Hm) as (s & Hs & _).
    exists s. exact Hs. }
  destruct (Z_le_gt_dec (countIf hasStartTime rides) maxArguments) as [Hle | Hgt].
  - specialize (Hin Hle). rewrite Hin. clear Hout.
    split; [| split].
    + split.
      * intros Hthrow. left.
        destruct (invalid_start_dec rides) as [Hall | Hex]; [| exact Hex].
        destruct (Hgood Hall) as (s & Hs). congruence.
      * intros [Hex | Hmany]; [exact (Hbad Hex) | lia].
    + split.
      * intros (s & Hs). split; [| exact Hle].
        destruct (invalid_start_dec rides) as [Hall | Hex]; [exact Hall |].
        rewrite (Hbad Hex) in Hs. discriminate.
      * intros [Hall _]. exact (Hgood Hall).
    + intros s Hs. exact Hs.
  - specialize (Hout Hhost ltac:(lia)). rewrite Hout. clear Hin.
    split; [| split].
    + split; [intros _; right; lia | reflexivity].
    + split; [intros (s & Hs); discriminate | intros [_ Hle]; lia].
    + intros s Hs. discriminate.
Qed.

(** X20: on the cards the minimum, average and maximum durations are all
    missing when no ride has both timestamps, and otherwise all present
    with minimum <= average <= maximum (in whole minutes, each rounded on
    its own). *)
Theorem card_average_between_minimum_and_maximum :
  forall (rides : list Ride) (stations : list (Station F)),
    (forall r ms, In r rides -> startTimeMs r = Some ms -> validTime ms = true) ->
    exists s,
      stats now localYearMonth rides stations = Ret s
      /\ cardDurationsBracket s
      /\ (minDurationMinutes s = None <-> filter hasDuration rides = []).
Proof.
  intros rides stations Hvalid.
  destruct (ridesByDate_returns rides Hvalid) as (m & Hm & _).
  destruct (stats_fields rides stations m Hm)
    as (s & Hs & Havg & Hmin & Hmax & _).
  exists s. split; [exact Hs |]. unfold cardDurationsBracket.
  rewrite Hmin, Havg, Hmax.
  assert (Hnil : durationsMs rides = [] <-> filter hasDuration rides = []).
  { unfold durationsMs, ridesWithDuration.
    destruct (filter hasDuration rides); simpl; split; congruence. }
  destruct (durationsMs rides) as [| d0 ds] eqn:E.
  - split; [exact I |]. split; [intros _; apply Hnil; reflexivity | reflexivity].
  - split.
    + destruct (fold_min_spec ds d0) as [_ Hlo].
      destruct (fold_max_spec ds d0) as [_ Hhi].
      set (lo := fold_left Z.min ds d0) in *.
      set (hi := fold_left Z.max ds d0) in *.
      pose proof (sum_between (d0 :: ds) lo hi 0
                    (fun d Hd => conj (Hlo d Hd) (Hhi d Hd))) as Hsum.
      set (n := Z.of_nat (List.length (d0 :: ds))) in *.
      assert (Hn : 0 < n) by (unfold n; cbn [List.length]; lia).
      rewrite <- (jsRound_scaled lo n 60000), <- (jsRound_scaled hi n 60000)
        by lia.
      split; apply jsRound_monotone; lia.
    + split; [discriminate |]. intros H. apply Hnil in H. discriminate.
Qed.

(** X21: the first ride of the cards is the earliest start time among
    the rides that have one: it is the start time of some ride and no
    ride starts before it; [daysAgo] is the number of whole days from it
    to the time of the computation; both are missing exactly when no ride
    has a start time. *)
Theorem card_first_ride_is_the_earliest_start :
  forall (rides : list Ride) (stations : list (Station F)),
    (forall r ms, In r rides -> startTimeMs r = Some ms -> validTime ms = true) ->
    exists s,
      stats now localYearMonth rides stations = Ret s
      /\ match earliestRide s with
         | Some first =>
             (exists r, In r rides /\ startTimeMs r = Some first)
             /\ (forall r ms, In r rides -> startTimeMs r = Some ms -> first <= ms)
             /\ daysAgo s = Some ((now - first) / msPerDay)
         | None =>
             (forall r, In r rides -> startTimeMs r = None) /\ daysAgo s = None
         end.
Proof.
  intros rides stations Hvalid.
  destruct (ridesByDate_returns rides Hvalid) as (m & Hm & _).
  destruct (stats_fields rides stations m Hm)
    as (s & Hs & _ & _ & _ & Hfirst & Hago & _).
  exists s. split; [exact Hs |]. rewrite Hago, Hfirst.
  assert (Hdates : forall ms,
             In ms (flat_map (fun r => match startTimeMs r with
                                       | Some ms => [ms]
                                       | None => []
                                       end) rides)
             <-> exists r, In r rides /\ startTimeMs r = Some ms).
  { intros ms. rewrite in_flat_map. split; intros (r & Hin & H); exists r;
      (split; [exact Hin |]).
    - destruct (startTimeMs r); [destruct H as [-> | []]; reflexivity | destruct H].
    - rewrite H. left. reflexivity. }
  destruct (flat_map _ rides) as [| t0 ts] eqn:E.
  - split; [| reflexivity]. intros r Hin.
    destruct (startTimeMs r) as [ms |] eqn:Er; [| reflexivity].
    exfalso. apply (proj2 (Hdates ms)). exists r. split; assumption.
  - destruct (fold_min_spec ts t0) as [Hin Hle].
    split; [apply Hdates, Hin |]. split; [| reflexivity].
    intros r ms Hr Er. apply Hle. apply Hdates. exists r. split; assumption.
Qed.

End CardFacts.

(** ** The cards and the stations table *)

Section VisitedIds.
Context {F : Type}.
Import StatsCards.

Lemma visitedStep_ids :
  forall (stations : list (Station F)) visited ride,
    visitedStep stations visited ride
    = fold_left (fun s k => JsMap.add String.eqb k s)
                (rideStationIds stations ride) visited.
Proof.
  intros stations visited ride. unfold visitedStep, rideStationIds.
  rewrite !findStationByName_cards_eq.
  destruct (Resolver.findStationByName (startAddress ride) stations);
    destruct (Resolver.findStationByName (endAddress ride) stations);
    reflexivity.
Qed.

Lemma visited_ids :
  forall (stations : list (Station F)) rides,
    fold_left (visitedStep stations) rides []
    = JsSet.ofList (flat_map (rideStationIds stations) rides).
Proof.
  intros stations rides. unfold JsSet.ofList.
  generalize (@nil string) as visited.
  induction rides as [| r rides IH]; intros visited; simpl; [reflexivity |].
  rewrite IH, fold_left_app, visitedStep_ids. reflexivity.
Qed.

Lemma rideStationIds_In :
  forall (stations : list (Station F)) ride k,
    In k (rideStationIds stations ride)
    <-> resolvesTo stations k (startAddress ride) = true
        \/ resolvesTo stations k (endAddress ride) = true.
Proof.
  intros stations ride k. unfold rideStationIds, resolvesTo.
  rewrite in_app_iff.
  destruct (Resolver.findStationByName (startAddress ride) stations) as [s |];
    destruct (Resolver.findStationByName (endAddress ride) stations) as [e |];
    simpl; rewrite ?String.eqb_eq; intuition discriminate.
Qed.

Lemma ofList_length :
  forall l, (List.length (JsSet.ofList l) <= List.length l)%nat.
Proof.
  intros l. apply NoDup_incl_length; [apply ofList_NoDup |].
  intros k Hk. apply ofList_In. exact Hk.
Qed.

End VisitedIds.

Section VisitedCount.
Context {F : Type} {ops : FloatOps F}.
Import StatsCards.

Variable now : Z.
Variable localYearMonth : Z -> Z * Z.
Variable localeCompare : string -> string -> Z.

(** X22: the cards and the stations table agree: the number of stations
    visited shown on the cards is the number of rows the stations table
    shows (the stations with a positive total), whatever the sort column
    and direction, and it never exceeds the number of stations of the
    directory. *)
Theorem cards_count_the_rows_of_the_stations_table :
  forall (rides : list Ride) (stations : list (Station F))
         (field : StationsView.SortField) (direction : SortDirection),
    (forall r ms, In r rides -> startTimeMs r = Some ms -> validTime ms = true) ->
    exists s,
      stats now localYearMonth rides stations = Ret s
      /\ stationsVisited s
         = Z.of_nat
             (List.length
                (StationsView.visitedStations
                   (StationsView.sortedStats localeCompare
                      (StationsTable.stationStats rides stations)
                      field direction)))
      /\ stationsVisited s <= totalStations s.
Proof.
  intros rides stations field direction Hvalid.
  destruct (ridesByDate_returns rides Hvalid) as (m & Hm & _).
  destruct (stats_fields now localYearMonth rides stations m Hm)
    as (s & Hs & _ & _ & _ & _ & _ & Hvis & Htot & _).
  exists s. split; [exact Hs |]. rewrite Hvis, Htot, visited_ids.
  set (table := StationsTable.stationStats rides stations).
  set (shown := StationsView.sortedStats localeCompare table field direction).
  set (idOf := fun e : StationsTable.StationStats F => id (StationsTable.station e)).
  assert (Hperm : Permutation shown table).
  { unfold shown. destruct direction;
      first [apply Permutation_refl | apply sort_permutation]. }
  pose proof (stationStats_ids rides stations) as Hids. fold table idOf in Hids.
  destruct (stationStats_sums rides stations) as (_ & _ & Hbal).
  pose proof (stationStats_rows rides stations) as Hrows.
  fold table in Hbal, Hrows. rewrite Forall_forall in Hbal, Hrows.
  assert (Hnd : NoDup (map idOf (StationsView.visitedStations shown))).
  { unfold StationsView.visitedStations. apply NoDup_map_filter.
    apply (Permutation_NoDup (l := map idOf table));
      [apply Permutation_map, Permutation_sym, Hperm |].
    rewrite Hids. apply ofList_NoDup. }
  assert (Hsame : forall k,
             In k (map idOf (StationsView.visitedStations shown))
             <-> In k (JsSet.ofList (flat_map (rideStationIds stations) rides))).
  { intros k. rewrite ofList_In, in_flat_map, in_map_iff.
    unfold StationsView.visitedStations. split.
    - intros (e & Ek & He). apply filter_In in He. destruct He as [He Hpos].
      apply (Permutation_in _ Hperm) in He.
      destruct (Hbal e He) as [Ht _]. destruct (Hrows e He) as [Ep Ed].
      fold (idOf e) in Ep, Ed. rewrite Ek in Ep, Ed.
      rewrite Z.gtb_ltb in Hpos. apply Z.ltb_lt in Hpos.
      pose proof (countIf_nonneg _
                    (fun r => resolvesTo stations k (startAddress r)) rides).
      pose proof (countIf_nonneg _
                    (fun r => resolvesTo stations k (endAddress r)) rides).
      assert (Hone : 1 <= StationsTable.pickups e \/ 1 <= StationsTable.dropoffs e)
        by lia.
      destruct Hone as [H1 | H1]; [rewrite Ep in H1 | rewrite Ed in H1];
        apply countIf_pos_iff in H1; destruct H1 as (r & Hr & Hres);
        exists r; (split; [exact Hr |]); apply rideStationIds_In; auto.
    - intros (r & Hr & Hk).
      assert (Hdir : In k (map id stations)).
      { apply rideStationIds_In in Hk. unfold resolvesTo in Hk.
        destruct Hk as [Hk | Hk];
          destruct (Resolver.findStationByName _ stations) as [st |] eqn:E;
          try discriminate; apply String.eqb_eq in Hk; subst k;
          apply in_map; eapply findStationByName_In; exact E. }
      apply ofList_In in Hdir. rewrite <- Hids in Hdir.
      apply in_map_iff in Hdir. destruct Hdir as (e & Ek & He).
      exists e. split; [exact Ek |]. apply filter_In. split.
      + apply (Permutation_in _ (Permutation_sym Hperm)). exact He.
      + destruct (Hbal e He) as [Ht _]. destruct (Hrows e He) as [Ep Ed].
        fold (idOf e) in Ep, Ed. rewrite Ek in Ep, Ed.
        pose proof (countIf_nonneg _
                      (fun r => resolvesTo stations k (startAddress r)) rides).
        pose proof (countIf_nonneg _
                      (fun r => resolvesTo stations k (endAddress r)) rides).
        assert (Hone : 1 <= StationsTable.pickups e
                       \/ 1 <= StationsTable.dropoffs e).
        { apply rideStationIds_In in Hk. destruct Hk as [Hk | Hk];
            [left; rewrite Ep | right; rewrite Ed];
            apply countIf_pos_iff; exists r; split; assumption. }
        rewrite Z.gtb_ltb. apply Z.ltb_lt. lia. }
  assert (Hlen : List.length (JsSet.ofList (flat_map (rideStationIds stations) rides))
                 = List.length (StationsView.visitedStations shown)).
  { rewrite <- (length_map idOf (StationsView.visitedStations shown)).
    apply Permutation_length. apply NoDup_Permutation.
    - apply ofList_NoDup.
    - exact Hnd.
    - intros k. symmetry. apply Hsame. }
  rewrite Hlen. split; [reflexivity |].
  apply inj_le. unfold StationsView.visitedStations.
  eapply Nat.le_trans; [apply filter_length_le |].
  rewrite (Permutation_length Hperm), <- (length_map idOf table), Hids.
  eapply Nat.le_trans; [apply ofList_length |]. rewrite length_map. apply Nat.le_refl.
Qed.

End VisitedCount.

(** ** Streaks and breaks *)

Section BreakFacts.
Import StatsCards.

Lemma break_extend :
  forall (P : list Z) prev x,
    (forall y, In y P -> y <= prev) ->
    In prev P ->
    prev < x ->
    breakIn (P ++ [x]) prev (x - prev - 1)
    /\ (forall d n, breakIn P d n -> breakIn (P ++ [x]) d n)
    /\ (forall d n, breakIn (P ++ [x]) d n ->
                    n <= 0 \/ breakIn P d n \/ n = x - prev - 1).
Proof.
  intros P prev x Hmax Hprev Hlt.
  assert (Hin' : forall y, In y (P ++ [x]) <-> In y P \/ y = x).
  { intros y. rewrite in_app_iff. simpl. intuition. }
  split; [| split].
  - split; [apply Hin'; left; exact Hprev |]. split.
    + apply Hin'. right. lia.
    + intros i Hi H. apply Hin' in H.
      destruct H as [H | H]; [specialize (Hmax _ H) |]; lia.
  - intros d n (Hd & He & Hno). split; [apply Hin'; left; exact Hd |].
    split; [apply Hin'; left; exact He |].
    intros i Hi H. apply Hin' in H. destruct H as [H | H].
    + exact (Hno i Hi H).
    + specialize (Hmax _ He). lia.
  - intros d n (Hd & He & Hno).
    destruct (Z_le_gt_dec n 0) as [Hn | Hn]; [left; exact Hn | right].
    apply Hin' in Hd. apply Hin' in He.
    destruct Hd as [Hd | Hd].
    + destruct He as [He | He].
      * left. split; [exact Hd |]. split; [exact He |].
        intros i Hi H. apply (Hno i Hi). apply Hin'. left. exact H.
      * right. destruct (Z.eq_dec d prev) as [-> | Hne]; [lia |].
        exfalso. specialize (Hmax _ Hd).
        apply (Hno (prev - d) ltac:(lia)). apply Hin'. left.
        replace (d + (prev - d)) with prev by lia. exact Hprev.
    + exfalso. destruct He as [He | He]; [specialize (Hmax _ He) |]; lia.
Qed.

Lemma streakLoop_longest_break :
  forall rest P prev st,
    StronglySorted Z.lt (prev :: rest) ->
    (forall y, In y P -> y <= prev) ->
    In prev P ->
    isLongestBreak P (longestBreakSoFar st) ->
    isLongestBreak (P ++ rest)
      (longestBreakSoFar (streakLoop (dateOfKey prev) (map dateOfKey rest) st)).
Proof.
  induction rest as [| x rest IH]; intros P prev st Hsorted Hmax Hprev Hbrk.
  - simpl. rewrite app_nil_r. exact Hbrk.
  - cbn [map streakLoop].
    inversion Hsorted as [| ? ? Hsorted' Hlt]; subst.
    inversion Hlt as [| ? ? Hpx _]; subst.
    replace (P ++ x :: rest)%list with ((P ++ [x]) ++ rest)%list
      by (rewrite <- app_assoc; reflexivity).
    destruct (break_extend P prev x Hmax Hprev Hpx) as (Hnew & Hkeep & Hcases).
    apply IH; clear IH.
    + exact Hsorted'.
    + intros y Hy. apply in_app_or in Hy.
      destruct Hy as [Hy | [<- | []]]; [specialize (Hmax _ Hy) |]; lia.
    + apply in_or_app. right. left. reflexivity.
    + unfold streakStep. rewrite daysDiff_dateOfKey.
      destruct (x - prev =? 1); cbn [longestBreakSoFar];
        unfold isLongestBreak in *;
        (destruct (longestBreakSoFar st) as [b |];
         [ destruct Hbrk as (Hb & (d0 & Hd0) & Hall);
           destruct (Z.ltb_spec 0 (x - prev - 1)) as [H0 | H0];
           [ destruct (Z.ltb_spec b (x - prev - 1)) as [H1 | H1] |]; cbn [andb];
           [ split; [lia |]; split; [exists prev; exact Hnew |]
           | split; [lia |]; split; [exists d0; apply Hkeep, Hd0 |]
           | split; [lia |]; split; [exists d0; apply Hkeep, Hd0 |] ];
           intros d n Hdn;
           destruct (Hcases d n Hdn) as [Hn | [Hn | Hn]];
           try specialize (Hall d n Hn); lia
         | destruct (Z.ltb_spec 0 (x - prev - 1)) as [H0 | H0]; cbn [andb];
           [ split; [lia |]; split; [exists prev; exact Hnew |] |];
           intros d n Hdn;
           destruct (Hcases d n Hdn) as [Hn | [Hn | Hn]];
           try specialize (Hbrk d n Hn); lia ]).
Qed.

Lemma isLongestBreak_ext :
  forall (P Q : list Z) b,
    (forall y, In y P <-> In y Q) -> isLongestBreak P b -> isLongestBreak Q b.
Proof.
  intros P Q b Hsame.
  assert (Hto : forall d n, breakIn P d n -> breakIn Q d n).
  { intros d n (Hd & He & Hno). split; [apply Hsame, Hd |].
    split; [apply Hsame, He |]. intros i Hi H. apply (Hno i Hi), Hsame, H. }
  assert (Hfrom : forall d n, breakIn Q d n -> breakIn P d n).
  { intros d n (Hd & He & Hno). split; [apply Hsame, Hd |].
    split; [apply Hsame, He |]. intros i Hi H. apply (Hno i Hi), Hsame, H. }
  unfold isLongestBreak. destruct b as [b |].
  - intros (Hb & (d & Hd) & Hall). split; [exact Hb |].
    split; [exists d; apply Hto, Hd |]. intros d' n H. apply (Hall d' n), Hfrom, H.
  - intros Hall d n H. apply (Hall d n), Hfrom, H.
Qed.

(** The longest break that [streakOf] reports, for any number of ride
    days. *)
Lemma streakOf_longest_break :
  forall days,
    NoDup days ->
    isLongestBreak days (snd (streakOf (sortDates (map dateOfKey days)))).
Proof.
  intros days Hnd. rewrite sortDates_dateOfKey.
  destruct (sortDates_spec days Hnd) as [Hsorted Hin].
  apply (isLongestBreak_ext (sortDates days)); [exact Hin |].
  destruct (sortDates days) as [| first [| second rest]].
  - simpl. intros d n (Hd & _). destruct Hd.
  - simpl. intros d n (Hd & He & _).
    destruct Hd as [<- | []]. destruct He as [He | []]. lia.
  - cbn [map streakOf snd].
    change (dateOfKey second :: map dateOfKey rest)
      with (map dateOfKey (second :: rest)).
    apply (streakLoop_longest_break (second :: rest) [first] first).
    + exact Hsorted.
    + intros y [<- | []]. lia.
    + left. reflexivity.
    + simpl. intros d n (Hd & He & _).
      destruct Hd as [<- | []]. destruct He as [He | []]. lia.
Qed.

End BreakFacts.

Section StreakAndBreak.
Context {F : Type} {ops : FloatOps F}.
Import StatsCards.

Variable now : Z.
Variable localYearMonth : Z -> Z * Z.

(** X23: streaks and breaks on the cards, over the distinct UTC days on
    which rides start.  The longest break is the largest number of
    consecutive days without a ride between two ride days, and it is
    missing exactly when no two ride days are apart; from two ride days
    on the longest streak is the length of the longest run of consecutive
    ride days. *)
Theorem card_longest_streak_and_break :
  forall (rides : list Ride) (stations : list (Station F)),
    (forall r ms, In r rides -> startTimeMs r = Some ms -> validTime ms = true) ->
    exists s,
      stats now localYearMonth rides stations = Ret s
      /\ isLongestBreak (distinctDays rides) (longestBreakDays s)
      /\ ((2 <= List.length (distinctDays rides))%nat ->
          isLongestRun (distinctDays rides) (longestStreak s)).
Proof.
  intros rides stations Hvalid.
  destruct (ridesByDate_returns rides Hvalid) as (m & Hm & Hkeys).
  destruct (stats_returns now localYearMonth rides stations m Hm)
    as (s & Hs & Hstreak & Hbreak & _).
  exists s. split; [exact Hs |]. rewrite Hstreak, Hbreak.
  unfold rideDatesOf. rewrite Hkeys.
  split.
  - apply streakOf_longest_break. apply distinctDays_spec.
  - intros Hlen. apply streakOf_longest_run; [apply distinctDays_spec | exact Hlen].
Qed.

End StreakAndBreak.

(** ** Counting maps *)

Section CountingMaps.
Context {K : Type}.
Variable eqb : K -> K -> bool.
Hypothesis eqb_spec : forall a b, eqb a b = true <-> a = b.

(** [map.set(k, (map.get(k) || 0) + 1)] adds one to the count of [k] and
    leaves the other counts alone. *)
Lemma get_bump :
  forall k k' (m : list (K * Z)),
    orZero (JsMap.get eqb k'
              (JsMap.set eqb k (orZero (JsMap.get eqb k m) + 1) m))
    = orZero (JsMap.get eqb k' m) + (if eqb k k' then 1 else 0).
Proof.
  intros k k' m. destruct (eqb k k') eqn:E.
  - apply eqb_spec in E. subst k'. rewrite (get_set_same eqb eqb_spec).
    reflexivity.
  - rewrite (get_set_other eqb eqb_spec); [lia |].
    intros Heq. subst k'. rewrite (eqb_refl_key eqb eqb_spec) in E. discriminate.
Qed.

Lemma entry_of_get :
  forall k (v : Z) m, JsMap.get eqb k m = Some v -> In (k, v) m.
Proof.
  intros k v m. induction m as [| [k0 v0] m IH]; simpl; [discriminate |].
  destruct (eqb k0 k) eqn:E.
  - intros H. inversion H; subst. apply eqb_spec in E. subst. left. reflexivity.
  - intros H. right. apply IH, H.
Qed.

Lemma get_of_entry :
  forall k (v : Z) m,
    NoDup (JsMap.keys m) -> In (k, v) m -> JsMap.get eqb k m = Some v.
Proof.
  intros k v m. induction m as [| [k0 v0] m IH]; simpl; [intros _ [] |].
  intros Hnd [H | H].
  - inversion H; subst. rewrite (eqb_refl_key eqb eqb_spec). reflexivity.
  - inversion Hnd as [| ? ? Hnot Hnd']; subst.
    destruct (eqb k0 k) eqn:E.
    + apply eqb_spec in E. subst k0. exfalso. apply Hnot.
      unfold JsMap.keys. apply in_map_iff. exists (k, v). split; [reflexivity | exact H].
    + apply IH; assumption.
Qed.

End CountingMaps.

Lemma Z_eqb_spec : forall a b : Z, (a =? b) = true <-> a = b.
Proof. intros a b. apply Z.eqb_eq. Qed.

(** ** The busiest day *)

Section BusiestDay.
Import StatsCards.

Lemma ridesByDate_counts :
  forall rides m m',
    forEachM ridesByDateStep rides m = Ret m' ->
    forall day,
      orZero (JsMap.get Z.eqb day m')
      = orZero (JsMap.get Z.eqb day m) + ridesOnDay rides day.
Proof.
  induction rides as [| r rides IH]; intros m m' H day.
  - simpl in H. inversion H; subst. unfold ridesOnDay, countIf. simpl. lia.
  - cbn [forEachM] in H. unfold ridesOnDay. rewrite countIf_cons.
    fold (ridesOnDay rides day).
    unfold ridesByDateStep at 1 in H. unfold rideDay at 1.
    destruct (startTimeMs r) as [ms |]; cbn [option_map].
    + unfold dateKeyOf in H. destruct (validTime ms); [| discriminate H].
      cbn [bind] in H. rewrite (IH _ _ H day).
      rewrite (get_bump Z.eqb Z_eqb_spec). lia.
    + cbn [bind] in H. rewrite (IH _ _ H day). lia.
Qed.

Lemma fold_mostRidesStep :
  forall (entries : list (Z * Z)) (n0 : Z) (d0 : option Z),
    let st := fold_left mostRidesStep entries (n0, d0) in
    (forall k v, In (k, v) entries -> v <= fst st)
    /\ n0 <= fst st
    /\ (st = (n0, d0)
        \/ exists k,
             In (k, fst st) entries /\ snd st = Some (dateOfKey k) /\ n0 < fst st).
Proof.
  induction entries as [| [k v] entries IH]; intros n0 d0; cbv zeta.
  - simpl. split; [intros k v [] |]. split; [lia | left; reflexivity].
  - cbn [fold_left].
    assert (Hstep : mostRidesStep (n0, d0) (k, v)
                    = if v >? n0 then (v, Some (dateOfKey k)) else (n0, d0))
      by reflexivity.
    rewrite Hstep. clear Hstep.
    destruct (Z.gtb_spec v n0) as [Hgt | Hle].
    + destruct (IH v (Some (dateOfKey k))) as (H1 & H2 & H3). cbv zeta in *.
      split; [| split].
      * intros k' v' [E | Hin]; [inversion E; subst; exact H2 | eapply H1; exact Hin].
      * lia.
      * right. destruct H3 as [-> | (k' & Hin & E & Hlt)].
        -- exists k. cbn [fst snd].
           split; [left; reflexivity | split; [reflexivity | lia]].
        -- exists k'. split; [right; exact Hin | split; [exact E | lia]].
    + destruct (IH n0 d0) as (H1 & H2 & H3). cbv zeta in *.
      split; [| split].
      * intros k' v' [E | Hin]; [inversion E; subst; lia | eapply H1; exact Hin].
      * exact H2.
      * destruct H3 as [-> | (k' & Hin & E & Hlt)]; [left; reflexivity | right].
        exists k'. split; [right; exact Hin | split; [exact E | exact Hlt]].
Qed.

End BusiestDay.

Section BusiestDayCard.
Context {F : Type} {ops : FloatOps F}.
Import StatsCards.

Variable now : Z.
Variable localYearMonth : Z -> Z * Z.

(** X24: the busiest day of the cards: [mostRidesInDay] is the largest
    number of rides that start on one UTC day, no day has more, and
    [mostRidesInDayDate] is midnight (UTC) of a day with that many rides,
    one at least; the date is missing exactly when no ride has a start
    time, and the count is then 0. *)
Theorem card_most_rides_in_a_day :
  forall (rides : list Ride) (stations : list (Station F)),
    (forall r ms, In r rides -> startTimeMs r = Some ms -> validTime ms = true) ->
    exists s,
      stats now localYearMonth rides stations = Ret s
      /\ (forall day, ridesOnDay rides day <= mostRidesInDay s)
      /\ match mostRidesInDayDate s with
         | Some t =>
             1 <= mostRidesInDay s
             /\ exists day,
                 t = dateOfKey day /\ ridesOnDay rides day = mostRidesInDay s
         | None =>
             mostRidesInDay s = 0
             /\ forall r, In r rides -> startTimeMs r = None
         end
      /\ (mostRidesInDayDate s = None
          <-> forall r, In r rides -> startTimeMs r = None).
Proof.
  intros rides stations Hvalid.
  destruct (ridesByDate_returns rides Hvalid) as (m & Hm & Hkeys).
  destruct (stats_fields now localYearMonth rides stations m Hm)
    as (s & Hs & _ & _ & _ & _ & _ & _ & _ & Hmost & _).
  exists s. split; [exact Hs |].
  assert (Hcount : forall day, orZero (JsMap.get Z.eqb day m) = ridesOnDay rides day).
  { intros day. rewrite (ridesByDate_counts rides [] m Hm day). reflexivity. }
  assert (Hnd : NoDup (JsMap.keys m)).
  { rewrite Hkeys. apply distinctDays_spec. }
  destruct (fold_mostRidesStep m 0 None) as (Hall & H0 & Hbest).
  cbv zeta in Hall, H0, Hbest. rewrite <- Hmost in Hall, H0, Hbest.
  cbn [fst snd] in Hall, H0, Hbest.
  assert (Hmax : forall day, ridesOnDay rides day <= mostRidesInDay s).
  { intros day. rewrite <- Hcount.
    destruct (JsMap.get Z.eqb day m) as [v |] eqn:G; [| exact H0].
    apply (Hall day v). apply (entry_of_get Z.eqb Z_eqb_spec). exact G. }
  assert (Hday : forall r ms,
             In r rides -> startTimeMs r = Some ms ->
             1 <= ridesOnDay rides (jsFloor ms msPerDay)).
  { intros r ms Hin Hms. unfold ridesOnDay. apply countIf_pos_iff.
    exists r. split; [exact Hin |]. unfold rideDay. rewrite Hms.
    cbn [option_map]. apply Z.eqb_refl. }
  assert (Hnone : mostRidesInDay s = 0 ->
                  forall r, In r rides -> startTimeMs r = None).
  { intros Hzero r Hin. destruct (startTimeMs r) as [ms |] eqn:Hms; [| reflexivity].
    pose proof (Hday r ms Hin Hms). pose proof (Hmax (jsFloor ms msPerDay)). lia. }
  split; [exact Hmax |].
  destruct Hbest as [E | (k & Hin & E & Hpos)].
  - injection E as E1 E2. rewrite E2.
    split; [split; [exact E1 | exact (Hnone E1)] |].
    split; [intros _; exact (Hnone E1) | reflexivity].
  - rewrite E. split.
    + split; [lia |]. exists k. split; [reflexivity |].
      rewrite <- Hcount, (get_of_entry Z.eqb Z_eqb_spec _ _ _ Hnd Hin). reflexivity.
    + split; [discriminate |]. intros Hall0. exfalso.
      assert (Hk : 1 <= ridesOnDay rides k).
      { rewrite <- Hcount, (get_of_entry Z.eqb Z_eqb_spec _ _ _ Hnd Hin).
        cbn [orZero]. lia. }
      unfold ridesOnDay in Hk. apply countIf_pos_iff in Hk.
      destruct Hk as (r & Hr & Hd). unfold rideDay in Hd.
      rewrite (Hall0 r Hr) in Hd. discriminate Hd.
Qed.

End BusiestDayCard.

(** ** The favourite station *)

Section FavouriteStation.
Context {F : Type} {ops : FloatOps F}.
Import StatsCards.

Variable now : Z.
Variable localYearMonth : Z -> Z * Z.

Lemma visitCountStep_counts :
  forall (stations : list (Station F)) counts ride k,
    orZero (JsMap.get String.eqb k (visitCountStep stations counts ride))
    = orZero (JsMap.get String.eqb k counts)
      + (if resolvesTo stations k (startAddress ride) then 1 else 0)
      + (if resolvesTo stations k (endAddress ride) then 1 else 0).
Proof.
  intros stations counts ride k. unfold visitCountStep, resolvesTo, bump.
  rewrite !findStationByName_cards_eq.
  destruct (Resolver.findStationByName (startAddress ride) stations) as [s |];
    destruct (Resolver.findStationByName (endAddress ride) stations) as [e |];
    rewrite ?(get_bump String.eqb string_eqb_spec); lia.
Qed.

Lemma visitCounts_fold :
  forall (stations : list (Station F)) rides counts k,
    orZero (JsMap.get String.eqb k
              (fold_left (visitCountStep stations) rides counts))
    = orZero (JsMap.get String.eqb k counts) + stationVisits stations rides k.
Proof.
  intros stations rides. unfold stationVisits.
  induction rides as [| r rides IH]; intros counts k.
  - unfold countIf. simpl. lia.
  - cbn [fold_left]. rewrite IH, visitCountStep_counts, !countIf_cons. lia.
Qed.

Lemma visitCountStep_keys :
  forall (stations : list (Station F)) counts ride,
    JsMap.keys (visitCountStep stations counts ride)
    = fold_left (fun s k => JsMap.add String.eqb k s)
                (rideStationIds stations ride) (JsMap.keys counts).
Proof.
  intros stations counts ride. unfold visitCountStep, rideStationIds, bump.
  rewrite !findStationByName_cards_eq.
  destruct (Resolver.findStationByName (startAddress ride) stations) as [s |];
    destruct (Resolver.findStationByName (endAddress ride) stations) as [e |];
    cbn [app fold_left]; rewrite ?keys_set_add; reflexivity.
Qed.

Lemma visitCounts_keys :
  forall (stations : list (Station F)) rides,
    JsMap.keys (fold_left (visitCountStep stations) rides [])
    = JsSet.ofList (flat_map (rideStationIds stations) rides).
Proof.
  intros stations rides. unfold JsSet.ofList.
  assert (H : forall counts : list (string * Z),
             JsMap.keys (fold_left (visitCountStep stations) rides counts)
             = fold_left (fun s k => JsMap.add String.eqb k s)
                         (flat_map (rideStationIds stations) rides)
                         (JsMap.keys counts)).
  { induction rides as [| r rides IH]; intros counts; simpl; [reflexivity |].
    rewrite IH, fold_left_app, visitCountStep_keys. reflexivity. }
  apply (H []).
Qed.

Lemma fold_favouriteStep :
  forall (stations : list (Station F)) (entries : list (string * Z))
         (best : option (Station F)) (n0 : Z),
    (forall k v, In (k, v) entries ->
                 find (fun s => String.eqb (id s) k) stations <> None) ->
    let st := fold_left (favouriteStep stations) entries (best, n0) in
    (forall k v, In (k, v) entries -> v <= snd st)
    /\ n0 <= snd st
    /\ (st = (best, n0)
        \/ exists k station,
             In (k, snd st) entries
             /\ find (fun s => String.eqb (id s) k) stations = Some station
             /\ fst st = Some station
             /\ n0 < snd st).
Proof.
  intros stations entries.
  induction entries as [| [k v] entries IH]; intros best n0 Hfind; cbv zeta.
  - simpl. split; [intros k v [] |]. split; [lia | left; reflexivity].
  - cbn [fold_left].
    assert (Hstep : favouriteStep stations (best, n0) (k, v)
                    = if v >? n0 then
                        match find (fun s => String.eqb (id s) k) stations with
                        | Some station => (Some station, v)
                        | None => (best, n0)
                        end
                      else (best, n0)) by reflexivity.
    rewrite Hstep. clear Hstep.
    assert (Hrest : forall k' v', In (k', v') entries ->
                                  find (fun s => String.eqb (id s) k') stations
                                  <> None).
    { intros k' v' Hin. apply (Hfind k' v'). right. exact Hin. }
    destruct (Z.gtb_spec v n0) as [Hgt | Hle].
    + destruct (find (fun s => String.eqb (id s) k) stations) as [station |] eqn:E;
        [| exfalso; apply (Hfind k v (or_introl eq_refl)); exact E].
      destruct (IH (Some station) v Hrest) as (H1 & H2 & H3). cbv zeta in *.
      split; [| split].
      * intros k' v' [E' | Hin];
          [inversion E'; subst; exact H2 | eapply H1; exact Hin].
      * lia.
      * right. destruct H3 as [-> | (k' & st' & Hin & Ef & Eb & Hlt)].
        -- exists k, station. cbn [fst snd].
           split; [left; reflexivity | split; [exact E | split; [reflexivity | lia]]].
        -- exists k', st'.
           split; [right; exact Hin | split; [exact Ef | split; [exact Eb | lia]]].
    + destruct (IH best n0 Hrest) as (H1 & H2 & H3). cbv zeta in *.
      split; [| split].
      * intros k' v' [E' | Hin];
          [inversion E'; subst; lia | eapply H1; exact Hin].
      * exact H2.
      * destruct H3 as [-> | (k' & st' & Hin & Ef & Eb & Hlt)];
          [left; reflexivity | right].
        exists k', st'.
        split; [right; exact Hin | split; [exact Ef | split; [exact Eb | exact Hlt]]].
Qed.

Lemma stats_favourite :
  forall (rides : list Ride) (stations : list (Station F)) ridesByDate,
    ridesByDateOf rides = Ret ridesByDate ->
    exists s,
      stats now localYearMonth rides stations = Ret s
      /\ (favouriteStation s, maxVisits s)
         = fold_left (favouriteStep stations)
                     (fold_left (visitCountStep stations) rides []) (None, 0).
Proof.
  intros rides stations ridesByDate H. unfold stats. rewrite H. cbn [bind].
  destruct (fold_left (favouriteStep stations) _ _) as [fav maxV].
  destruct (fold_left (distanceStep stations) _ _) as [[[lng lngDate] km] rds].
  destruct (fold_left mostRidesStep _ _) as [most mostDate].
  destruct (streakOf (rideDatesOf ridesByDate)) as [streak brk].
  eexists. split; reflexivity.
Qed.

(** X25: the favourite station of the cards.  [maxVisits] is the largest
    number of times the rides start or end at one station id, so no row
    of the stations table has a larger total; the favourite station is a
    station of the directory with that many visits, one at least; there
    is no favourite exactly when no address of any ride resolves, and
    [maxVisits] is then 0. *)
Theorem card_favourite_station_has_the_most_visits :
  forall (rides : list Ride) (stations : list (Station F)),
    (forall r ms, In r rides -> startTimeMs r = Some ms -> validTime ms = true) ->
    exists s,
      stats now localYearMonth rides stations = Ret s
      /\ (forall k, stationVisits stations rides k <= maxVisits s)
      /\ Forall (fun e => StationsTable.total e <= maxVisits s)
                (StationsTable.stationStats rides stations)
      /\ match favouriteStation s with
         | Some station =>
             In station stations
             /\ stationVisits stations rides (id station) = maxVisits s
             /\ 1 <= maxVisits s
         | None =>
             maxVisits s = 0
             /\ forall r, In r rides -> rideStationIds stations r = []
         end
      /\ (favouriteStation s = None
          <-> forall r, In r rides -> rideStationIds stations r = []).
Proof.
  intros rides stations Hvalid.
  destruct (ridesByDate_returns rides Hvalid) as (m & Hm & _).
  destruct (stats_favourite rides stations m Hm) as (s & Hs & Hfav).
  exists s. split; [exact Hs |].
  set (counts := fold_left (visitCountStep stations) rides []) in *.
  assert (Hcount : forall k,
             orZero (JsMap.get String.eqb k counts) = stationVisits stations rides k).
  { intros k. unfold counts. rewrite visitCounts_fold. reflexivity. }
  assert (Hkeys : JsMap.keys counts
                  = JsSet.ofList (flat_map (rideStationIds stations) rides)).
  { apply visitCounts_keys. }
  assert (Hnd : NoDup (JsMap.keys counts)).
  { rewrite Hkeys. apply ofList_NoDup. }
  assert (Hfind : forall k v, In (k, v) counts ->
                              find (fun s => String.eqb (id s) k) stations <> None).
  { intros k v Hin.
    assert (Hk : In k (JsMap.keys counts)).
    { unfold JsMap.keys. apply in_map_iff. exists (k, v). split; [reflexivity | exact Hin]. }
    rewrite Hkeys, ofList_In, in_flat_map in Hk.
    destruct Hk as (r & _ & Hk). apply rideStationIds_In in Hk.
    assert (Hst : exists st, In st stations /\ String.eqb (id st) k = true).
    { unfold resolvesTo in Hk.
      destruct Hk as [Hk | Hk];
        destruct (Resolver.findStationByName _ stations) as [st |] eqn:E;
        try discriminate; exists st;
        (split; [eapply findStationByName_In; exact E | exact Hk]). }
    destruct Hst as (st & Hin' & Eid). intros Hnone.
    pose proof (find_none _ _ Hnone st Hin') as Hno. cbv beta in Hno. congruence. }
  destruct (fold_favouriteStep stations counts None 0 Hfind) as (Hall & H0 & Hbest).
  cbv zeta in Hall, H0, Hbest. rewrite <- Hfav in Hall, H0, Hbest.
  cbn [fst snd] in Hall, H0, Hbest.
  assert (Hmax : forall k, stationVisits stations rides k <= maxVisits s).
  { intros k. rewrite <- Hcount.
    destruct (JsMap.get String.eqb k counts) as [v |] eqn:G; [| exact H0].
    apply (Hall k v). apply get_In_entries. exact G. }
  split; [exact Hmax |]. split.
  - destruct (stationStats_sums rides stations) as (_ & _ & Hbal).
    pose proof (stationStats_rows rides stations) as Hrows.
    rewrite Forall_forall in *. intros e He.
    destruct (Hbal e He) as [Ht _]. destruct (Hrows e He) as [Ep Ed].
    rewrite Ht, Ep, Ed. apply (Hmax (id (StationsTable.station e))).
  - assert (Hnone : maxVisits s = 0 ->
                    forall r, In r rides -> rideStationIds stations r = []).
    { intros Hzero r Hr.
      destruct (rideStationIds stations r) as [| k ks] eqn:Eids; [reflexivity |].
      exfalso.
      assert (Hk : In k (rideStationIds stations r)) by (rewrite Eids; left; reflexivity).
      apply rideStationIds_In in Hk.
      assert (Hpos : 1 <= stationVisits stations rides k).
      { unfold stationVisits.
        pose proof (countIf_nonneg _ (fun r => resolvesTo stations k (startAddress r))
                      rides).
        pose proof (countIf_nonneg _ (fun r => resolvesTo stations k (endAddress r))
                      rides).
        destruct Hk as [Hk | Hk].
        - assert (1 <= countIf (fun r => resolvesTo stations k (startAddress r)) rides)
            by (apply countIf_pos_iff; exists r; split; assumption).
          lia.
        - assert (1 <= countIf (fun r => resolvesTo stations k (endAddress r)) rides)
            by (apply countIf_pos_iff; exists r; split; assumption).
          lia. }
      pose proof (Hmax k). lia. }
    destruct Hbest as [E | (k & station & Hin & Ef & Eb & Hpos)].
    + injection E as E1 E2. rewrite E1.
      split; [split; [exact E2 | exact (Hnone E2)] |].
      split; [intros _; exact (Hnone E2) | reflexivity].
    + rewrite Eb. apply find_some in Ef. destruct Ef as [Hst Eid].
      apply String.eqb_eq in Eid.
      assert (Hvisits : stationVisits stations rides (id station) = maxVisits s).
      { rewrite Eid, <- Hcount, (In_entries_get _ _ _ _ Hnd Hin). reflexivity. }
      split; [split; [exact Hst | split; [exact Hvisits | lia]] |].
      split; [discriminate |]. intros Hall0. exfalso.
      assert (Hk : In (id station) (JsMap.keys counts)).
      { rewrite Eid. unfold JsMap.keys. apply in_map_iff.
        exists (k, maxVisits s). split; [reflexivity | exact Hin]. }
      rewrite Hkeys, ofList_In, in_flat_map in Hk.
      destruct Hk as (r & Hr & Hk). rewrite (Hall0 r Hr) in Hk. exact Hk.
Qed.

End FavouriteStation.

(** ** The busiest month *)

Section KeysOfMaps.
Context {K : Type}.
Variable eqb : K -> K -> bool.
Hypothesis eqb_spec : forall a b, eqb a b = true <-> a = b.

Lemma In_keys_set :
  forall (V : Type) x k (v : V) m,
    In x (JsMap.keys (JsMap.set eqb k v m)) -> x = k \/ In x (JsMap.keys m).
Proof.
  intros V x k v m. unfold JsMap.keys.
  induction m as [| [k0 v0] m IH]; simpl.
  - intros [H | []]. left. symmetry. exact H.
  - destruct (eqb k0 k); simpl.
    + intros [H | H]; [right; left; exact H | right; right; exact H].
    + intros [H | H]; [right; left; exact H |].
      destruct (IH H) as [H' | H']; [left; exact H' | right; right; exact H'].
Qed.

Lemma keys_set_NoDup :
  forall (V : Type) k (v : V) m,
    NoDup (JsMap.keys m) -> NoDup (JsMap.keys (JsMap.set eqb k v m)).
Proof.
  intros V k v m. induction m as [| [k0 v0] m IH]; simpl.
  - intros _. constructor; [intros [] | constructor].
  - intros H. inversion H as [| ? ? Hnot Hnd]; subst.
    destruct (eqb k0 k) eqn:E; simpl; [constructor; assumption |].
    constructor; [| apply IH, Hnd].
    intros Hin. apply In_keys_set in Hin. destruct Hin as [-> | Hin].
    + rewrite (eqb_refl_key eqb eqb_spec) in E. discriminate.
    + apply Hnot, Hin.
Qed.

End KeysOfMaps.

Section BusiestMonth.
Import StatsCards.
Variable localYearMonth : Z -> Z * Z.

Lemma monthKeyEqb_spec : forall a b, monthKeyEqb a b = true <-> a = b.
Proof.
  intros [y m] [y' m']. unfold monthKeyEqb. cbn [fst snd].
  rewrite andb_true_iff, !Z.eqb_eq. split.
  - intros [-> ->]. reflexivity.
  - intros H. inversion H. split; reflexivity.
Qed.

Lemma ridesByMonth_fold :
  forall rides (m : list (Z * Z * Z)),
    NoDup (JsMap.keys m) ->
    let m' := fold_left (ridesByMonthStep localYearMonth) rides m in
    NoDup (JsMap.keys m')
    /\ forall key,
         orZero (JsMap.get monthKeyEqb key m')
         = orZero (JsMap.get monthKeyEqb key m)
           + ridesInMonth localYearMonth rides key.
Proof.
  induction rides as [| r rides IH]; intros m Hnd; cbv zeta.
  - simpl. split; [exact Hnd |]. intros key. unfold ridesInMonth, countIf. simpl. lia.
  - cbn [fold_left]. unfold ridesInMonth.
    destruct (IH (ridesByMonthStep localYearMonth m r)) as [H1 H2].
    { unfold ridesByMonthStep. destruct (startTimeMs r); [| exact Hnd].
      apply (keys_set_NoDup monthKeyEqb monthKeyEqb_spec). exact Hnd. }
    split; [exact H1 |]. intros key. rewrite H2, countIf_cons.
    fold (ridesInMonth localYearMonth rides key).
    unfold ridesByMonthStep at 1. destruct (startTimeMs r) as [ms |]; [| lia].
    rewrite (get_bump monthKeyEqb monthKeyEqb_spec). lia.
Qed.

Lemma set_values_positive :
  forall (K : Type) (eqb : K -> K -> bool) k (v0 : Z) (m : list (K * Z)),
    (forall k' v', In (k', v') m -> 1 <= v') ->
    1 <= v0 ->
    forall k' v', In (k', v') (JsMap.set eqb k v0 m) -> 1 <= v'.
Proof.
  intros K eqb k v0 m. induction m as [| [k1 v1] m IH]; intros Hm Hv k' v'; simpl.
  - intros [E | []]. inversion E; subst. exact Hv.
  - destruct (eqb k1 k).
    + intros [E | Hin].
      * inversion E; subst. exact Hv.
      * apply (Hm k' v'). right. exact Hin.
    + intros [E | Hin].
      * apply (Hm k' v'). left. exact E.
      * apply (fun H => IH H Hv k' v' Hin).
        intros k2 v2 H2. apply (Hm k2 v2). right. exact H2.
Qed.

Lemma ridesByMonth_positive :
  forall rides (m : list (Z * Z * Z)),
    (forall key n, In (key, n) m -> 1 <= n) ->
    forall key n,
      In (key, n) (fold_left (ridesByMonthStep localYearMonth) rides m) -> 1 <= n.
Proof.
  induction rides as [| r rides IH]; intros m Hm; [exact Hm |].
  cbn [fold_left]. apply IH.
  unfold ridesByMonthStep. destruct (startTimeMs r) as [ms |]; [| exact Hm].
  apply set_values_positive; [exact Hm |].
  destruct (JsMap.get monthKeyEqb (localYearMonth ms) m) as [v |] eqn:G;
    cbn [orZero]; [| lia].
  apply (entry_of_get monthKeyEqb monthKeyEqb_spec) in G.
  pose proof (Hm _ _ G). lia.
Qed.

Lemma fold_busiestStep :
  forall (entries : list (Z * Z * Z)) (busiest : option BusiestMonth),
    let result := fold_left busiestStep entries busiest in
    match result with
    | Some b =>
        (forall key n, In (key, n) entries -> n <= count b)
        /\ (Some b = busiest
            \/ exists key,
                 In (key, count b) entries
                 /\ (year b, month b) = parseMonthKey key)
        /\ match busiest with Some b0 => count b0 <= count b | None => True end
    | None => entries = [] /\ busiest = None
    end.
Proof.
  induction entries as [| [key n] entries IH]; intros busiest; cbv zeta.
  - simpl. destruct busiest as [b |]; [| split; reflexivity].
    split; [intros key n [] |]. split; [left; reflexivity | lia].
  - cbn [fold_left].
    assert (Hstep : busiestStep busiest (key, n)
                    = if match busiest with
                         | None => true
                         | Some b => n >? count b
                         end
                      then Some (mkBusiest n (snd (parseMonthKey key))
                                           (fst (parseMonthKey key)))
                      else busiest).
    { unfold busiestStep. destruct (parseMonthKey key). reflexivity. }
    rewrite Hstep. clear Hstep.
    destruct (match busiest with None => true | Some b => n >? count b end) eqn:E.
    + specialize (IH (Some (mkBusiest n (snd (parseMonthKey key))
                                      (fst (parseMonthKey key))))).
      cbv zeta in IH.
      destruct (fold_left busiestStep entries _) as [b |]; [| destruct IH; discriminate].
      destruct IH as (H1 & H2 & H3). cbn [count] in H3.
      split; [| split].
      * intros key' n' [E' | Hin]; [inversion E'; subst; exact H3 | eapply H1; exact Hin].
      * right. destruct H2 as [E' | (key' & Hin & Ek)].
        -- inversion E'; subst. exists key. cbn [count year month].
           split; [left; reflexivity | destruct (parseMonthKey key); reflexivity].
        -- exists key'. split; [right; exact Hin | exact Ek].
      * destruct busiest as [b0 |]; [| exact I].
        rewrite Z.gtb_ltb in E. apply Z.ltb_lt in E. lia.
    + destruct busiest as [b0 |]; [| discriminate E].
      rewrite Z.gtb_ltb in E. apply Z.ltb_ge in E.
      specialize (IH (Some b0)). cbv zeta in IH.
      destruct (fold_left busiestStep entries (Some b0)) as [b |];
        [| destruct IH; discriminate].
      destruct IH as (H1 & H2 & H3).
      split; [| split].
      * intros key' n' [E' | Hin]; [inversion E'; subst; lia | eapply H1; exact Hin].
      * destruct H2 as [E' | (key' & Hin & Ek)]; [left; exact E' | right].
        exists key'. split; [right; exact Hin | exact Ek].
      * exact H3.
Qed.

End BusiestMonth.

Section BusiestMonthCard.
Context {F : Type} {ops : FloatOps F}.
Import StatsCards.

Variable now : Z.
Variable localYearMonth : Z -> Z * Z.

Lemma stats_busiest :
  forall (rides : list Ride) (stations : list (Station F)) ridesByDate,
    ridesByDateOf rides = Ret ridesByDate ->
    exists s,
      stats now localYearMonth rides stations = Ret s
      /\ busiestMonth s
         = fold_left busiestStep
                     (fold_left (ridesByMonthStep localYearMonth) rides []) None.
Proof.
  intros rides stations ridesByDate H. unfold stats. rewrite H. cbn [bind].
  destruct (fold_left (favouriteStep stations) _ _) as [fav maxV].
  destruct (fold_left (distanceStep stations) _ _) as [[[lng lngDate] km] rds].
  destruct (fold_left mostRidesStep _ _) as [most mostDate].
  destruct (streakOf (rideDatesOf ridesByDate)) as [streak brk].
  eexists. split; reflexivity.
Qed.

(** X26: the busiest month of the cards, in the calendar of the host.
    Its count is the largest number of rides that start in one month, no
    month has more, and the year and month reported are those read back
    from the key of a month with that many rides (the year and the month
    themselves when the year is not negative), one ride at least; it is
    missing exactly when no ride has a start time. *)
Theorem card_busiest_month_has_the_most_rides :
  forall (rides : list Ride) (stations : list (Station F)),
    (forall r ms, In r rides -> startTimeMs r = Some ms -> validTime ms = true) ->
    exists s,
      stats now localYearMonth rides stations = Ret s
      /\ match busiestMonth s with
         | Some b =>
             (forall key, ridesInMonth localYearMonth rides key <= count b)
             /\ 1 <= count b
             /\ exists key,
                  ridesInMonth localYearMonth rides key = count b
                  /\ (year b, month b) = parseMonthKey key
                  /\ (0 <= fst key -> (year b, month b) = key)
         | None => forall r, In r rides -> startTimeMs r = None
         end
      /\ (busiestMonth s = None
          <-> forall r, In r rides -> startTimeMs r = None).
Proof.
  intros rides stations Hvalid.
  destruct (ridesByDate_returns rides Hvalid) as (m & Hm & _).
  destruct (stats_busiest rides stations m Hm) as (s & Hs & Hbusy).
  exists s. split; [exact Hs |]. rewrite Hbusy.
  destruct (ridesByMonth_fold localYearMonth rides [] (NoDup_nil _)) as [Hnd Hcount].
  cbv zeta in Hnd, Hcount.
  set (byMonth := fold_left (ridesByMonthStep localYearMonth) rides []) in *.
  assert (Hcount' : forall key,
             orZero (JsMap.get monthKeyEqb key byMonth)
             = ridesInMonth localYearMonth rides key).
  { intros key. rewrite Hcount. reflexivity. }
  pose proof (ridesByMonth_positive localYearMonth rides []
                ltac:(intros key n [])) as Hvalues.
  fold byMonth in Hvalues.
  pose proof (fold_busiestStep byMonth None) as Hfold. cbv zeta in Hfold.
  destruct (fold_left busiestStep byMonth None) as [b |].
  - destruct Hfold as (Hall & Hbest & _).
    destruct Hbest as [E | (key & Hin & Ek)]; [discriminate E |].
    assert (Hpos : 1 <= count b) by exact (Hvalues _ _ Hin).
    assert (Hkey : ridesInMonth localYearMonth rides key = count b).
    { rewrite <- Hcount', (get_of_entry monthKeyEqb monthKeyEqb_spec _ _ _ Hnd Hin).
      reflexivity. }
    split.
    + split; [| split; [exact Hpos |]].
      * intros key'. rewrite <- Hcount'.
        destruct (JsMap.get monthKeyEqb key' byMonth) as [v |] eqn:G;
          [| cbn [orZero]; lia].
        apply (Hall key' v).
        apply (entry_of_get monthKeyEqb monthKeyEqb_spec). exact G.
      * exists key. split; [exact Hkey | split; [exact Ek |]].
        intros Hy. rewrite Ek. unfold parseMonthKey. destruct key as [y mo].
        cbn [fst] in Hy. destruct (Z.ltb_spec y 0); [lia | reflexivity].
    + split; [discriminate |]. intros Hall0. exfalso.
      assert (Hone : 1 <= ridesInMonth localYearMonth rides key) by lia.
      unfold ridesInMonth in Hone. apply countIf_pos_iff in Hone.
      destruct Hone as (r & Hr & Hm'). rewrite (Hall0 r Hr) in Hm'.
      discriminate Hm'.
  - destruct Hfold as [Hnil _].
    assert (Hno : forall r, In r rides -> startTimeMs r = None).
    { intros r Hin.
      destruct (startTimeMs r) as [ms |] eqn:E; [| reflexivity]. exfalso.
      assert (Hone : 1 <= ridesInMonth localYearMonth rides (localYearMonth ms)).
      { apply countIf_pos_iff. exists r. split; [exact Hin |]. rewrite E.
        apply monthKeyEqb_spec. reflexivity. }
      rewrite <- Hcount', Hnil in Hone. simpl in Hone. lia. }
    split; [exact Hno |]. split; [intros _; exact Hno | reflexivity].
Qed.

End BusiestMonthCard.

(** ** Closed instances *)

Ltac valid_starts :=
  let r := fresh "r" in
  let ms := fresh "ms" in
  let Hin := fresh "Hin" in
  let E := fresh "E" in
  intros r ms Hin E;
  repeat (destruct Hin as [<- | Hin]; [inversion E; reflexivity |]);
  destruct Hin.

Lemma routes_table_numeric_sort_witness :
  StronglySorted (fun a b => RoutesTable.count a >= RoutesTable.count b)
    (RoutesView.sortedRoutes sampleLocaleCompare SampleViews.routes
                             RoutesView.SortCount SortDesc)
  /\ StronglySorted (fun a b => RoutesTable.count a <= RoutesTable.count b)
       (RoutesView.sortedRoutes sampleLocaleCompare SampleViews.routes
                                RoutesView.SortCount SortAsc)
  /\ forall direction v,
       filter (fun r => RoutesTable.count r =? v)
              (RoutesView.sortedRoutes sampleLocaleCompare SampleViews.routes
                                       RoutesView.SortCount direction)
       = filter (fun r => RoutesTable.count r =? v) SampleViews.routes.
Proof.
  apply (routes_table_numeric_sort sampleLocaleCompare SampleViews.routes
           RoutesView.SortCount RoutesTable.count).
  reflexivity.
Defined.

Lemma stations_table_numeric_sort_witness :
  StronglySorted (fun a b => StationsTable.total a >= StationsTable.total b)
    (StationsView.sortedStats sampleLocaleCompare SampleViews.stationRows
                              StationsView.SortTotal SortDesc)
  /\ StronglySorted (fun a b => StationsTable.total a <= StationsTable.total b)
       (StationsView.sortedStats sampleLocaleCompare SampleViews.stationRows
                                 StationsView.SortTotal SortAsc)
  /\ forall direction v,
       filter (fun r => StationsTable.total r =? v)
              (StationsView.sortedStats sampleLocaleCompare SampleViews.stationRows
                                        StationsView.SortTotal direction)
       = filter (fun r => StationsTable.total r =? v) SampleViews.stationRows.
Proof.
  apply (stations_table_numeric_sort sampleLocaleCompare SampleViews.stationRows
           StationsView.SortTotal StationsTable.total).
  reflexivity.
Defined.

Lemma route_map_line_width_witness :
  let width :=
    RoutesMap.weight (RoutesTable.count SampleViews.quietRoute)
                     (RoutesMap.maxCount SampleViews.realRoutes) in
  (width
   = 2 + 6 * IZR (RoutesTable.count SampleViews.quietRoute)
         / IZR (RoutesMap.maxCount SampleViews.realRoutes))%R
  /\ (2 < width <= 8)%R
  /\ (width = 8%R
      <-> RoutesTable.count SampleViews.quietRoute
          = RoutesMap.maxCount SampleViews.realRoutes)
  /\ exists busiest,
       In busiest SampleViews.realRoutes
       /\ RoutesMap.weight (RoutesTable.count busiest)
                           (RoutesMap.maxCount SampleViews.realRoutes) = 8%R.
Proof.
  apply (route_map_line_width SampleViews.realRoutes SampleViews.quietRoute).
  - repeat constructor; simpl; lia.
  - right. left. reflexivity.
Defined.

Lemma time_of_day_histogram_bins_witness :
  match TimePatternChart.chartData TimePatternChart.utcHours
          TimePatternChart.utcMinutes sampleCommute TimePatternChart.W1h with
  | None => forall r, In r sampleCommute -> startTimeMs r = None
  | Some chart =>
      (exists r, In r sampleCommute /\ startTimeMs r <> None)
      /\ Z.of_nat (List.length (JourneyTimeHistogram.data chart))
         = 1440 / TimePatternChart.bucketWidthMinutes TimePatternChart.W1h
      /\ List.length (JourneyTimeHistogram.labels chart)
         = List.length (JourneyTimeHistogram.data chart)
      /\ sumBy (fun x => x) (JourneyTimeHistogram.data chart)
         = countIf validStart sampleCommute
      /\ forall i,
           (i < List.length (JourneyTimeHistogram.data chart))%nat ->
           nth i (JourneyTimeHistogram.data chart) 0
           = countIf (startsInBin TimePatternChart.utcHours
                        TimePatternChart.utcMinutes
                        (TimePatternChart.bucketWidthMinutes TimePatternChart.W1h)
                        (Z.of_nat i))
                     sampleCommute
  end.
Proof.
  apply (time_of_day_histogram_bins TimePatternChart.utcHours
           TimePatternChart.utcMinutes).
  - intros ms. unfold TimePatternChart.utcHours. apply Z.mod_pos_bound. lia.
  - intros ms. unfold TimePatternChart.utcMinutes. apply Z.mod_pos_bound. lia.
Defined.

Lemma stats_fail_exactly_on_invalid_start_or_too_many_rides_witness :
  StatsCards.statsOnHost SampleViews.now SampleViews.localYearMonth 2
    SampleViews.rides Sample.directory = Throw RangeError
  /\ exists s,
      StatsCards.statsOnHost SampleViews.now SampleViews.localYearMonth
        Sample.maxArguments SampleViews.rides Sample.directory = Ret s.
Proof.
  split.
  - refine (proj2 (proj1 (stats_fail_exactly_on_invalid_start_or_too_many_rides
                            SampleViews.now SampleViews.localYearMonth 2
                            SampleViews.rides Sample.directory _)) _).
    + lia.
    + right. vm_compute. reflexivity.
  - refine (proj2 (proj1 (proj2
              (stats_fail_exactly_on_invalid_start_or_too_many_rides
                 SampleViews.now SampleViews.localYearMonth Sample.maxArguments
                 SampleViews.rides Sample.directory _))) _).
    + vm_compute. discriminate.
    + split; [valid_starts | vm_compute; discriminate].
Defined.

Lemma card_average_between_minimum_and_maximum_witness :
  exists s,
    StatsCards.stats SampleViews.now SampleViews.localYearMonth
                     SampleViews.rides Sample.directory = Ret s
    /\ cardDurationsBracket s
    /\ (StatsCards.minDurationMinutes s = None
        <-> filter hasDuration SampleViews.rides = []).
Proof.
  apply (card_average_between_minimum_and_maximum SampleViews.now
           SampleViews.localYearMonth SampleViews.rides Sample.directory).
  valid_starts.
Defined.

Lemma card_first_ride_is_the_earliest_start_witness :
  exists s,
    StatsCards.stats SampleViews.now SampleViews.localYearMonth
                     SampleViews.rides Sample.directory = Ret s
    /\ match StatsCards.earliestRide s with
       | Some first =>
           (exists r, In r SampleViews.rides /\ startTimeMs r = Some first)
           /\ (forall r ms,
                 In r SampleViews.rides -> startTimeMs r = Some ms -> first <= ms)
           /\ StatsCards.daysAgo s
              = Some ((SampleViews.now - first) / StatsCards.msPerDay)
       | None =>
           (forall r, In r SampleViews.rides -> startTimeMs r = None)
           /\ StatsCards.daysAgo s = None
       end.
Proof.
  apply (card_first_ride_is_the_earliest_start SampleViews.now
           SampleViews.localYearMonth SampleViews.rides Sample.directory).
  valid_starts.
Defined.

Lemma cards_count_the_rows_of_the_stations_table_witness :
  exists s,
    StatsCards.stats SampleViews.now SampleViews.localYearMonth
                     SampleViews.rides Sample.directory = Ret s
    /\ StatsCards.stationsVisited s
       = Z.of_nat
           (List.length
              (StationsView.visitedStations
                 (StationsView.sortedStats sampleLocaleCompare
                    (StationsTable.stationStats SampleViews.rides Sample.directory)
                    StationsView.SortTotal SortDesc)))
    /\ StatsCards.stationsVisited s <= StatsCards.totalStations s.
Proof.
  apply (cards_count_the_rows_of_the_stations_table SampleViews.now
           SampleViews.localYearMonth sampleLocaleCompare SampleViews.rides
           Sample.directory StationsView.SortTotal SortDesc).
  valid_starts.
Defined.

Lemma card_longest_streak_and_break_witness :
  exists s,
    StatsCards.stats SampleViews.now SampleViews.localYearMonth
                     SampleViews.rides Sample.directory = Ret s
    /\ isLongestBreak (distinctDays SampleViews.rides)
                      (StatsCards.longestBreakDays s)
    /\ ((2 <= List.length (distinctDays SampleViews.rides))%nat ->
        isLongestRun (distinctDays SampleViews.rides) (StatsCards.longestStreak s)).
Proof.
  apply (card_longest_streak_and_break SampleViews.now
           SampleViews.localYearMonth SampleViews.rides Sample.directory).
  valid_starts.
Defined.

Lemma card_most_rides_in_a_day_witness :
  exists s,
    StatsCards.stats SampleViews.now SampleViews.localYearMonth
                     SampleViews.rides Sample.directory = Ret s
    /\ (forall day, ridesOnDay SampleViews.rides day <= StatsCards.mostRidesInDay s)
    /\ (StatsCards.mostRidesInDayDate s = None
        <-> forall r, In r SampleViews.rides -> startTimeMs r = None).
Proof.
  destruct (card_most_rides_in_a_day SampleViews.now
              SampleViews.localYearMonth SampleViews.rides Sample.directory)
    as (s & Hs & Hmax & _ & Hnone).
  - valid_starts.
  - exists s. split; [exact Hs | split; [exact Hmax | exact Hnone]].
Defined.

Lemma card_favourite_station_has_the_most_visits_witness :
  exists s,
    StatsCards.stats SampleViews.now SampleViews.localYearMonth
                     SampleViews.rides Sample.directory = Ret s
    /\ (forall k, stationVisits Sample.directory SampleViews.rides k
                  <= StatsCards.maxVisits s)
    /\ (StatsCards.favouriteStation s = None
        <-> forall r, In r SampleViews.rides
                      -> rideStationIds Sample.directory r = []).
Proof.
  destruct (card_favourite_station_has_the_most_visits SampleViews.now
              SampleViews.localYearMonth SampleViews.rides Sample.directory)
    as (s & Hs & Hmax & _ & _ & Hnone).
  - valid_starts.
  - exists s. split; [exact Hs | split; [exact Hmax | exact Hnone]].
Defined.

Lemma card_busiest_month_has_the_most_rides_witness :
  exists s,
    StatsCards.stats SampleViews.now SampleViews.localYearMonth
                     SampleViews.rides Sample.directory = Ret s
    /\ (StatsCards.busiestMonth s = None
        <-> forall r, In r SampleViews.rides -> startTimeMs r = None).
Proof.
  destruct (card_busiest_month_has_the_most_rides SampleViews.now
              SampleViews.localYearMonth SampleViews.rides Sample.directory)
    as (s & Hs & _ & Hnone).
  - valid_starts.
  - exists s. split; [exact Hs | exact Hnone].
Defined.

(** ** The longest ride and the fastest journey *)

Section Distances.
Import StatsCards.
#[local] Open Scope R_scope.

Variable now : Z.
Variable localYearMonth : Z -> Z * Z.

Lemma stats_distances :
  forall (rides : list Ride) (stations : list (Station R)) ridesByDate,
    ridesByDateOf rides = Ret ridesByDate ->
    exists s,
      stats now localYearMonth rides stations = Ret s
      /\ exists rideDistances,
           (longestRideDistanceKm s, longestRideDate s, totalDistanceKm s,
            rideDistances)
           = fold_left (distanceStep stations) rides (None, None, ofZ 0, [])
           /\ fastestJourney s = fold_left fastestStep rideDistances None.
Proof.
  intros rides stations ridesByDate H. unfold stats. rewrite H. cbn [bind].
  destruct (fold_left (favouriteStep stations) _ _) as [fav maxV].
  destruct (fold_left (distanceStep stations) _ _) as [[[lng lngDate] km] rds].
  destruct (fold_left mostRidesStep _ _) as [most mostDate].
  destruct (streakOf (rideDatesOf ridesByDate)) as [streak brk].
  eexists. split; [reflexivity |]. exists rds. split; reflexivity.
Qed.

Lemma distanceStep_cases :
  forall (stations : list (Station R)) longest longestDate totalKm rideDistances ride,
    distanceStep stations (longest, longestDate, totalKm, rideDistances) ride
    = match rideDistanceKm stations ride with
      | Some km =>
          let rideDistances' :=
            (rideDistances
             ++ [mkRideDistance km (rideDurationMinutes ride) (rideDateOf ride)])%list in
          if match longest with
             | None => true
             | Some l => fgtb km l
             end
          then (Some km, rideDateOf ride, totalKm + km, rideDistances')
          else (longest, longestDate, totalKm + km, rideDistances')
      | None => (longest, longestDate, totalKm, rideDistances)
      end.
Proof.
  intros stations longest longestDate totalKm rideDistances ride.
  unfold distanceStep, rideDistanceKm. rewrite !findStationByName_cards_eq.
  destruct (Resolver.findStationByName (startAddress ride) stations);
    destruct (Resolver.findStationByName (endAddress ride) stations);
    reflexivity.
Qed.

Lemma fold_distanceStep :
  forall (stations : list (Station R)) rides longest0 date0 total0 rds0,
    match fold_left (distanceStep stations) rides (longest0, date0, total0, rds0) with
    | (longest, date, _, rds) =>
        rds
        = (rds0
           ++ flat_map (fun r => match rideDistanceKm stations r with
                                 | Some km =>
                                     [mkRideDistance km (rideDurationMinutes r)
                                                     (rideDateOf r)]
                                 | None => []
                                 end) rides)%list
        /\ match longest with
           | Some km =>
               ((longest0 = Some km /\ date = date0)
                \/ exists r, In r rides /\ rideDistanceKm stations r = Some km
                             /\ date = rideDateOf r)
               /\ (forall r d, In r rides -> rideDistanceKm stations r = Some d ->
                               d <= km)
               /\ match longest0 with Some k0 => k0 <= km | None => True end
           | None =>
               longest0 = None
               /\ date = date0
               /\ forall r, In r rides -> rideDistanceKm stations r = None
           end
    end.
Proof.
  intros stations rides.
  induction rides as [| r rides IH]; intros longest0 date0 total0 rds0.
  - cbn [fold_left flat_map]. rewrite app_nil_r. split; [reflexivity |].
    destruct longest0 as [k0 |].
    + split; [left; split; reflexivity |]. split; [intros r d [] | lra].
    + split; [reflexivity | split; [reflexivity | intros r []]].
  - cbn [fold_left flat_map]. rewrite distanceStep_cases.
    destruct (rideDistanceKm stations r) as [km |] eqn:Ekm; cbv zeta.
    + assert (Hcase :
          (match longest0 with None => true | Some l => fgtb km l end) = true
          /\ match longest0 with Some l => l < km | None => True end
          \/ (match longest0 with None => true | Some l => fgtb km l end) = false
             /\ exists l, longest0 = Some l /\ km <= l).
      { destruct longest0 as [l |]; [| left; split; [reflexivity | exact I]].
        cbn [fgtb RealOps]. destruct (Rgt_dec km l) as [G | G].
        - left. split; [reflexivity | lra].
        - right. split; [reflexivity |]. exists l. split; [reflexivity | lra]. }
      destruct Hcase as [[Eb Hlt] | [Eb (l & El & Hle)]]; rewrite Eb.
      * specialize (IH (Some km) (rideDateOf r) (total0 + km)
                       (rds0 ++ [mkRideDistance km (rideDurationMinutes r)
                                                (rideDateOf r)])%list).
        destruct (fold_left (distanceStep stations) rides _)
          as [[[longest date] total] rds].
        destruct IH as [Hrds Hlong]. split.
        { rewrite Hrds, <- app_assoc. reflexivity. }
        destruct longest as [k |]; [| destruct Hlong; discriminate].
        destruct Hlong as (Hfrom & Hall & Hge). split; [| split].
        -- right. destruct Hfrom as [[E1 E2] | (r' & Hin & Er & Ed)].
           ++ inversion E1; subst. exists r.
              split; [left; reflexivity | split; [exact Ekm | reflexivity]].
           ++ exists r'. split; [right; exact Hin | split; assumption].
        -- intros r' d [<- | Hin] Ed; [| eapply Hall; eassumption].
           rewrite Ekm in Ed. inversion Ed; subst. exact Hge.
        -- destruct longest0 as [k0 |]; [lra | exact I].
      * subst longest0.
        specialize (IH (Some l) date0 (total0 + km)
                       (rds0 ++ [mkRideDistance km (rideDurationMinutes r)
                                                (rideDateOf r)])%list).
        destruct (fold_left (distanceStep stations) rides _)
          as [[[longest date] total] rds].
        destruct IH as [Hrds Hlong]. split.
        { rewrite Hrds, <- app_assoc. reflexivity. }
        destruct longest as [k |]; [| destruct Hlong; discriminate].
        destruct Hlong as (Hfrom & Hall & Hge). split; [| split].
        -- destruct Hfrom as [[E1 E2] | (r' & Hin & Er & Ed)];
             [left; split; assumption | right].
           exists r'. split; [right; exact Hin | split; assumption].
        -- intros r' d [<- | Hin] Ed; [| eapply Hall; eassumption].
           rewrite Ekm in Ed. inversion Ed; subst. lra.
        -- exact Hge.
    + specialize (IH longest0 date0 total0 rds0).
      destruct (fold_left (distanceStep stations) rides _)
        as [[[longest date] total] rds].
      destruct IH as [Hrds Hlong]. split; [exact Hrds |].
      destruct longest as [k |].
      * destruct Hlong as (Hfrom & Hall & Hge). split; [| split].
        -- destruct Hfrom as [[E1 E2] | (r' & Hin & Er & Ed)];
             [left; split; assumption | right].
           exists r'. split; [right; exact Hin | split; assumption].
        -- intros r' d [<- | Hin] Ed; [congruence | eapply Hall; eassumption].
        -- exact Hge.
      * destruct Hlong as (E & Edate & Hnone).
        split; [exact E | split; [exact Edate |]].
        intros r' [<- | Hin]; [exact Ekm | apply Hnone, Hin].
Qed.

(** X27: the longest ride of the cards, on the reals.  Its distance is
    the distance of some ride with two resolved addresses, no such ride is
    longer, and its date is the start of a ride of that distance; the
    distance is missing exactly when no ride has two resolved addresses,
    and the date is then missing too. *)
Theorem card_longest_ride_is_the_longest :
  forall (rides : list Ride) (stations : list (Station R)),
    (forall r ms, In r rides -> startTimeMs r = Some ms -> validTime ms = true) ->
    exists s,
      stats now localYearMonth rides stations = Ret s
      /\ match longestRideDistanceKm s with
         | Some km =>
             (exists r, In r rides /\ rideDistanceKm stations r = Some km
                        /\ longestRideDate s = rideDateOf r)
             /\ forall r d, In r rides -> rideDistanceKm stations r = Some d ->
                            d <= km
         | None =>
             longestRideDate s = None
             /\ forall r, In r rides -> rideDistanceKm stations r = None
         end
      /\ (longestRideDistanceKm s = None
          <-> forall r, In r rides -> rideDistanceKm stations r = None).
Proof.
  intros rides stations Hvalid.
  destruct (ridesByDate_returns rides Hvalid) as (m & Hm & _).
  destruct (stats_distances rides stations m Hm) as (s & Hs & rds & Hfold & _).
  exists s. split; [exact Hs |].
  pose proof (fold_distanceStep stations rides None None (ofZ 0) []) as H.
  rewrite <- Hfold in H. destruct H as [_ H].
  destruct (longestRideDistanceKm s) as [km |].
  - destruct H as ([[E _] | Hex] & Hall & _); [discriminate E |].
    split; [split; [exact Hex | exact Hall] |].
    split; [discriminate |]. intros Hnone. exfalso.
    destruct Hex as (r & Hr & Ekm & _). rewrite (Hnone r Hr) in Ekm. discriminate Ekm.
  - destruct H as (_ & Edate & Hnone).
    split; [split; [exact Edate | exact Hnone] |].
    split; [intros _; exact Hnone | reflexivity].
Qed.

Lemma fold_fastestStep :
  forall (rds : list (RideDistance R)) (fastest0 : option (FastestJourney R)),
    match fold_left fastestStep rds fastest0 with
    | Some f =>
        (fastest0 = Some f
         \/ exists rd minutes,
              In rd rds /\ rd_durationMinutes rd = Some minutes
              /\ (0 < minutes)%Z /\ 1 <= rd_distanceKm rd
              /\ f = mkFastest minutes (rd_distanceKm rd)
                               (rd_distanceKm rd / IZR minutes * 60))
        /\ (forall rd minutes,
              In rd rds -> rd_durationMinutes rd = Some minutes ->
              (0 < minutes)%Z -> 1 <= rd_distanceKm rd ->
              rd_distanceKm rd / IZR minutes * 60 <= speedKph f)
        /\ match fastest0 with Some f0 => speedKph f0 <= speedKph f | None => True end
    | None =>
        fastest0 = None
        /\ forall rd minutes,
             In rd rds -> rd_durationMinutes rd = Some minutes ->
             ~ ((0 < minutes)%Z /\ 1 <= rd_distanceKm rd)
    end.
Proof.
  induction rds as [| rd rds IH]; intros fastest0.
  - cbn [fold_left]. destruct fastest0 as [f0 |].
    + split; [left; reflexivity |]. split; [intros rd minutes [] | lra].
    + split; [reflexivity | intros rd minutes []].
  - cbn [fold_left].
    assert (Hstep :
        (exists minutes,
            rd_durationMinutes rd = Some minutes /\ (0 < minutes)%Z
            /\ 1 <= rd_distanceKm rd
            /\ ((fastestStep fastest0 rd
                 = Some (mkFastest minutes (rd_distanceKm rd)
                                   (rd_distanceKm rd / IZR minutes * 60))
                 /\ match fastest0 with
                    | Some f0 => speedKph f0 < rd_distanceKm rd / IZR minutes * 60
                    | None => True
                    end)
                \/ (fastestStep fastest0 rd = fastest0
                    /\ exists f0, fastest0 = Some f0
                                  /\ rd_distanceKm rd / IZR minutes * 60
                                     <= speedKph f0)))
        \/ (fastestStep fastest0 rd = fastest0
            /\ forall minutes, rd_durationMinutes rd = Some minutes ->
                               ~ ((0 < minutes)%Z /\ 1 <= rd_distanceKm rd))).
    { unfold fastestStep. destruct (rd_durationMinutes rd) as [minutes |];
        [| right; split; [reflexivity | intros minutes E; discriminate E]].
      cbn [fgeb fgtb RealOps ofZ fmul fdiv].
      destruct (Z.gtb_spec minutes 0) as [Hpos | Hneg]; cbn [andb].
      - destruct (Rge_dec (rd_distanceKm rd) 1) as [Hkm | Hkm].
        + left. exists minutes. split; [reflexivity |]. split; [exact Hpos |].
          split; [lra |]. destruct fastest0 as [f0 |].
          * destruct (Rgt_dec (rd_distanceKm rd / IZR minutes * 60) (speedKph f0))
              as [G | G].
            -- left. split; [reflexivity | lra].
            -- right. split; [reflexivity |]. exists f0. split; [reflexivity | lra].
          * left. split; [reflexivity | exact I].
        + right. split; [reflexivity |]. intros minutes' E [_ H].
          inversion E; subst. lra.
      - right. split; [reflexivity |]. intros minutes' E [H _].
        inversion E; subst. lia. }
    destruct Hstep as [(minutes & Em & Hpos & Hkm & Hcase) | [Estep Hnot]].
    + destruct Hcase as [[Estep Hlt] | [Estep (f0 & E0 & Hle)]]; rewrite Estep.
      * specialize (IH (Some (mkFastest minutes (rd_distanceKm rd)
                                        (rd_distanceKm rd / IZR minutes * 60)))).
        destruct (fold_left fastestStep rds _) as [f |]; [| destruct IH; discriminate].
        destruct IH as (Hfrom & Hall & Hge). cbn [speedKph] in Hge.
        split; [| split].
        -- right. destruct Hfrom as [E | (rd' & m' & Hin & H1 & H2 & H3 & H4)].
           ++ inversion E; subst. exists rd, minutes.
              split; [left; reflexivity |]. repeat split; assumption.
           ++ exists rd', m'. split; [right; exact Hin |]. repeat split; assumption.
        -- intros rd' m' [<- | Hin] H1 H2 H3; [| eapply Hall; eassumption].
           rewrite Em in H1. inversion H1; subst. exact Hge.
        -- destruct fastest0 as [f0 |]; [lra | exact I].
      * subst fastest0. specialize (IH (Some f0)).
        destruct (fold_left fastestStep rds (Some f0)) as [f |];
          [| destruct IH; discriminate].
        destruct IH as (Hfrom & Hall & Hge). split; [| split].
        -- destruct Hfrom as [E | (rd' & m' & Hin & H1 & H2 & H3 & H4)];
             [left; exact E | right].
           exists rd', m'. split; [right; exact Hin |]. repeat split; assumption.
        -- intros rd' m' [<- | Hin] H1 H2 H3; [| eapply Hall; eassumption].
           rewrite Em in H1. inversion H1; subst. lra.
        -- exact Hge.
    + rewrite Estep. specialize (IH fastest0).
      destruct (fold_left fastestStep rds fastest0) as [f |].
      * destruct IH as (Hfrom & Hall & Hge). split; [| split].
        -- destruct Hfrom as [E | (rd' & m' & Hin & H1 & H2 & H3 & H4)];
             [left; exact E | right].
           exists rd', m'. split; [right; exact Hin |]. repeat split; assumption.
        -- intros rd' m' [<- | Hin] H1 H2 H3; [| eapply Hall; eassumption].
           exfalso. apply (Hnot m' H1). split; assumption.
        -- exact Hge.
      * destruct IH as [E Hnone]. split; [exact E |].
        intros rd' m' [<- | Hin] H1; [apply Hnot, H1 | eapply Hnone; eassumption].
Qed.

Lemma rideSpeedKph_spec :
  forall (stations : list (Station R)) ride v,
    rideSpeedKph stations ride = Some v
    <-> exists km minutes,
          rideDistanceKm stations ride = Some km
          /\ rideDurationMinutes ride = Some minutes
          /\ (0 < minutes)%Z /\ 1 <= km /\ v = km / IZR minutes * 60.
Proof.
  intros stations ride v. unfold rideSpeedKph.
  destruct (rideDistanceKm stations ride) as [km |];
    [| split; [discriminate | intros (km & m & E & _); discriminate E]].
  destruct (rideDurationMinutes ride) as [minutes |];
    [| split; [discriminate | intros (k & m & _ & E & _); discriminate E]].
  cbn [fgeb fmul fdiv RealOps ofZ].
  destruct (Z.gtb_spec minutes 0) as [Hpos | Hneg]; cbn [andb].
  - destruct (Rge_dec km 1) as [Hkm | Hkm].
    + split.
      * intros E. inversion E; subst. exists km, minutes.
        repeat split; try reflexivity; [exact Hpos | lra].
      * intros (k & m & E1 & E2 & _ & _ & ->). inversion E1; inversion E2; subst.
        reflexivity.
    + split; [discriminate |].
      intros (k & m & E1 & E2 & _ & H & _). inversion E1; subst. lra.
  - split; [discriminate |].
    intros (k & m & E1 & E2 & H & _). inversion E2; subst. lia.
Qed.

(** X28: the fastest journey of the cards, on the reals.  It is chosen
    among the rides with two resolved addresses, a positive rounded
    duration and a distance of at least 1 km; its speed is
    distance / minutes * 60 of such a ride and no such ride is faster;
    without any such ride it is missing. *)
Theorem card_fastest_journey_is_the_fastest :
  forall (rides : list Ride) (stations : list (Station R)),
    (forall r ms, In r rides -> startTimeMs r = Some ms -> validTime ms = true) ->
    exists s,
      stats now localYearMonth rides stations = Ret s
      /\ match fastestJourney s with
         | Some f =>
             (exists r, In r rides
                        /\ rideSpeedKph stations r = Some (speedKph f)
                        /\ rideDistanceKm stations r = Some (distanceKm f)
                        /\ rideDurationMinutes r = Some (durationMinutes f))
             /\ forall r v, In r rides -> rideSpeedKph stations r = Some v ->
                            v <= speedKph f
         | None => forall r, In r rides -> rideSpeedKph stations r = None
         end.
Proof.
  intros rides stations Hvalid.
  destruct (ridesByDate_returns rides Hvalid) as (m & Hm & _).
  destruct (stats_distances rides stations m Hm) as (s & Hs & rds & Hfold & Hfast).
  exists s. split; [exact Hs |].
  pose proof (fold_distanceStep stations rides None None (ofZ 0) []) as H.
  rewrite <- Hfold in H. destruct H as [Hrds _]. cbn [app] in Hrds.
  assert (Hin : forall rd,
             In rd rds
             <-> exists r km, In r rides /\ rideDistanceKm stations r = Some km
                              /\ rd = mkRideDistance km (rideDurationMinutes r)
                                                     (rideDateOf r)).
  { intros rd. rewrite Hrds, in_flat_map. split.
    - intros (r & Hr & Hrd). destruct (rideDistanceKm stations r) as [km |] eqn:E;
        [| destruct Hrd].
      destruct Hrd as [<- | []]. exists r, km. repeat split; assumption.
    - intros (r & km & Hr & E & ->). exists r. split; [exact Hr |].
      rewrite E. left. reflexivity. }
  pose proof (fold_fastestStep rds None) as Hf. rewrite <- Hfast in Hf.
  destruct (fastestJourney s) as [f |].
  - destruct Hf as ([E | (rd & minutes & Hrd & H1 & H2 & H3 & H4)] & Hall & _);
      [discriminate E |].
    apply Hin in Hrd. destruct Hrd as (r & km & Hr & Ekm & ->).
    cbn [rd_durationMinutes rd_distanceKm] in *. subst f.
    cbn [speedKph distanceKm durationMinutes]. split.
    + exists r. split; [exact Hr |]. split; [| split; assumption].
      apply rideSpeedKph_spec. exists km, minutes. repeat split; assumption.
    + intros r' v Hr' Ev. apply rideSpeedKph_spec in Ev.
      destruct Ev as (km' & m' & E1 & E2 & E3 & E4 & ->).
      apply (Hall (mkRideDistance km' (rideDurationMinutes r') (rideDateOf r')) m');
        cbn [rd_durationMinutes rd_distanceKm]; try assumption.
      apply Hin. exists r', km'. repeat split; assumption.
  - destruct Hf as [_ Hnone]. intros r Hr.
    destruct (rideSpeedKph stations r) as [v |] eqn:Ev; [| reflexivity].
    exfalso. apply rideSpeedKph_spec in Ev.
    destruct Ev as (km & minutes & E1 & E2 & E3 & E4 & _).
    apply (Hnone (mkRideDistance km (rideDurationMinutes r) (rideDateOf r)) minutes).
    + apply Hin. exists r, km. repeat split; assumption.
    + exact E2.
    + split; assumption.
Qed.

End Distances.

Lemma card_longest_ride_is_the_longest_witness :
  exists s,
    StatsCards.stats SampleViews.now SampleViews.localYearMonth
                     SampleViews.rides SampleViews.realDirectory = Ret s
    /\ (StatsCards.longestRideDistanceKm s = None
        <-> forall r, In r SampleViews.rides ->
                      rideDistanceKm SampleViews.realDirectory r = None).
Proof.
  destruct (card_longest_ride_is_the_longest SampleViews.now
              SampleViews.localYearMonth SampleViews.rides SampleViews.realDirectory)
    as (s & Hs & _ & Hnone).
  - valid_starts.
  - exists s. split; [exact Hs | exact Hnone].
Defined.

Lemma card_fastest_journey_is_the_fastest_witness :
  exists s,
    StatsCards.stats SampleViews.now SampleViews.localYearMonth
                     SampleViews.rides SampleViews.realDirectory = Ret s
    /\ match StatsCards.fastestJourney s with
       | Some f =>
           (exists r,
               In r SampleViews.rides
               /\ rideSpeedKph SampleViews.realDirectory r
                  = Some (StatsCards.speedKph f)
               /\ rideDistanceKm SampleViews.realDirectory r
                  = Some (StatsCards.distanceKm f)
               /\ rideDurationMinutes r = Some (StatsCards.durationMinutes f))
           /\ forall r v,
                In r SampleViews.rides ->
                rideSpeedKph SampleViews.realDirectory r = Some v ->
                (v <= StatsCards.speedKph f)%R
       | None =>
           forall r, In r SampleViews.rides ->
                     rideSpeedKph SampleViews.realDirectory r = None
       end.
Proof.
  apply (card_fastest_journey_is_the_fastest SampleViews.now
           SampleViews.localYearMonth SampleViews.rides SampleViews.realDirectory).
  valid_starts.
Defined.

(* ================================================================== *)
(** * The engine as a whole *)

(** ** The calendar histogram comes to an end *)

Section CalendarLoop.
Import RidesOverTimeHistogram.

Variable host : LocalTime.

(** The calendar of the host moves forward: the start of the next bin,
    when it is a valid date, is later than the start of the bin. *)
Hypothesis host_advances :
  forall bw t t', getNextBinStartDate host bw (Some t) = Some t' -> t < t'.


Lemma binStartDates_invalid :
  forall bw fuel current latest,
    (1 <= fuel)%nat ->
    current = None \/ latest = None ->
    binStartDates host fuel bw current latest = Some [].
Proof.
  intros bw [| fuel] current latest Hfuel H; [lia |]. cbn [binStartDates].
  destruct H as [-> | ->]; [reflexivity |].
  destruct current; reflexivity.
Qed.



End CalendarLoop.

(** The calendar of the UTC host moves forward. *)






(** ** The minimum of a route is at most each of its durations *)

Section RouteMinimum.
Context {F : Type} {ops : FloatOps F}.
Import RoutesTable.




End RouteMinimum.


(** ** Every computation of the engine *)

Section EngineTotality.
Context {F : Type} {ops : FloatOps F}.

(** The host: the time of the computation, its calendar and clock, and
    the number of arguments it accepts in one call. *)
Variable now : Z.
Variable localYearMonth : Z -> Z * Z.
Variable maxArguments : Z.
Variables getHours getMinutes : Z -> Z.
Variable host : RidesOverTimeHistogram.LocalTime.

(** The calendar of the host moves forward. *)
Hypothesis host_advances :
  forall bw t t',
    RidesOverTimeHistogram.getNextBinStartDate host bw (Some t) = Some t' -> t < t'.


End EngineTotality.



(** ** Scenarios on the sample host *)

(** [parseFloat] gives the nearest binary64 number, a tie going to the
    even one; what follows a second dot is not read; without a digit the
    result is [NaN]. *)
Example scenario_parseFloat :
  StatsCards.parseFloat "1.50" = 1.5%float
  /\ StatsCards.parseFloat "0.10" = 0x1.999999999999ap-4%float
  /\ StatsCards.parseFloat "1.7000000000000002" = 0x1.b333333333334p+0%float
  /\ StatsCards.parseFloat "9007199254740993" = 9007199254740992%float
  /\ StatsCards.parseFloat "1.5.3" = 1.5%float
  /\ StatsCards.parseFloat ".5" = 0.5%float
  /\ StatsCards.parseFloat "5." = 5%float
  /\ PrimFloat.is_nan (StatsCards.parseFloat ".") = true.
Proof. repeat split; vm_compute; reflexivity. Qed.

(** The calendar of the UTC host: 29 February 2000 was a Tuesday, and a
    year later the date is 1 March 2001. *)
Example scenario_utc_calendar :
  (RidesOverTimeHistogram.utcYear 951782400000,
   RidesOverTimeHistogram.utcMonth 951782400000,
   RidesOverTimeHistogram.utcDate 951782400000,
   RidesOverTimeHistogram.getDay RidesOverTimeHistogram.utcHost 951782400000)
  = (2000, 1, 29, 2)
  /\ RidesOverTimeHistogram.setFullYear RidesOverTimeHistogram.utcHost
       951782400000 2001
     = Some 983404800000
  /\ RidesOverTimeHistogram.utcLocaleDateString
       RidesOverTimeHistogram.DayMonthYear 983404800000
     = "1 Mar 2001".
Proof. repeat split; vm_compute; reflexivity. Qed.

(** Two rides on 1 January 1970 and one on 4 January, by day and by
    week: the days in between have a bin each, and the week starts on
    Monday 29 December; with two turns of fuel the loop over the days has
    not come to its end. *)
Example scenario_calendar_histogram :
  RidesOverTimeHistogram.chartData RidesOverTimeHistogram.utcHost 10
    SampleViews.rides RidesOverTimeHistogram.W1d
  = Some (Some (JourneyTimeHistogram.mkChart
                  ["1 Jan 1970"; "2 Jan 1970"; "3 Jan 1970"; "4 Jan 1970"]
                  [2; 0; 0; 1]))
  /\ RidesOverTimeHistogram.chartData RidesOverTimeHistogram.utcHost 10
       SampleViews.rides RidesOverTimeHistogram.W1w
     = Some (Some (JourneyTimeHistogram.mkChart ["29 Dec - 5 Jan 1970"] [3]))
  /\ RidesOverTimeHistogram.chartData RidesOverTimeHistogram.utcHost 2
       SampleViews.rides RidesOverTimeHistogram.W1d
     = None.
Proof. repeat split; vm_compute; reflexivity. Qed.
